(** * Progress synchronisation of the takeoff front-end

    A shallow embedding of the two pieces of the React front-end that carry
    a behavioural contract:

    - [frontend/src/hooks/useWebSocket.js]: the socket listener hook;
    - [frontend/src/pages/ProjectProcessing.jsx]: the processing view, with
      its socket-message effect, its polling loop and its cancel handler.

    JavaScript values are modelled by an inductive type of JSON-like values;
    numbers are rationals extended with NaN and the two infinities (the
    operations used by the code, [Math.min], [Math.max] and [>=], are exact
    on doubles, so that rationals lose nothing).  The browser's event loop
    is a step function on an explicit state: pending timers, suspended
    [await]s, React state and the log of [navigate] calls. *)

From Stdlib Require Import ZArith QArith Lqa Lia List String Bool Sorted.
Import ListNotations.

Local Open Scope string_scope.
Local Open Scope list_scope.

(* ------------------------------------------------------------------ *)
(** ** JavaScript values *)

Module Js.

(** A JavaScript number: a finite value, NaN, or an infinity. *)
Inductive Number : Type :=
| NaN
| NegInf
| Fin (q : Q)
| PosInf.

(** A JavaScript value as [JSON.parse] and property access produce it. *)
#[warnings="-register-all"] Inductive Value : Type :=
| VUndefined
| VNull
| VBool (b : bool)
| VNum (n : Number)
| VStr (s : string)
| VArr (items : list Value)
| VObj (props : list (string * Value)).

Definition num (z : Z) : Value := VNum (Fin (inject_Z z)).

(** [a < b] on numbers; false as soon as one side is NaN. *)
Definition num_ltb (a b : Number) : bool :=
  match a, b with
  | NaN, _ | _, NaN => false
  | NegInf, NegInf => false
  | NegInf, _ => true
  | _, NegInf => false
  | PosInf, _ => false
  | Fin _, PosInf => true
  | Fin x, Fin y => negb (Qle_bool y x)
  end.

Definition is_nan (a : Number) : bool :=
  match a with NaN => true | _ => false end.

(** [a >= b]: false when [a < b] is true or undefined. *)
Definition num_geb (a b : Number) : bool :=
  negb (is_nan a) && negb (is_nan b) && negb (num_ltb a b).

(** [Math.min(a, b)] and [Math.max(a, b)] on numbers. *)
Definition Math_min (a b : Number) : Number :=
  if is_nan a || is_nan b then NaN
  else if num_ltb b a then b else a.

Definition Math_max (a b : Number) : Number :=
  if is_nan a || is_nan b then NaN
  else if num_ltb a b then b else a.

(** ToBoolean. *)
Definition truthy (v : Value) : bool :=
  match v with
  | VUndefined | VNull => false
  | VBool b => b
  | VNum NaN => false
  | VNum (Fin q) => negb (Qeq_bool q 0)
  | VNum _ => true
  | VStr s => negb (String.eqb s "")
  | VArr _ | VObj _ => true
  end.

(** [a || b]. *)
Definition js_or (a b : Value) : Value := if truthy a then a else b.

(** [v === 'literal']. *)
Definition strict_eq_str (v : Value) (lit : string) : bool :=
  match v with
  | VStr s => String.eqb s lit
  | _ => false
  end.

Fixpoint lookup (k : string) (props : list (string * Value)) : Value :=
  match props with
  | [] => VUndefined
  | (k', v) :: rest => if String.eqb k k' then v else lookup k rest
  end.

(** [v.k]; [None] is the TypeError raised on [undefined] and [null].  The
    keys read by the code ([type], [stage], [progress], [message],
    [status], [project_status], [takeoff_result], [project_id]) exist on no
    prototype, so every non-object receiver answers [undefined]. *)
Definition get (v : Value) (k : string) : option Value :=
  match v with
  | VUndefined | VNull => None
  | VObj props => Some (lookup k props)
  | _ => Some VUndefined
  end.

(** [v.k] for a receiver already known to be truthy. *)
Definition member (v : Value) (k : string) : Value :=
  match get v k with
  | Some x => x
  | None => VUndefined
  end.

(** [Object.is] for state comparison: objects and arrays produced by a
    fresh parse are never identical to an older value. *)
Definition same_value (a b : Value) : bool :=
  match a, b with
  | VUndefined, VUndefined | VNull, VNull => true
  | VBool x, VBool y => Bool.eqb x y
  | VNum NaN, VNum NaN | VNum NegInf, VNum NegInf
  | VNum PosInf, VNum PosInf => true
  | VNum (Fin x), VNum (Fin y) => Qeq_bool x y
  | VStr x, VStr y => String.eqb x y
  | _, _ => false
  end.

Section Conversions.

(** ToNumber on strings (StringToNumber of the language) and on arrays
    and objects (through ToPrimitive) are taken as given. *)
Variable StringToNumber : string -> Number.
Variable ObjectToNumber : Value -> Number.

Definition ToNumber (v : Value) : Number :=
  match v with
  | VUndefined => NaN
  | VNull => Fin 0
  | VBool true => Fin 1
  | VBool false => Fin 0
  | VNum n => n
  | VStr s => StringToNumber s
  | VArr _ | VObj _ => ObjectToNumber v
  end.

End Conversions.

(** The order in which a progress bar can only grow: both numbers finite. *)
Definition Number_le (a b : Number) : Prop :=
  match a, b with
  | Fin x, Fin y => (x <= y)%Q
  | _, _ => False
  end.

Definition percentage (a : Number) : Prop :=
  match a with
  | Fin x => (0 <= x /\ x <= 100)%Q
  | _ => False
  end.

End Js.

Import Js.

(* ------------------------------------------------------------------ *)
(** ** The socket-message effect of the processing view *)

Record Progress : Type := mkProgress {
  stage : Value;
  progress : Number;
  message : Value
}.

(** [useState({ stage: 'upload', progress: 0, message: 'Initializing...' })] *)
Definition initialProgress : Progress :=
  {| stage := VStr "upload"; progress := Fin 0; message := VStr "Initializing..." |}.

Section MessageEffect.

Variable StringToNumber : string -> Number.
Variable ObjectToNumber : Value -> Number.

(** [Math.max(0, Math.min(100, lastMessage.progress || 0))] *)
Definition newProgressValue (lastMessage : Value) : Number :=
  Math_max (Fin 0)
    (Math_min (Fin 100)
       (ToNumber StringToNumber ObjectToNumber
          (js_or (member lastMessage "progress") (num 0)))).

(** The updater passed to [setProgress]. *)
Definition progress_updater (lastMessage : Value) (prev : Progress) : Progress :=
  let npv := newProgressValue lastMessage in
  if num_geb npv (progress prev) then
    {| stage := js_or (member lastMessage "stage") (stage prev);
       progress := npv;
       message := js_or (js_or (member lastMessage "message") (message prev))
                        (VStr "Processing...") |}
  else
    {| stage := js_or (member lastMessage "stage") (stage prev);
       progress := progress prev;
       message := js_or (js_or (member lastMessage "message") (message prev))
                        (VStr "Processing...") |}.

(** [lastMessage && lastMessage.type === 'progress'] *)
Definition is_progress_message (lastMessage : Value) : bool :=
  truthy lastMessage && strict_eq_str (member lastMessage "type") "progress".

(** The body of the effect that depends on [lastMessage]. *)
Definition lastMessage_effect (lastMessage : Value) (prev : Progress) : Progress :=
  if is_progress_message lastMessage then progress_updater lastMessage prev
  else prev.

(** The successive values of the progress state while the messages of
    [msgs] reach the effect one after the other. *)
Fixpoint progress_states (msgs : list Value) (p : Progress) : list Progress :=
  match msgs with
  | [] => []
  | m :: rest =>
      let p' := lastMessage_effect m p in
      p' :: progress_states rest p'
  end.

Definition displayed (msgs : list Value) (p : Progress) : list Number :=
  map progress (progress_states msgs p).

End MessageEffect.

(** A progress packet as the backend sends it. *)
Definition packet (st : Value) (pct : Value) (msg : Value) : Value :=
  VObj [("type", VStr "progress"); ("stage", st); ("progress", pct); ("message", msg)].

(* ------------------------------------------------------------------ *)
(** ** The socket listener hook ([useWebSocket]) *)

Module UseWebSocket.

(** Completion of a piece of JavaScript: a value, or a thrown exception. *)
Inductive Completion (A : Type) : Type :=
| Normal (a : A)
| Throw (e : string).

Arguments Normal {A} a.
Arguments Throw {A} e.

Definition bind {A B : Type} (c : Completion A) (k : A -> Completion B) : Completion B :=
  match c with
  | Normal a => k a
  | Throw e => Throw e
  end.

(** [try { body } catch (error) { handler(error) }] *)
Definition try_catch {A : Type} (body : Completion A) (handler : string -> Completion A)
  : Completion A :=
  match body with
  | Normal a => Normal a
  | Throw e => handler e
  end.

Notation "x <- c ;; k" := (bind c (fun x => k))
  (at level 61, c at next level, right associativity).

Inductive LogEntry : Type :=
| ConsoleLog (text : string)
| ConsoleError (text : string) (error : string).

(** What the hook exposes ([connected], [lastMessage]) and what it writes
    to the console. *)
Record Hook : Type := mkHook {
  connected : bool;
  lastMessage : Value;
  console : list LogEntry
}.

(** [useState(false)], [useState(null)] *)
Definition initial : Hook :=
  {| connected := false; lastMessage := VNull; console := [] |}.

Definition setConnected (b : bool) (h : Hook) : Hook :=
  {| connected := b; lastMessage := lastMessage h; console := console h |}.

Definition setLastMessage (v : Value) (h : Hook) : Hook :=
  {| connected := connected h; lastMessage := v; console := console h |}.

Definition console_write (e : LogEntry) (h : Hook) : Hook :=
  {| connected := connected h; lastMessage := lastMessage h;
     console := console h ++ [e] |}.

Section Listener.

(** [JSON.parse], a built-in of the language: a value or a SyntaxError. *)
Variable JSON_parse : string -> Completion Value.

Definition onopen (h : Hook) : Completion Hook :=
  Normal (console_write (ConsoleLog "WebSocket connected") (setConnected true h)).

Definition onmessage (data : string) (h : Hook) : Completion Hook :=
  try_catch
    (data' <- JSON_parse data ;;
     Normal (setLastMessage data' h))
    (fun error =>
       Normal (console_write (ConsoleError "Error parsing WebSocket message:" error) h)).

Definition onerror (error : string) (h : Hook) : Completion Hook :=
  Normal (setConnected false (console_write (ConsoleError "WebSocket error:" error) h)).

Definition onclose (h : Hook) : Completion Hook :=
  Normal (console_write (ConsoleLog "WebSocket disconnected") (setConnected false h)).

(** The frames of a connection handled one after the other; a handler that
    throws stops the listener. *)
Fixpoint listen (frames : list string) (h : Hook) : Completion Hook :=
  match frames with
  | [] => Normal h
  | data :: rest => h' <- onmessage data h ;; listen rest h'
  end.

End Listener.

End UseWebSocket.

(* ------------------------------------------------------------------ *)
(** ** The processing view ([ProjectProcessing]) and its event loop *)

Module View.

(** What a timer runs when it fires. *)
Inductive Callback : Type :=
| PollTick                       (* the async callback given to setInterval *)
| NavigateTo (path : string)     (* () => navigate(path) *)
| ForceStop.                     (* the clean-up scheduled for five minutes *)

(** A live timer of the page; [period] is set for an interval. *)
Record Timer : Type := mkTimer {
  tid : nat;
  due : Z;
  period : option Z;
  callback : Callback
}.

(** A backend call whose promise is still pending, named after the
    [await] (or [.then]) that is suspended on it. *)
Inductive Request : Type :=
| ReqLoadProject                          (* getProject(id).then(setProject) *)
| ReqProcessTakeoff (project_id : Value)  (* await processTakeoff(project.project_id) *)
| ReqPollProject                          (* await getProject(id), interval callback *)
| ReqPollTakeoff                          (* await getTakeoff(id), its catch block *)
| ReqCancelTakeoff (project_id : Value).  (* await cancelTakeoff(project.project_id) *)

(** The two readings the code makes of a rejection [err]:
    [err.response?.data?.detail] and [err.message]. *)
Record Failure : Type := mkFailure {
  detail : Value;
  err_message : Value
}.

Inductive Outcome : Type :=
| Resolved (v : Value)
| Rejected (err : Failure).

Inductive LogEntry : Type :=
| ConsoleLog (text : string)
| ConsoleError (err : Failure).

(** React state of the component, its ref, and the part of the browser it
    acts on.  [progressState] is the state variable [progress]. *)
Record State : Type := mkState {
  id : string;
  now : Z;
  mounted : bool;
  project : Value;
  progressState : Progress;
  isProcessing : bool;
  isCancelling : bool;
  error : Value;
  pollingIntervalRef : option nat;
  timers : list Timer;
  next_timer : nat;
  pending : list Request;
  navigations : list string;
  console : list LogEntry
}.

Definition with_now (v : Z) (s : State) : State :=
  {| id := id s; now := v; mounted := mounted s; project := project s;
     progressState := progressState s; isProcessing := isProcessing s;
     isCancelling := isCancelling s; error := error s;
     pollingIntervalRef := pollingIntervalRef s; timers := timers s;
     next_timer := next_timer s; pending := pending s;
     navigations := navigations s; console := console s |}.

Definition with_mounted (v : bool) (s : State) : State :=
  {| id := id s; now := now s; mounted := v; project := project s;
     progressState := progressState s; isProcessing := isProcessing s;
     isCancelling := isCancelling s; error := error s;
     pollingIntervalRef := pollingIntervalRef s; timers := timers s;
     next_timer := next_timer s; pending := pending s;
     navigations := navigations s; console := console s |}.

Definition with_project (v : Value) (s : State) : State :=
  {| id := id s; now := now s; mounted := mounted s; project := v;
     progressState := progressState s; isProcessing := isProcessing s;
     isCancelling := isCancelling s; error := error s;
     pollingIntervalRef := pollingIntervalRef s; timers := timers s;
     next_timer := next_timer s; pending := pending s;
     navigations := navigations s; console := console s |}.

Definition with_progressState (v : Progress) (s : State) : State :=
  {| id := id s; now := now s; mounted := mounted s; project := project s;
     progressState := v; isProcessing := isProcessing s;
     isCancelling := isCancelling s; error := error s;
     pollingIntervalRef := pollingIntervalRef s; timers := timers s;
     next_timer := next_timer s; pending := pending s;
     navigations := navigations s; console := console s |}.

Definition with_isProcessing (v : bool) (s : State) : State :=
  {| id := id s; now := now s; mounted := mounted s; project := project s;
     progressState := progressState s; isProcessing := v;
     isCancelling := isCancelling s; error := error s;
     pollingIntervalRef := pollingIntervalRef s; timers := timers s;
     next_timer := next_timer s; pending := pending s;
     navigations := navigations s; console := console s |}.

Definition with_isCancelling (v : bool) (s : State) : State :=
  {| id := id s; now := now s; mounted := mounted s; project := project s;
     progressState := progressState s; isProcessing := isProcessing s;
     isCancelling := v; error := error s;
     pollingIntervalRef := pollingIntervalRef s; timers := timers s;
     next_timer := next_timer s; pending := pending s;
     navigations := navigations s; console := console s |}.

Definition with_error (v : Value) (s : State) : State :=
  {| id := id s; now := now s; mounted := mounted s; project := project s;
     progressState := progressState s; isProcessing := isProcessing s;
     isCancelling := isCancelling s; error := v;
     pollingIntervalRef := pollingIntervalRef s; timers := timers s;
     next_timer := next_timer s; pending := pending s;
     navigations := navigations s; console := console s |}.

Definition with_pollingIntervalRef (v : option nat) (s : State) : State :=
  {| id := id s; now := now s; mounted := mounted s; project := project s;
     progressState := progressState s; isProcessing := isProcessing s;
     isCancelling := isCancelling s; error := error s;
     pollingIntervalRef := v; timers := timers s; next_timer := next_timer s;
     pending := pending s; navigations := navigations s;
     console := console s |}.

Definition with_timers (v : list Timer) (s : State) : State :=
  {| id := id s; now := now s; mounted := mounted s; project := project s;
     progressState := progressState s; isProcessing := isProcessing s;
     isCancelling := isCancelling s; error := error s;
     pollingIntervalRef := pollingIntervalRef s; timers := v;
     next_timer := next_timer s; pending := pending s;
     navigations := navigations s; console := console s |}.

Definition with_next_timer (v : nat) (s : State) : State :=
  {| id := id s; now := now s; mounted := mounted s; project := project s;
     progressState := progressState s; isProcessing := isProcessing s;
     isCancelling := isCancelling s; error := error s;
     pollingIntervalRef := pollingIntervalRef s; timers := timers s;
     next_timer := v; pending := pending s; navigations := navigations s;
     console := console s |}.

Definition with_pending (v : list Request) (s : State) : State :=
  {| id := id s; now := now s; mounted := mounted s; project := project s;
     progressState := progressState s; isProcessing := isProcessing s;
     isCancelling := isCancelling s; error := error s;
     pollingIntervalRef := pollingIntervalRef s; timers := timers s;
     next_timer := next_timer s; pending := v; navigations := navigations s;
     console := console s |}.

Definition with_navigations (v : list string) (s : State) : State :=
  {| id := id s; now := now s; mounted := mounted s; project := project s;
     progressState := progressState s; isProcessing := isProcessing s;
     isCancelling := isCancelling s; error := error s;
     pollingIntervalRef := pollingIntervalRef s; timers := timers s;
     next_timer := next_timer s; pending := pending s; navigations := v;
     console := console s |}.

Definition with_console (v : list LogEntry) (s : State) : State :=
  {| id := id s; now := now s; mounted := mounted s; project := project s;
     progressState := progressState s; isProcessing := isProcessing s;
     isCancelling := isCancelling s; error := error s;
     pollingIntervalRef := pollingIntervalRef s; timers := timers s;
     next_timer := next_timer s; pending := pending s;
     navigations := navigations s; console := v |}.

(** *** React state setters: ignored once the component is unmounted *)

Definition setProject (v : Value) (s : State) : State :=
  if mounted s then with_project v s else s.

Definition setProgress (f : Progress -> Progress) (s : State) : State :=
  if mounted s then with_progressState (f (progressState s)) s else s.

Definition setIsProcessing (b : bool) (s : State) : State :=
  if mounted s then with_isProcessing b s else s.

Definition setIsCancelling (b : bool) (s : State) : State :=
  if mounted s then with_isCancelling b s else s.

Definition setError (v : Value) (s : State) : State :=
  if mounted s then with_error v s else s.

(** *** Browser primitives *)

Definition console_write (e : LogEntry) (s : State) : State :=
  with_console (console s ++ [e]) s.

(** A call of the API client: its promise joins the pending ones. *)
Definition request (r : Request) (s : State) : State :=
  with_pending (pending s ++ [r]) s.

Definition new_timer (p : option Z) (cb : Callback) (delay : Z) (s : State) : State :=
  with_next_timer (S (next_timer s))
    (with_timers
       (timers s ++ [{| tid := next_timer s; due := now s + delay;
                        period := p; callback := cb |}]) s).

Definition setTimeout (cb : Callback) (delay : Z) (s : State) : State :=
  new_timer None cb delay s.

(** [setInterval] also answers the identifier of the new timer, which is
    [next_timer] of the state it is called in. *)
Definition setInterval (cb : Callback) (delay : Z) (s : State) : State :=
  new_timer (Some delay) cb delay s.

Definition clearInterval (i : nat) (s : State) : State :=
  with_timers (filter (fun t => negb (Nat.eqb (tid t) i)) (timers s)) s.

(** [clearInterval(pollingIntervalRef.current)]: a null ref clears nothing. *)
Definition clearInterval_ref (s : State) : State :=
  match pollingIntervalRef s with
  | Some i => clearInterval i s
  | None => s
  end.

(** [if (pollingIntervalRef.current) clearInterval(pollingIntervalRef.current)] *)
Definition ref_truthy (s : State) : bool :=
  match pollingIntervalRef s with
  | Some i => negb (Nat.eqb i 0)
  | None => false
  end.

Definition clear_if_polling (s : State) : State :=
  if ref_truthy s then clearInterval_ref s else s.

(** The template literal `/projects/${id}`. *)
Definition results_path (s : State) : string := ("/projects/" ++ id s)%string.

(** [setTimeout(() => { navigate(`/projects/${id}`) }, 2000)] *)
Definition navigate_later (s : State) : State :=
  setTimeout (NavigateTo (results_path s)) 2000 s.

(** *** The polling loop *)

Definition is_success (status : Value) : bool :=
  strict_eq_str status "completed" || strict_eq_str status "expert_review"
  || strict_eq_str status "ai_complete".

Definition is_failure (status : Value) : bool :=
  strict_eq_str status "cancelled" || strict_eq_str status "failed".

Definition failure_text (status : Value) : Value :=
  if strict_eq_str status "cancelled" then VStr "Processing was cancelled"
  else VStr "Processing failed".

(** [x.status || x.project_status] *)
Definition status_of (x : Value) : Value :=
  js_or (member x "status") (member x "project_status").

Definition stop_and_navigate (s : State) : State :=
  navigate_later (setIsProcessing false (clearInterval_ref s)).

Definition stop_with_error (status : Value) (s : State) : State :=
  setError (failure_text status) (setIsProcessing false (clearInterval_ref s)).

(** The interval callback after [await getProject(id)] has resolved. *)
Definition on_project_status (project' : Value) (s : State) : State :=
  if negb (truthy project') then s
  else
    let status := status_of project' in
    if is_success status then stop_and_navigate s
    else if is_failure status then stop_with_error status s
    else if strict_eq_str status "processing" then
      if truthy (member project' "takeoff_result") then stop_and_navigate s
      else s
    else s.

Definition both_failed (s : State) : State :=
  console_write (ConsoleLog "Polling for project status...") s.

(** The catch block after [await getTakeoff(id)] has resolved; reading
    [takeoff.status] of a null answer throws into the inner catch. *)
Definition on_takeoff_status (takeoff : Value) (s : State) : State :=
  match get takeoff "status" with
  | None => both_failed s
  | Some _ =>
      let status := status_of takeoff in
      if is_success status then stop_and_navigate s
      else if is_failure status then stop_with_error status s
      else s
  end.

Definition then_poll_project (o : Outcome) (s : State) : State :=
  match o with
  | Resolved project' => on_project_status project' s
  | Rejected _ => request ReqPollTakeoff s
  end.

Definition then_poll_takeoff (o : Outcome) (s : State) : State :=
  match o with
  | Resolved takeoff => on_takeoff_status takeoff s
  | Rejected _ => both_failed s
  end.

(** [pollForCompletion]: the interval every 3 seconds, stored in the ref,
    then the clean-up after [5 * 60 * 1000] milliseconds. *)
Definition pollForCompletion (s : State) : State :=
  let i := next_timer s in
  setTimeout ForceStop (5 * 60 * 1000)
    (with_pollingIntervalRef (Some i) (setInterval PollTick 3000 s)).

(** [err.response?.data?.detail || err.message || fallback] *)
Definition error_text (err : Failure) (fallback : string) : Value :=
  js_or (js_or (detail err) (err_message err)) (VStr fallback).

(** [startProcessing] up to its [await]. *)
Definition startProcessing (s : State) : State :=
  if negb (truthy (project s)) then s
  else
    request (ReqProcessTakeoff (member (project s) "project_id"))
      (setError VNull (setIsProcessing true s)).

Definition then_processTakeoff (o : Outcome) (s : State) : State :=
  match o with
  | Resolved _ => pollForCompletion s
  | Rejected err =>
      setIsProcessing false (setError (error_text err "Failed to start processing") s)
  end.

(** *** Cancelling *)

Definition cancelled_display : Progress :=
  {| stage := VStr "cancelled"; progress := Fin 0;
     message := VStr "Processing cancelled" |}.

(** [handleCancel] up to its [await]; [confirmed] is the answer of
    [window.confirm]. *)
Definition handleCancel (confirmed : bool) (s : State) : State :=
  if negb (truthy (project s)) || negb (isProcessing s) then s
  else if negb confirmed then s
  else
    request (ReqCancelTakeoff (member (project s) "project_id"))
      (setError VNull (setIsCancelling true s)).

Definition then_cancelTakeoff (o : Outcome) (s : State) : State :=
  match o with
  | Resolved _ =>
      let s1 :=
        if ref_truthy s then with_pollingIntervalRef None (clearInterval_ref s)
        else s in
      navigate_later
        (setProgress (fun _ => cancelled_display) (setIsProcessing false s1))
  | Rejected err =>
      setIsCancelling false (setError (error_text err "Failed to cancel processing") s)
  end.

(** *** Effects *)

(** The two effects that depend on [project]: load it when it is missing,
    start processing when it is there. *)
Definition project_effects (s : State) : State :=
  let s1 :=
    if negb (truthy (project s)) && negb (String.eqb (id s) "")
    then request ReqLoadProject s else s in
  if truthy (project s1) && negb (isProcessing s1) then startProcessing s1 else s1.

(** [getProject(id).then(setProject).catch(...)]: React re-runs the effects
    only when the state really changed. *)
Definition then_loadProject (o : Outcome) (s : State) : State :=
  match o with
  | Resolved v =>
      if mounted s && negb (same_value v (project s))
      then project_effects (setProject v s)
      else s
  | Rejected err =>
      console_write (ConsoleError err) (setError (VStr "Failed to load project") s)
  end.

(** The clean-up of the last effect, run when the component unmounts. *)
Definition unmount (s : State) : State :=
  if mounted s then with_mounted false (clear_if_polling s) else s.

(** First render at [/projects/:id/process]; [state_project] is
    [location.state?.project]. *)
Definition mount (id0 : string) (state_project : Value) : State :=
  project_effects
    {| id := id0; now := 0; mounted := true;
       project := js_or state_project VNull;
       progressState := initialProgress;
       isProcessing := false; isCancelling := false; error := VNull;
       pollingIntervalRef := None; timers := []; next_timer := 1;
       pending := []; navigations := []; console := [] |}.

(** *** The event loop *)

(** What can happen to the page: time passes, a due timer fires, a pending
    promise settles, the user answers the cancel dialog, the hook delivers
    a new [lastMessage], the user leaves the page. *)
Inductive Event : Type :=
| Elapse (dt : Z)
| TimerFires (i : nat)
| Respond (n : nat) (o : Outcome)
| ClickCancel (confirmed : bool)
| SocketMessage (m : Value)
| Leave.

Definition find_timer (i : nat) (s : State) : option Timer :=
  find (fun t => Nat.eqb (tid t) i) (timers s).

(** A timeout is consumed when it fires, an interval is armed again. *)
Definition rearm (t : Timer) (s : State) : State :=
  match period t with
  | Some p =>
      with_timers
        (map (fun u =>
                if Nat.eqb (tid u) (tid t)
                then {| tid := tid u; due := due u + p; period := period u;
                        callback := callback u |}
                else u)
             (timers s)) s
  | None => clearInterval (tid t) s
  end.

Definition run_callback (cb : Callback) (s : State) : State :=
  match cb with
  | PollTick => request ReqPollProject s
  | NavigateTo path => unmount (with_navigations (navigations s ++ [path]) s)
  | ForceStop => clear_if_polling s
  end.

Fixpoint remove_nth {A : Type} (n : nat) (l : list A) : list A :=
  match n, l with
  | _, [] => []
  | O, _ :: rest => rest
  | S m, x :: rest => x :: remove_nth m rest
  end.

(** The continuation suspended on each kind of request. *)
Definition resume (r : Request) (o : Outcome) (s : State) : State :=
  match r with
  | ReqLoadProject => then_loadProject o s
  | ReqProcessTakeoff _ => then_processTakeoff o s
  | ReqPollProject => then_poll_project o s
  | ReqPollTakeoff => then_poll_takeoff o s
  | ReqCancelTakeoff _ => then_cancelTakeoff o s
  end.

(** The cancel button is rendered while [isProcessing] and disabled while
    [isCancelling]. *)
Definition cancel_button_enabled (s : State) : bool :=
  mounted s && isProcessing s && negb (isCancelling s).

Section Loop.

Variable StringToNumber : string -> Number.
Variable ObjectToNumber : Value -> Number.

(** One turn of the event loop; [None] when the event cannot happen in
    this state.  Time does not pass beyond a timer that is due. *)
Definition step (s : State) (e : Event) : option State :=
  match e with
  | Elapse dt =>
      if (0 <=? dt)%Z && forallb (fun t => (now s + dt <=? due t)%Z) (timers s)
      then Some (with_now (now s + dt) s) else None
  | TimerFires i =>
      match find_timer i s with
      | Some t =>
          if (due t <=? now s)%Z
          then Some (run_callback (callback t) (rearm t s)) else None
      | None => None
      end
  | Respond n o =>
      match nth_error (pending s) n with
      | Some r => Some (resume r o (with_pending (remove_nth n (pending s)) s))
      | None => None
      end
  | ClickCancel confirmed =>
      if cancel_button_enabled s then Some (handleCancel confirmed s) else None
  | SocketMessage m =>
      if mounted s
      then Some (setProgress (lastMessage_effect StringToNumber ObjectToNumber m) s)
      else None
  | Leave =>
      if mounted s then Some (unmount s) else None
  end.

Fixpoint run (s : State) (evs : list Event) : option State :=
  match evs with
  | [] => Some s
  | e :: rest =>
      match step s e with
      | Some s' => run s' rest
      | None => None
      end
  end.

(** The states of a session: those the event loop reaches from the first
    render. *)
Definition reachable (s : State) : Prop :=
  exists (id0 : string) (state_project : Value) (evs : list Event),
    run (mount id0 state_project) evs = Some s.

End Loop.

(** *** Observations *)

Definition is_poll (t : Timer) : bool :=
  match callback t with PollTick => true | _ => false end.

Definition is_navigation (t : Timer) : bool :=
  match callback t with NavigateTo _ => true | _ => false end.

(** Polling goes on as long as the interval is alive. *)
Definition polling (s : State) : bool := existsb is_poll (timers s).

Definition navigation_timers (s : State) : list Timer := filter is_navigation (timers s).

(** Navigations scheduled so far: those still waiting and those done. *)
Definition scheduled_navigations (s : State) : nat :=
  (List.length (navigation_timers s) + List.length (navigations s))%nat.

(** *** Invariants of the event loop *)

Definition is_load (r : Request) : bool :=
  match r with ReqLoadProject => true | _ => false end.

Definition is_start (r : Request) : bool :=
  match r with ReqProcessTakeoff _ => true | _ => false end.

Definition is_late (r : Request) : bool := negb (is_load r) && negb (is_start r).

(** Every continuation settles (see [settles] below), except the two that
    move the session to its next phase: the project arriving, and the start
    request answered. *)
Definition moves_on (r : Request) (o : Outcome) : bool :=
  match r, o with
  | ReqLoadProject, Resolved _ => true
  | ReqProcessTakeoff _, Resolved _ => true
  | _, _ => false
  end.

(** What holds of every live timer: it is not overdue, its identifier has
    been handed out, the ref holds the identifier of the polling interval
    and of no other timer, and only the polling timer is periodic. *)
Definition timer_ok (clock : Z) (ref : option nat) (next : nat) (t : Timer) : Prop :=
  (clock <= due t)%Z
  /\ (tid t < next)%nat
  /\ (is_poll t = true -> ref = Some (tid t) /\ tid t <> 0%nat)
  /\ (is_poll t = false -> ref <> Some (tid t))
  /\ period t = (if is_poll t then Some 3000%Z else None).

Definition timers_ok (s : State) : Prop :=
  Forall (timer_ok (now s) (pollingIntervalRef s) (next_timer s)) (timers s)
  /\ NoDup (map tid (timers s))
  /\ (forall i, pollingIntervalRef s = Some i -> (i < next_timer s)%nat)
  /\ (1 <= next_timer s)%nat.

(** Number of pending start requests. *)
Definition starts (l : list Request) : nat := List.length (filter is_start l).

(** Before the project is known nothing runs but its loading; afterwards
    it is never loaded again, processing is started at most once, and no
    polling interval exists before the start request is answered. *)
Definition phase_ok (s : State) : Prop :=
  if truthy (project s) then
    forallb (fun r => negb (is_load r)) (pending s) = true
    /\ (starts (pending s) <= 1)%nat
    /\ (starts (pending s) = 1%nat -> polling s = false)
  else
    (pending s = [] \/ pending s = [ReqLoadProject])
    /\ timers s = []
    /\ isProcessing s = false.

Definition invariant (s : State) : Prop := timers_ok s /\ phase_ok s.

(** The start request has been answered: polling cannot be installed any
    more. *)
Definition started (s : State) : Prop :=
  truthy (project s) = true /\ forallb is_late (pending s) = true.

(** [settles s s']: [s'] is [s] after code that neither changes the
    project nor installs a polling interval: the new requests are polls or
    cancellations, no polling timer is new, every other timer is kept. *)
Definition settles (s s' : State) : Prop :=
  project s' = project s
  /\ (exists extra, pending s' = pending s ++ extra /\ forallb is_late extra = true)
  /\ (forall t, In t (timers s') -> is_poll t = true ->
                exists u, In u (timers s) /\ is_poll u = true)
  /\ (forall t, In t (timers s) -> is_poll t = false -> In t (timers s')).

(** The clean-up timer due at [deadline] is still waiting, or polling has
    stopped already. *)
Definition bounded_by (deadline : Z) (s : State) : Prop :=
  (exists t, In t (timers s) /\ callback t = ForceStop /\ due t = deadline)
  \/ polling s = false.

(** Nothing is in flight and nothing polls. *)
Definition quiet (s : State) : Prop :=
  pending s = []
  /\ polling s = false
  /\ (mounted s = true -> isProcessing s = false).

(** The timer that [navigate_later] adds in state [s]. *)
Definition navigation_timer (s : State) : Timer :=
  {| tid := next_timer s; due := now s + 2000; period := None;
     callback := NavigateTo (results_path s) |}.

Definition not_poll (t : Timer) : bool := negb (is_poll t).

End View.

(* ------------------------------------------------------------------ *)
(** ** Instances used to run the model on examples *)

Module Examples.

Import View.

Definition is_digit (c : Ascii.ascii) : bool :=
  (48 <=? Ascii.nat_of_ascii c)%nat && (Ascii.nat_of_ascii c <=? 57)%nat.

Fixpoint digits_value (s : string) (acc : Z) : option Z :=
  match s with
  | EmptyString => Some acc
  | String c rest =>
      if is_digit c
      then digits_value rest (10 * acc + Z.of_nat (Ascii.nat_of_ascii c - 48))
      else None
  end.

(** StringToNumber on the strings the examples use: the empty string is 0,
    a run of decimal digits is its value, any other text here is NaN. *)
Definition decimal_StringToNumber (s : string) : Number :=
  match digits_value s 0 with
  | Some z => Fin (inject_Z z)
  | None => NaN
  end.

(** ToNumber of a plain object is NaN; the examples convert no array. *)
Definition plain_ObjectToNumber (v : Value) : Number := NaN.

(** [JSON.parse] on the three literal frames; the examples feed it nothing
    else that is valid JSON. *)
Definition literal_JSON_parse (data : string) : UseWebSocket.Completion Value :=
  if String.eqb data "null" then UseWebSocket.Normal VNull
  else if String.eqb data "true" then UseWebSocket.Normal (VBool true)
  else if String.eqb data "false" then UseWebSocket.Normal (VBool false)
  else UseWebSocket.Throw "SyntaxError".

Definition step' := step decimal_StringToNumber plain_ObjectToNumber.
Definition run' := run decimal_StringToNumber plain_ObjectToNumber.
Definition effect' := lastMessage_effect decimal_StringToNumber plain_ObjectToNumber.

(** A project as the upload page hands it over in [location.state]. *)
Definition plans : Value :=
  VObj [("project_id", VStr "p42"); ("name", VStr "Plans"); ("status", VStr "uploaded")].

Definition status_reply (st : string) : Value := VObj [("status", VStr st)].

Definition network_error : Failure :=
  {| detail := VUndefined; err_message := VStr "Network Error" |}.

(** The view is mounted with its project, the start request succeeds and
    the polling loop is installed. *)
Definition started : list Event := [Respond 0 (Resolved VNull)].

(** ... then the first poll tick fires, three seconds later. *)
Definition first_tick : list Event := started ++ [Elapse 3000; TimerFires 1].

(** Two poll requests in flight at once: the first answer is slower than
    the polling period. *)
Definition two_in_flight : list Event := first_tick ++ [Elapse 3000; TimerFires 1].

(** The state of the session of project 42 after the events [evs]. *)
Definition state_after (evs : list Event) : State :=
  match run' (mount "42" plans) evs with
  | Some s => s
  | None => mount "42" plans
  end.

Definition completed : Outcome := Resolved (status_reply "completed").

(** A project still marked 'processing' whose result is there. *)
Definition processing_with_result : Value :=
  VObj [("status", VStr "processing");
        ("takeoff_result", VObj [("quantities", VObj [])])].

(** A project still marked 'processing' whose [takeoff_result] is [false]:
    not null, but not truthy either. *)
Definition processing_without_result : Value :=
  VObj [("status", VStr "processing"); ("takeoff_result", VBool false)].

(** The user confirms the cancel dialog once polling runs. *)
Definition cancel_confirmed : list Event := started ++ [ClickCancel true].

(** Five minutes of polling, every tick fired on time and left unanswered,
    then the clean-up timer, then one more millisecond. *)
Definition five_minutes : list Event :=
  List.concat (repeat [Elapse 3000; TimerFires 1] 100) ++ [TimerFires 2; Elapse 1].

(** A hook with an open connection and one decoded message. *)
Definition listening : UseWebSocket.Hook :=
  {| UseWebSocket.connected := true;
     UseWebSocket.lastMessage := packet (VStr "cv") (num 60) (VStr "Detecting");
     UseWebSocket.console := [UseWebSocket.ConsoleLog "WebSocket connected"] |}.

End Examples.

(* ------------------------------------------------------------------ *)
(** ** More of the front-end: the rest of the hook, of the view and of
    the code around them *)

From Stdlib Require Import Permutation Qround.

(** *** The progress state after a run of messages *)

Section AfterMessages.

Variable StringToNumber : string -> Number.
Variable ObjectToNumber : Value -> Number.


End AfterMessages.


(** *** The hook with its socket ([useWebSocket], whole) *)

Module Socket.

Import UseWebSocket.

(** The hook and the socket it owns: whether [ws.current] is set, and
    what has been handed to [ws.current.send]. *)
Record Connection : Type := mkConnection {
  hook : Hook;
  ws : bool;
  sent : list string
}.

(** What reaches the hook: the four events of the socket, and a call of
    [sendMessage] by the component. *)
Inductive Event : Type :=
| Opened
| Frame (data : string)
| Failed (error : string)
| Closed
| Send (message : Value).

Definition with_hook (h : Hook) (c : Connection) : Connection :=
  {| hook := h; ws := ws c; sent := sent c |}.

(** The effect: [if (!url) return; ws.current = new WebSocket(url)]. *)
Definition connect (url : string) : Connection :=
  {| hook := initial; ws := negb (String.eqb url ""); sent := [] |}.

(** Frames, of a list, on which [parse] throws. *)
Definition malformed (parse : string -> Completion Value) (frames : list string)
  : list string :=
  filter (fun f => match parse f with Throw _ => true | Normal _ => false end) frames.

Section Hook.

Variable JSON_parse : string -> Completion Value.

(** [JSON.stringify(message)] as [ws.current.send] gets it. *)
Variable JSON_stringify : Value -> string.

(** [if (ws.current && connected) ws.current.send(JSON.stringify(message))] *)
Definition sendMessage (message : Value) (c : Connection) : Connection :=
  if ws c && connected (hook c)
  then {| hook := hook c; ws := ws c; sent := sent c ++ [JSON_stringify message] |}
  else c.

(** One event; a socket that was never created has no events. *)
Definition handle (e : Event) (c : Connection) : Completion Connection :=
  match e with
  | Send message => Normal (sendMessage message c)
  | _ =>
      if ws c then
        h' <- match e with
              | Opened => onopen (hook c)
              | Frame data => onmessage JSON_parse data (hook c)
              | Failed error => onerror error (hook c)
              | _ => onclose (hook c)
              end ;;
        Normal (with_hook h' c)
      else Normal c
  end.

Fixpoint run (evs : list Event) (c : Connection) : Completion Connection :=
  match evs with
  | [] => Normal c
  | e :: rest => c' <- handle e c ;; run rest c'
  end.

End Hook.

(** The events that are neither an opening, nor a closing, nor an error. *)
Definition is_traffic (e : Event) : bool :=
  match e with Frame _ | Send _ => true | _ => false end.

Definition is_opening (e : Event) : bool :=
  match e with Opened => true | _ => false end.

End Socket.

(** *** What the view renders from its progress state *)

Module Render.

Record Stage : Type := mkStage {
  key : string;
  label : string
}.

(** The table [STAGES] of the processing view (icons left out). *)
Definition STAGES : list Stage :=
  [ {| key := "upload"; label := "Upload" |};
    {| key := "extraction"; label := "Extraction" |};
    {| key := "quantity"; label := "Quantity" |};
    {| key := "cv"; label := "CV" |};
    {| key := "specs"; label := "Spec" |};
    {| key := "verification"; label := "Verify" |};
    {| key := "expert_review"; label := "Expert" |};
    {| key := "complete"; label := "Complete" |} ].

(** [Array.prototype.findIndex]: the first index that satisfies [f], or -1. *)
Fixpoint findIndex_from {A : Type} (f : A -> bool) (l : list A) (i : Z) : Z :=
  match l with
  | [] => (-1)%Z
  | x :: rest => if f x then i else findIndex_from f rest (i + 1)%Z
  end.

Definition findIndex {A : Type} (f : A -> bool) (l : list A) : Z :=
  findIndex_from f l 0.

(** [STAGES.findIndex(s => s.key === progress.stage) || 0]: of the indices
    only 0 is falsy. *)
Definition currentStageIndex (p : Progress) : Z :=
  let i := findIndex (fun s => strict_eq_str (stage p) (key s)) STAGES in
  if (i =? 0)%Z then 0%Z else i.

(** [index <= currentStageIndex], for the stage at position [index]. *)
Definition isActive (index : nat) (p : Progress) : bool :=
  (Z.of_nat index <=? currentStageIndex p)%Z.

(** [stage.key === progress.stage] *)
Definition isCurrent (s : Stage) (p : Progress) : bool :=
  strict_eq_str (stage p) (key s).

(** [STAGES[i]], undefined outside the table. *)
Definition stage_at (i : Z) : option Stage :=
  if (i <? 0)%Z then None else nth_error STAGES (Z.to_nat i).

(** [STAGES[currentStageIndex]?.label || 'Processing'] *)
Definition stage_label (p : Progress) : string :=
  match stage_at (currentStageIndex p) with
  | Some s => if String.eqb (label s) "" then "Processing" else label s
  | None => "Processing"
  end.

(** [Math.round]: the nearest integer, a tie going up. *)
Definition Math_round (a : Number) : Number :=
  match a with
  | Fin q => Fin (inject_Z (Qfloor (q + (1 # 2))))
  | other => other
  end.

(** [progress.progress > 10 && ... {Math.round(progress.progress)}%]: the
    number written in the bar, when one is written. *)
Definition percent_label (p : Progress) : option Number :=
  if num_ltb (Fin 10) (progress p) then Some (Math_round (progress p)) else None.

End Render.

(** *** Addresses: the API client and the socket *)

Module Urls.

Fixpoint skip (n : nat) (s : string) : string :=
  match n, s with
  | O, _ => s
  | S m, String _ rest => skip m rest
  | S _, EmptyString => EmptyString
  end.

(** [s.replace(pat, rep)] for a string pattern and a replacement without
    [$]: the first occurrence of [pat] is replaced. *)
Fixpoint replace (pat rep s : string) : string :=
  if String.prefix pat s then (rep ++ skip (String.length pat) s)%string
  else match s with
       | EmptyString => EmptyString
       | String c rest => String c (replace pat rep rest)
       end.

Fixpoint occurs (pat s : string) : bool :=
  String.prefix pat s
  || match s with
     | EmptyString => false
     | String _ rest => occurs pat rest
     end.

(** [import.meta.env.VITE_API_URL] is a string or is not defined.
    [API_BASE_URL = import.meta.env.VITE_API_URL || 'http://localhost:8000'] *)
Definition API_BASE_URL (env : option string) : string :=
  match env with
  | Some u => if String.eqb u "" then "http://localhost:8000" else u
  | None => "http://localhost:8000"
  end.

(** [wsUrl] of the processing view. *)
Definition wsUrl (env : option string) : string :=
  match env with
  | Some u =>
      if String.eqb u "" then "ws://localhost:8000"
      else replace "https://" "wss://" (replace "http://" "ws://" u)
  | None => "ws://localhost:8000"
  end.

(** [`${wsUrl}/ws/${clientId}`] with [clientId = `client_${id}`]. *)
Definition socket_url (env : option string) (id : string) : string :=
  (wsUrl env ++ "/ws/" ++ ("client_" ++ id))%string.

End Urls.

(** *** The upload page: choosing trades ([NewProject]) *)

Module NewProject.

(** [prev.includes(tradeId)] *)
Definition includes (tradeId : string) (prev : list string) : bool :=
  existsb (String.eqb tradeId) prev.

(** The updater of [toggleTrade]. *)
Definition toggleTrade (tradeId : string) (prev : list string) : list string :=
  if includes tradeId prev
  then filter (fun t => negb (String.eqb t tradeId)) prev
  else prev ++ [tradeId].

(** The selection after the clicks [clicks], from the empty selection. *)
Definition selection (clicks : list string) : list string :=
  fold_left (fun prev tradeId => toggleTrade tradeId prev) clicks [].

End NewProject.


(** *** Observations of a session of the processing view *)

Module Trace.

Import View.

(** [steady s s']: [s'] is [s] after code that calls [navigate] on no path:
    the identifier of the page and the navigations done are the same, a
    navigation that is scheduled in [s'] was scheduled in [s] or targets
    the results page, and no scheduled navigation is revoked. *)
Definition steady (s s' : State) : Prop :=
  id s' = id s
  /\ navigations s' = navigations s
  /\ (forall t, In t (timers s') -> is_navigation t = true ->
                In t (timers s) \/ callback t = NavigateTo (results_path s))
  /\ (forall t, In t (timers s) -> is_navigation t = true -> In t (timers s')).

(** Every navigation, scheduled or done, targets the results page. *)
Definition targets_results (s : State) : Prop :=
  (forall t p, In t (timers s) -> callback t = NavigateTo p -> p = results_path s)
  /\ (forall p, In p (navigations s) -> p = results_path s).

Definition is_cancel (r : Request) : bool :=
  match r with ReqCancelTakeoff _ => true | _ => false end.

(** Number of pending cancellation requests. *)
Definition cancels (l : list Request) : nat := List.length (filter is_cancel l).

(** [untouched s s']: [s'] is [s] after code that leaves the cancellation
    alone. *)
Definition untouched (s s' : State) : Prop :=
  isCancelling s' = isCancelling s
  /\ cancels (pending s') = cancels (pending s).

(** While a cancellation request is pending the view is cancelling. *)
Definition cancel_ok (s : State) : Prop :=
  (cancels (pending s) <= 1)%nat
  /\ (cancels (pending s) = 1%nat -> isCancelling s = true).

(** A view without a project, with nothing in flight and no timer. *)
Definition idle (s : State) : Prop :=
  truthy (project s) = false
  /\ pending s = []
  /\ timers s = []
  /\ isProcessing s = false.

End Trace.

(** *** More instances for the examples *)

Module Scenarios.

Import View.

(** [JSON.stringify] on the values the examples send. *)
Definition literal_JSON_stringify (v : Value) : string :=
  match v with
  | VNull => "null"
  | VBool true => "true"
  | VBool false => "false"
  | _ => "{}"
  end.

(** The socket of the view of project 42, with the default address. *)
Definition socket : Socket.Connection :=
  Socket.connect (Urls.socket_url None "42").

(** The view of project 7 opened by its address alone: nothing in the
    router state, the project has to be loaded. *)
Definition loading : State := mount "7" VNull.

(** The state of that session after the events [evs]. *)
Definition loading_after (evs : list Event) : State :=
  match Examples.run' loading evs with
  | Some s => s
  | None => loading
  end.

(** The display in the middle of the computer-vision stage. *)
Definition at_cv : Progress :=
  {| stage := VStr "cv"; progress := Fin (101 # 2); message := VStr "Detecting" |}.

(** The poll tick is answered 'completed', and two seconds later the
    navigation is done. *)
Definition completed_and_gone : list Event :=
  Examples.first_tick ++ [Respond 0 Examples.completed; Elapse 2000; TimerFires 3].

End Scenarios.
(* ------------------------------------------------------------------ *)
(** * Properties *)

(** ** Numbers *)

Section EffectFacts.

Variable StringToNumber : string -> Number.
Variable ObjectToNumber : Value -> Number.

Lemma clamp_shape (x : Number) :
  Math_max (Fin 0) (Math_min (Fin 100) x) = NaN /\ x = NaN
  \/ exists q, Math_max (Fin 0) (Math_min (Fin 100) x) = Fin q /\ (0 <= q <= 100)%Q.
Proof.
  destruct x as [| |q|]; cbn.
  - left; split; reflexivity.
  - right; exists 0%Q; split; [reflexivity|lra].
  - right. unfold Math_min, Math_max; cbn.
    destruct (Qle_bool 100 q) eqn:H100; cbn.
    + exists 100%Q; split; [reflexivity|lra].
    + destruct (Qle_bool q 0) eqn:H0; cbn.
      * exists 0%Q; split; [reflexivity|lra].
      * exists q; split; [reflexivity|].
        split.
        -- destruct (Qlt_le_dec q 0) as [Hlt|Hle]; [|exact Hle].
           apply Qlt_le_weak in Hlt. apply Qle_bool_iff in Hlt. congruence.
        -- destruct (Qlt_le_dec 100 q) as [Hlt|Hle]; [|exact Hle].
           apply Qlt_le_weak in Hlt. apply Qle_bool_iff in Hlt. congruence.
  - right; exists 100%Q; split; [reflexivity|lra].
Qed.

Lemma newProgressValue_shape (m : Value) :
  newProgressValue StringToNumber ObjectToNumber m = NaN
  \/ exists q, newProgressValue StringToNumber ObjectToNumber m = Fin q
               /\ (0 <= q <= 100)%Q.
Proof.
  unfold newProgressValue.
  destruct (clamp_shape (ToNumber StringToNumber ObjectToNumber
                           (js_or (member m "progress") (num 0)))) as [[H _]|H].
  - left; exact H.
  - right; exact H.
Qed.

Lemma num_geb_le (a b : Number) :
  num_geb a b = true -> forall x y, a = Fin x -> b = Fin y -> (y <= x)%Q.
Proof.
  intros H x y -> ->. unfold num_geb in H; cbn in H.
  apply negb_true_iff, negb_false_iff in H.
  now apply Qle_bool_iff.
Qed.

Lemma effect_progress_grows (m : Value) (p : Progress) (q : Q) :
  progress p = Fin q ->
  exists q', progress (lastMessage_effect StringToNumber ObjectToNumber m p) = Fin q'
             /\ (q <= q')%Q.
Proof.
  intros Hp. unfold lastMessage_effect.
  destruct (is_progress_message m); [|exists q; split; [exact Hp|lra]].
  unfold progress_updater.
  destruct (num_geb (newProgressValue StringToNumber ObjectToNumber m) (progress p)) eqn:Hge;
    cbn [progress].
  - destruct (newProgressValue_shape m) as [Hnan|[c [Hc _]]].
    + rewrite Hnan in Hge. discriminate Hge.
    + exists c. split; [exact Hc|]. exact (num_geb_le _ _ Hge c q Hc Hp).
  - exists q; split; [exact Hp|lra].
Qed.

Lemma effect_progress_percentage (m : Value) (p : Progress) :
  percentage (progress p) ->
  percentage (progress (lastMessage_effect StringToNumber ObjectToNumber m p)).
Proof.
  intros Hp. unfold lastMessage_effect.
  destruct (is_progress_message m); [|exact Hp].
  unfold progress_updater.
  destruct (num_geb (newProgressValue StringToNumber ObjectToNumber m) (progress p)) eqn:Hge;
    cbn [progress]; [|exact Hp].
  destruct (newProgressValue_shape m) as [Hnan|[c [Hc Hr]]].
  - rewrite Hnan in Hge. discriminate Hge.
  - rewrite Hc. exact Hr.
Qed.

Lemma Number_le_trans (a b c : Number) :
  Number_le a b -> Number_le b c -> Number_le a c.
Proof.
  destruct a, b, c; cbn; try tauto. intros; lra.
Qed.

Lemma displayed_sorted_from (msgs : list Value) :
  forall (p : Progress) (q : Q),
    progress p = Fin q ->
    StronglySorted Number_le
      (Fin q :: displayed StringToNumber ObjectToNumber msgs p).
Proof.
  induction msgs as [|m rest IH]; intros p q Hp.
  - repeat constructor.
  - cbn [displayed progress_states map].
    destruct (effect_progress_grows m p q Hp) as [q' [Hq' Hle]].
    specialize (IH _ _ Hq').
    fold (displayed StringToNumber ObjectToNumber rest
            (lastMessage_effect StringToNumber ObjectToNumber m p)).
    rewrite Hq'.
    constructor; [exact IH|].
    constructor; [exact Hle|].
    apply StronglySorted_inv in IH. destruct IH as [_ Hall].
    eapply Forall_impl; [|exact Hall].
    intros a Ha. eapply Number_le_trans; [|exact Ha]. exact Hle.
Qed.

Lemma displayed_percentage_from (msgs : list Value) :
  forall p : Progress,
    percentage (progress p) ->
    Forall percentage (displayed StringToNumber ObjectToNumber msgs p).
Proof.
  induction msgs as [|m rest IH]; intros p Hp; cbn [displayed progress_states map].
  - constructor.
  - constructor.
    + now apply effect_progress_percentage.
    + apply IH. now apply effect_progress_percentage.
Qed.

(** ** The socket-message effect *)

(** C1. Whatever progress messages the socket delivers, in whatever order,
    the percentages displayed one after the other (from the initial 0) never
    decrease: a message with a lower percentage leaves the displayed maximum
    in place.  Messages carrying 10, 40, 25, 60 display 10, 40, 40, 60. *)
Theorem displayed_progress_never_decreases :
  (forall msgs : list Value,
      StronglySorted Number_le
        (progress initialProgress
           :: displayed StringToNumber ObjectToNumber msgs initialProgress))
  /\ displayed StringToNumber ObjectToNumber
       [packet (VStr "extraction") (num 10) (VStr "Extracting");
        packet (VStr "quantity") (num 40) (VStr "Measuring");
        packet (VStr "extraction") (num 25) (VStr "Extracting");
        packet (VStr "cv") (num 60) (VStr "Detecting")]
       initialProgress
     = [Fin 10; Fin 40; Fin 40; Fin 60].
Proof.
  split.
  - intros msgs. now apply displayed_sorted_from.
  - reflexivity.
Qed.

(** C10. The percentage of a message is clamped into [0, 100] before it is
    compared with the displayed one: a numeric value below 0 becomes 0, one
    above 100 becomes 100, one in between is kept; a missing or falsy
    [progress] field counts as 0; so every displayed percentage lies in
    [0, 100], whatever the socket delivers. *)
Theorem progress_clamped_into_percentage :
  (forall (m : Value) (q : Q),
      truthy (member m "progress") = true ->
      ToNumber StringToNumber ObjectToNumber (member m "progress") = Fin q ->
      exists c : Q,
        newProgressValue StringToNumber ObjectToNumber m = Fin c
        /\ (0 <= c <= 100)%Q
        /\ ((0 <= q <= 100)%Q -> (c == q)%Q)
        /\ ((q < 0)%Q -> c = 0%Q)
        /\ ((100 < q)%Q -> c = 100%Q))
  /\ (forall m : Value,
        truthy (member m "progress") = false ->
        newProgressValue StringToNumber ObjectToNumber m = Fin 0)
  /\ (forall msgs : list Value,
        Forall percentage
          (displayed StringToNumber ObjectToNumber msgs initialProgress)).
Proof.
  split; [|split].
  - intros m q Ht Hq. unfold newProgressValue, js_or. rewrite Ht, Hq.
    unfold Math_min, Math_max; cbn.
    destruct (Qle_bool 100 q) eqn:H100; cbn.
    + apply Qle_bool_iff in H100.
      exists 100%Q. repeat split; intros; try lra; reflexivity.
    + assert (q < 100)%Q as Hlt.
      { destruct (Qlt_le_dec q 100) as [H|H]; [exact H|].
        apply Qle_bool_iff in H. congruence. }
      destruct (Qle_bool q 0) eqn:H0; cbn.
      * apply Qle_bool_iff in H0.
        exists 0%Q. repeat split; intros; try lra; reflexivity.
      * assert (0 < q)%Q as Hpos.
        { destruct (Qlt_le_dec 0 q) as [H|H]; [exact H|].
          apply Qle_bool_iff in H. congruence. }
        exists q. repeat split; intros; try lra; reflexivity.
  - intros m Hf. unfold newProgressValue, js_or. rewrite Hf. reflexivity.
  - intros msgs. apply displayed_percentage_from. cbn. lra.
Qed.

(** C6, as the code has it.  For every progress message the displayed stage
    and message text are those of the newest packet when the packet provides
    them (a truthy field), and the previous ones when the field is missing or
    empty (the text falling back to 'Processing...' when there is none at
    all); in both cases this holds whether the percentage of the packet is
    accepted or discarded. *)
Theorem stage_and_message_follow_newest_packet (m : Value) (prev : Progress) :
  is_progress_message m = true ->
  let shown := lastMessage_effect StringToNumber ObjectToNumber m prev in
  (truthy (member m "stage") = true -> stage shown = member m "stage")
  /\ (truthy (member m "stage") = false -> stage shown = stage prev)
  /\ (truthy (member m "message") = true -> message shown = member m "message")
  /\ (truthy (member m "message") = false ->
      message shown = js_or (message prev) (VStr "Processing...")).
Proof.
  intros Hm shown. subst shown. unfold lastMessage_effect. rewrite Hm.
  unfold progress_updater.
  destruct (num_geb _ _); cbn [stage message]; unfold js_or;
    (repeat split; intros H; rewrite ?H; reflexivity).
Qed.

End EffectFacts.

(** Messages 10 and 40 are accepted, 150 is clamped to 100. *)
Lemma progress_clamped_into_percentage_witness :
  exists c : Q,
    newProgressValue Examples.decimal_StringToNumber Examples.plain_ObjectToNumber
      (packet (VStr "cv") (num 150) (VStr "Detecting")) = Fin c
    /\ (0 <= c <= 100)%Q.
Proof.
  destruct (proj1 (progress_clamped_into_percentage
                     Examples.decimal_StringToNumber Examples.plain_ObjectToNumber)
              (packet (VStr "cv") (num 150) (VStr "Detecting")) 150%Q
              eq_refl eq_refl) as [c [Hc [Hr _]]].
  exists c. split; [exact Hc|exact Hr].
Defined.

(** A packet whose percentage is discarded still changes stage and text. *)
Lemma stage_and_message_follow_newest_packet_witness :
  let prev := {| stage := VStr "quantity"; progress := Fin 40;
                 message := VStr "Measuring" |} in
  let m := packet (VStr "extraction") (num 25) (VStr "Extracting") in
  is_progress_message m = true
  /\ progress (Examples.effect' m prev) = Fin 40
  /\ stage (Examples.effect' m prev) = VStr "extraction"
  /\ message (Examples.effect' m prev) = VStr "Extracting".
Proof.
  intros prev m.
  pose proof (stage_and_message_follow_newest_packet
                Examples.decimal_StringToNumber Examples.plain_ObjectToNumber
                m prev eq_refl) as [Hs [_ [Hm _]]].
  split; [reflexivity|]. split; [reflexivity|].
  split; [exact (Hs eq_refl)|exact (Hm eq_refl)].
Defined.

(** C6 as stated fails: a progress packet whose stage and text are empty
    strings leaves the previous stage and text on display. *)
Lemma empty_stage_and_message_not_displayed :
  let m := packet (VStr "") (num 25) (VStr "") in
  is_progress_message m = true
  /\ stage (Examples.effect' m initialProgress) = VStr "upload"
  /\ stage (Examples.effect' m initialProgress) <> member m "stage"
  /\ message (Examples.effect' m initialProgress) = VStr "Initializing..."
  /\ message (Examples.effect' m initialProgress) <> member m "message".
Proof.
  cbv. repeat split; discriminate.
Qed.

(* ------------------------------------------------------------------ *)
(** ** The event loop of the processing view *)

Import View.

(** *** Lists *)

Lemma nth_error_remove_nth {A : Type} (l : list A) :
  forall (n : nat) (r : A),
    nth_error l n = Some r ->
    exists l1 l2, l = l1 ++ r :: l2 /\ remove_nth n l = l1 ++ l2.
Proof.
  induction l as [|x l IH]; intros [|n] r H; cbn in H; try discriminate.
  - injection H as ->. exists [], l. split; reflexivity.
  - destruct (IH n r H) as [l1 [l2 [E1 E2]]].
    exists (x :: l1), l2. cbn. rewrite <- E1, E2. split; reflexivity.
Qed.

Lemma NoDup_map_filter {A B : Type} (f : A -> B) (g : A -> bool) (l : list A) :
  NoDup (map f l) -> NoDup (map f (filter g l)).
Proof.
  induction l as [|x l IH]; cbn; intros H; [constructor|].
  inversion H as [|? ? Hnotin Hnd]; subst.
  destruct (g x); cbn; [|now apply IH].
  constructor; [|now apply IH].
  intros Hin. apply Hnotin.
  apply in_map_iff in Hin. destruct Hin as [y [Ey Hy]].
  apply filter_In in Hy. apply in_map_iff. exists y. tauto.
Qed.

Lemma Forall_filter_keep {A : Type} (P : A -> Prop) (g : A -> bool) (l : list A) :
  Forall P l -> Forall P (filter g l).
Proof.
  intros H. apply Forall_forall. intros x Hx.
  apply filter_In in Hx. rewrite Forall_forall in H. now apply H.
Qed.

Lemma existsb_false_forall {A : Type} (f : A -> bool) (l : list A) :
  existsb f l = false <-> forall x, In x l -> f x = false.
Proof.
  split.
  - intros H x Hx. destruct (f x) eqn:E; [|reflexivity].
    assert (existsb f l = true) by (apply existsb_exists; eauto). congruence.
  - intros H. destruct (existsb f l) eqn:E; [|reflexivity].
    apply existsb_exists in E. destruct E as [x [Hx Hf]].
    rewrite (H x Hx) in Hf. discriminate.
Qed.

(** *** Timers *)

Lemma timers_ok_ext (s s' : State) :
  now s' = now s -> pollingIntervalRef s' = pollingIntervalRef s ->
  next_timer s' = next_timer s -> timers s' = timers s ->
  timers_ok s -> timers_ok s'.
Proof.
  unfold timers_ok. intros -> -> -> ->. tauto.
Qed.

Lemma timer_ok_next (clock : Z) (ref : option nat) (n m : nat) (t : Timer) :
  (n <= m)%nat -> timer_ok clock ref n t -> timer_ok clock ref m t.
Proof.
  unfold timer_ok. intros Hnm (H1 & H2 & H3 & H4 & H5).
  repeat split; try tauto; try lia; apply H3; assumption.
Qed.

Lemma polling_false_iff (s : State) :
  polling s = false <-> forall t, In t (timers s) -> is_poll t = false.
Proof. apply existsb_false_forall. Qed.

Lemma timers_ok_no_ref_no_polling (s : State) :
  timers_ok s -> ref_truthy s = false -> polling s = false.
Proof.
  intros (Hall & _) Href. apply polling_false_iff. intros t Ht.
  rewrite Forall_forall in Hall. destruct (Hall t Ht) as (_ & _ & Hp & _).
  destruct (is_poll t); [|reflexivity].
  destruct (Hp eq_refl) as [E Hnz]. unfold ref_truthy in Href. rewrite E in Href.
  apply negb_false_iff, Nat.eqb_eq in Href. contradiction.
Qed.

Lemma clearInterval_ref_timers (s : State) :
  timers_ok s -> timers (clearInterval_ref s) = filter not_poll (timers s).
Proof.
  intros (Hall & _). unfold clearInterval_ref.
  rewrite Forall_forall in Hall.
  destruct (pollingIntervalRef s) as [i|] eqn:Hr.
  - cbn. apply filter_ext_in. intros t Ht.
    destruct (Hall t Ht) as (_ & _ & Hp & Hn & _). unfold not_poll.
    destruct (is_poll t).
    + destruct (Hp eq_refl) as [E _]. injection E as ->.
      now rewrite Nat.eqb_refl.
    + destruct (Nat.eqb (tid t) i) eqn:E; [|reflexivity].
      apply Nat.eqb_eq in E. subst i. now destruct (Hn eq_refl).
  - symmetry. apply forallb_filter_id. apply forallb_forall. intros t Ht.
    destruct (Hall t Ht) as (_ & _ & Hp & _). unfold not_poll.
    destruct (is_poll t); [|reflexivity].
    destruct (Hp eq_refl) as [E _]. discriminate E.
Qed.

Lemma filter_not_poll_no_polling (l : list Timer) :
  existsb is_poll (filter not_poll l) = false.
Proof.
  apply existsb_false_forall. intros t Ht. apply filter_In in Ht.
  destruct Ht as [_ Ht]. unfold not_poll in Ht. now apply negb_true_iff in Ht.
Qed.

Lemma clearInterval_ref_stops (s : State) :
  timers_ok s -> polling (clearInterval_ref s) = false.
Proof.
  intros H. unfold polling. rewrite (clearInterval_ref_timers s H).
  apply filter_not_poll_no_polling.
Qed.

Lemma timers_ok_new_timer (cb : Callback) (delay : Z) (s : State) :
  (0 <= delay)%Z ->
  cb <> PollTick ->
  timers_ok s -> timers_ok (new_timer None cb delay s).
Proof.
  intros Hd Hcb (Hall & Hnd & Href & Hone).
  unfold timers_ok, new_timer; cbn.
  assert (forall t, In t (timers s) -> (tid t < next_timer s)%nat) as Hlt.
  { intros t Ht. rewrite Forall_forall in Hall. now destruct (Hall t Ht) as (_ & H & _). }
  repeat split.
  - apply Forall_app. split.
    + eapply Forall_impl; [|exact Hall]. intros t. apply timer_ok_next. lia.
    + constructor; [|constructor]. unfold timer_ok; cbn [tid due period callback].
      split; [lia|]. split; [lia|].
      split; [intros H; unfold is_poll in H; cbn in H; destruct cb; congruence|].
      split; [intros _ E; apply Href in E; lia|].
      unfold is_poll; cbn. destruct cb; congruence.
  - rewrite map_app. cbn. apply NoDup_app; [exact Hnd|repeat constructor; intros []|].
    intros x Hx [Hin|[]]. subst x.
    apply in_map_iff in Hx. destruct Hx as [t [E Ht]]. apply Hlt in Ht. lia.
  - intros i Hi. apply Href in Hi. lia.
  - lia.
Qed.

Lemma timers_ok_clearInterval (i : nat) (s : State) :
  timers_ok s -> timers_ok (clearInterval i s).
Proof.
  intros (Hall & Hnd & Href & Hone). unfold timers_ok, clearInterval; cbn.
  repeat split; try assumption.
  - now apply Forall_filter_keep.
  - now apply NoDup_map_filter.
Qed.

Lemma timers_ok_clearInterval_ref (s : State) :
  timers_ok s -> timers_ok (clearInterval_ref s).
Proof.
  intros H. unfold clearInterval_ref.
  destruct (pollingIntervalRef s); [now apply timers_ok_clearInterval|exact H].
Qed.

Lemma timers_ok_clear_if_polling (s : State) :
  timers_ok s -> timers_ok (clear_if_polling s).
Proof.
  intros H. unfold clear_if_polling.
  destruct (ref_truthy s); [now apply timers_ok_clearInterval_ref|exact H].
Qed.

Lemma clear_if_polling_timers (s : State) :
  timers_ok s -> timers (clear_if_polling s) = filter not_poll (timers s).
Proof.
  intros H. unfold clear_if_polling. destruct (ref_truthy s) eqn:Hr.
  - now apply clearInterval_ref_timers.
  - symmetry. apply forallb_filter_id. apply forallb_forall. intros t Ht.
    pose proof (timers_ok_no_ref_no_polling s H Hr) as Hp.
    rewrite polling_false_iff in Hp. unfold not_poll. now rewrite (Hp t Ht).
Qed.

Lemma timers_ok_forget_ref (s : State) :
  timers_ok s -> polling s = false -> timers_ok (with_pollingIntervalRef None s).
Proof.
  intros (Hall & Hnd & Href & Hone) Hp. unfold timers_ok; cbn.
  repeat split; try assumption; [|discriminate].
  rewrite polling_false_iff in Hp.
  apply Forall_forall. intros t Ht. rewrite Forall_forall in Hall.
  destruct (Hall t Ht) as (H1 & H2 & H3 & H4 & H5).
  unfold timer_ok. repeat split; try assumption; try discriminate;
    rewrite (Hp t Ht) in *; discriminate.
Qed.

Lemma timers_ok_pollForCompletion (s : State) :
  timers_ok s -> polling s = false -> timers_ok (pollForCompletion s).
Proof.
  intros (Hall & Hnd & Href & Hone) Hp. unfold pollForCompletion.
  apply timers_ok_new_timer; try lia; try discriminate.
  rewrite polling_false_iff in Hp.
  assert (forall t, In t (timers s) -> (tid t < next_timer s)%nat) as Hlt.
  { intros t Ht. rewrite Forall_forall in Hall. now destruct (Hall t Ht) as (_ & H & _). }
  unfold timers_ok, setInterval, new_timer; cbn. repeat split.
  - apply Forall_app. split.
    + apply Forall_forall. intros t Ht. rewrite Forall_forall in Hall.
      destruct (Hall t Ht) as (H1 & H2 & H3 & H4 & H5).
      unfold timer_ok. split; [exact H1|]. split; [lia|].
      split; [rewrite (Hp t Ht); discriminate|].
      split; [|exact H5].
      intros _ E. injection E as E. lia.
    + constructor; [|constructor]. unfold timer_ok; cbn [tid due period callback].
      split; [lia|]. split; [lia|].
      split; [intros _; split; [reflexivity|lia]|].
      split; [intros H; unfold is_poll in H; cbn in H; discriminate|].
      reflexivity.
  - rewrite map_app. cbn. apply NoDup_app; [exact Hnd|repeat constructor; intros []|].
    intros x Hx [Hin|[]]. subst x.
    apply in_map_iff in Hx. destruct Hx as [t [E Ht]]. apply Hlt in Ht. lia.
  - intros i E. injection E as <-. lia.
  - lia.
Qed.

Lemma find_timer_In (i : nat) (s : State) (t : Timer) :
  find_timer i s = Some t -> In t (timers s) /\ tid t = i.
Proof.
  unfold find_timer. intros H. apply find_some in H.
  destruct H as [Hin E]. apply Nat.eqb_eq in E. tauto.
Qed.

Lemma timers_ok_rearm (t : Timer) (s : State) :
  In t (timers s) -> timers_ok s -> timers_ok (rearm t s).
Proof.
  intros Ht H. unfold rearm.
  destruct (period t) as [p|] eqn:Hper; [|now apply timers_ok_clearInterval].
  destruct H as (Hall & Hnd & Href & Hone).
  assert (0 <= p)%Z as Hp.
  { rewrite Forall_forall in Hall. destruct (Hall t Ht) as (_ & _ & _ & _ & H5).
    rewrite Hper in H5. destruct (is_poll t); [|discriminate H5].
    injection H5 as ->. lia. }
  unfold timers_ok; cbn. repeat split; try assumption.
  - apply Forall_map. eapply Forall_impl; [|exact Hall].
    intros u (H1 & H2 & H3 & H4 & H5).
    destruct (Nat.eqb (tid u) (tid t)); [|unfold timer_ok; tauto].
    unfold timer_ok, is_poll in *; cbn. repeat split; try tauto; try lia;
      apply H3; assumption.
  - rewrite map_map.
    erewrite map_ext; [exact Hnd|].
    intros u. cbn. now destruct (Nat.eqb (tid u) (tid t)).
Qed.

Lemma timers_ok_elapse (dt : Z) (s : State) :
  (0 <=? dt)%Z && forallb (fun t => (now s + dt <=? due t)%Z) (timers s) = true ->
  timers_ok s -> timers_ok (with_now (now s + dt) s).
Proof.
  intros Hg (Hall & Hnd & Href & Hone).
  apply andb_true_iff in Hg. destruct Hg as [_ Hg].
  rewrite forallb_forall in Hg.
  unfold timers_ok; cbn. repeat split; try assumption.
  apply Forall_forall. intros t Ht. rewrite Forall_forall in Hall.
  destruct (Hall t Ht) as (H1 & H2 & H3 & H4 & H5).
  specialize (Hg t Ht). apply Z.leb_le in Hg.
  unfold timer_ok. tauto.
Qed.

(** The React setters, the console, the pending promises and the
    navigation log do not touch the timers. *)
Ltac same_timers :=
  intros; eapply timers_ok_ext; [| | | |eassumption];
  unfold setProject, setProgress, setIsProcessing, setIsCancelling, setError,
    console_write, request;
  try match goal with |- context [mounted ?s] => destruct (mounted s) end;
  reflexivity.

Lemma timers_ok_setProject v s : timers_ok s -> timers_ok (setProject v s).
Proof. same_timers. Qed.

Lemma timers_ok_setProgress f s : timers_ok s -> timers_ok (setProgress f s).
Proof. same_timers. Qed.

Lemma timers_ok_setIsProcessing b s : timers_ok s -> timers_ok (setIsProcessing b s).
Proof. same_timers. Qed.

Lemma timers_ok_setIsCancelling b s : timers_ok s -> timers_ok (setIsCancelling b s).
Proof. same_timers. Qed.

Lemma timers_ok_setError v s : timers_ok s -> timers_ok (setError v s).
Proof. same_timers. Qed.

Lemma timers_ok_console_write e s : timers_ok s -> timers_ok (console_write e s).
Proof. same_timers. Qed.

Lemma timers_ok_request r s : timers_ok s -> timers_ok (request r s).
Proof. same_timers. Qed.

Lemma timers_ok_with_pending l s : timers_ok s -> timers_ok (with_pending l s).
Proof. same_timers. Qed.

Lemma timers_ok_with_navigations l s : timers_ok s -> timers_ok (with_navigations l s).
Proof. same_timers. Qed.

Lemma timers_ok_with_mounted b s : timers_ok s -> timers_ok (with_mounted b s).
Proof. same_timers. Qed.

Lemma timers_ok_navigate_later s : timers_ok s -> timers_ok (navigate_later s).
Proof.
  intros H. unfold navigate_later, setTimeout.
  apply timers_ok_new_timer; try lia; try discriminate. exact H.
Qed.

Create HintDb timers.

#[local] Hint Resolve timers_ok_setProject timers_ok_setProgress
  timers_ok_setIsProcessing timers_ok_setIsCancelling timers_ok_setError
  timers_ok_console_write timers_ok_request timers_ok_with_pending
  timers_ok_with_navigations timers_ok_with_mounted timers_ok_navigate_later
  timers_ok_clearInterval_ref timers_ok_clear_if_polling timers_ok_clearInterval
  : timers.

Lemma timers_ok_stop_and_navigate s : timers_ok s -> timers_ok (stop_and_navigate s).
Proof. unfold stop_and_navigate. auto with timers. Qed.

Lemma timers_ok_stop_with_error st s : timers_ok s -> timers_ok (stop_with_error st s).
Proof. unfold stop_with_error. auto with timers. Qed.

Lemma timers_ok_unmount s : timers_ok s -> timers_ok (unmount s).
Proof. unfold unmount. destruct (mounted s); auto with timers. Qed.

#[local] Hint Resolve timers_ok_stop_and_navigate timers_ok_stop_with_error
  timers_ok_unmount : timers.

Lemma timers_ok_startProcessing s : timers_ok s -> timers_ok (startProcessing s).
Proof. unfold startProcessing. destruct (negb _); auto with timers. Qed.

Lemma timers_ok_project_effects s : timers_ok s -> timers_ok (project_effects s).
Proof.
  intros H. unfold project_effects.
  destruct (negb (truthy (project s)) && _);
    match goal with |- context [if ?b then _ else _] => destruct b end;
    auto using timers_ok_startProcessing with timers.
Qed.

Lemma timers_ok_resume (r : Request) (o : Outcome) (s : State) :
  timers_ok s ->
  (is_start r = true -> polling s = false) ->
  timers_ok (resume r o s).
Proof.
  intros H Hstart. destruct r, o; cbn [resume].
  - unfold then_loadProject.
    destruct (mounted s && _); auto using timers_ok_project_effects with timers.
  - unfold then_loadProject. auto with timers.
  - cbn. apply timers_ok_pollForCompletion; auto.
  - cbn. auto with timers.
  - cbn. unfold on_project_status.
    repeat match goal with |- context [if ?b then _ else _] => destruct b end;
      auto with timers.
  - cbn. auto with timers.
  - cbn. unfold on_takeoff_status, both_failed.
    destruct (get v "status");
    repeat match goal with |- context [if ?b then _ else _] => destruct b end;
      auto with timers.
  - cbn. unfold both_failed. auto with timers.
  - cbn. apply timers_ok_navigate_later, timers_ok_setProgress, timers_ok_setIsProcessing.
    destruct (ref_truthy s) eqn:Hr; [|exact H].
    apply timers_ok_forget_ref; [auto with timers|].
    now apply clearInterval_ref_stops.
  - cbn. auto with timers.
Qed.

Lemma starts_app (l1 l2 : list Request) :
  starts (l1 ++ l2) = (starts l1 + starts l2)%nat.
Proof. unfold starts. now rewrite filter_app, length_app. Qed.

Lemma polling_filter (g : Timer -> bool) (l : list Timer) :
  existsb is_poll l = false -> existsb is_poll (filter g l) = false.
Proof.
  rewrite !existsb_false_forall. intros H t Ht. apply filter_In in Ht. now apply H.
Qed.

Ltac project_fields :=
  cbn [id now mounted project progressState isProcessing isCancelling error
       pollingIntervalRef timers next_timer pending navigations console
       with_now with_mounted with_project with_progressState with_isProcessing
       with_isCancelling with_error with_pollingIntervalRef with_timers
       with_next_timer with_pending with_navigations with_console] in *.

(** *** Code that settles *)

Lemma settles_refl (s : State) : settles s s.
Proof.
  unfold settles. split; [reflexivity|]. split.
  - exists []. now rewrite app_nil_r.
  - split; eauto.
Qed.

Lemma settles_trans (s1 s2 s3 : State) :
  settles s1 s2 -> settles s2 s3 -> settles s1 s3.
Proof.
  intros (P1 & (x1 & E1 & L1) & N1 & K1) (P2 & (x2 & E2 & L2) & N2 & K2).
  unfold settles. split; [congruence|]. split.
  - exists (x1 ++ x2). rewrite E2, E1, app_assoc. split; [reflexivity|].
    rewrite forallb_app, L1, L2. reflexivity.
  - split.
    + intros t Ht Hp. destruct (N2 t Ht Hp) as [u [Hu Hpu]]. eauto.
    + intros t Ht Hp. auto.
Qed.

Lemma settles_frame (s s' : State) :
  project s' = project s -> pending s' = pending s -> timers s' = timers s ->
  settles s s'.
Proof.
  intros E1 E2 E3. unfold settles. rewrite E1, E2, E3.
  split; [reflexivity|]. split.
  - exists []. now rewrite app_nil_r.
  - split; eauto.
Qed.

Lemma settles_polling (s s' : State) :
  settles s s' -> polling s = false -> polling s' = false.
Proof.
  intros (_ & _ & N & _) Hp. rewrite polling_false_iff in *.
  intros t Ht. destruct (is_poll t) eqn:E; [|reflexivity].
  destruct (N t Ht E) as [u [Hu Hpu]]. rewrite (Hp u Hu) in Hpu. discriminate.
Qed.

Ltac frame_setter :=
  intros; eapply settles_trans; [eassumption|];
  apply settles_frame;
  unfold setProgress, setIsProcessing, setIsCancelling, setError, console_write;
  try match goal with |- context [mounted ?s] => destruct (mounted s) end;
  reflexivity.

Lemma settles_setProgress f s s1 : settles s s1 -> settles s (setProgress f s1).
Proof. frame_setter. Qed.

Lemma settles_setIsProcessing b s s1 : settles s s1 -> settles s (setIsProcessing b s1).
Proof. frame_setter. Qed.

Lemma settles_setIsCancelling b s s1 : settles s s1 -> settles s (setIsCancelling b s1).
Proof. frame_setter. Qed.

Lemma settles_setError v s s1 : settles s s1 -> settles s (setError v s1).
Proof. frame_setter. Qed.

Lemma settles_console_write e s s1 : settles s s1 -> settles s (console_write e s1).
Proof. frame_setter. Qed.

Lemma settles_with_navigations l s s1 : settles s s1 -> settles s (with_navigations l s1).
Proof. frame_setter. Qed.

Lemma settles_with_mounted b s s1 : settles s s1 -> settles s (with_mounted b s1).
Proof. frame_setter. Qed.

Lemma settles_with_now z s s1 : settles s s1 -> settles s (with_now z s1).
Proof. frame_setter. Qed.

Lemma settles_with_ref r s s1 : settles s s1 -> settles s (with_pollingIntervalRef r s1).
Proof. frame_setter. Qed.

Lemma settles_request r s s1 :
  is_late r = true -> settles s s1 -> settles s (request r s1).
Proof.
  intros Hr H. eapply settles_trans; [exact H|].
  unfold settles, request; cbn. split; [reflexivity|]. split.
  - exists [r]. split; [reflexivity|]. cbn. now rewrite Hr.
  - split; eauto.
Qed.

Lemma settles_new_timer p cb delay s s1 :
  cb <> PollTick -> settles s s1 -> settles s (new_timer p cb delay s1).
Proof.
  intros Hcb H. eapply settles_trans; [exact H|].
  unfold settles, new_timer; cbn. split; [reflexivity|]. split.
  - exists []. now rewrite app_nil_r.
  - split.
    + intros t Ht Hp. apply in_app_iff in Ht. destruct Ht as [Ht|[<-|[]]]; [eauto|].
      unfold is_poll in Hp; cbn in Hp. destruct cb; congruence.
    + intros t Ht _. apply in_app_iff. now left.
Qed.

Lemma settles_navigate_later s s1 : settles s s1 -> settles s (navigate_later s1).
Proof. intros H. unfold navigate_later, setTimeout. now apply settles_new_timer. Qed.

Lemma settles_filter_not_poll (s s' : State) :
  project s' = project s -> pending s' = pending s ->
  timers s' = filter not_poll (timers s) ->
  settles s s'.
Proof.
  intros E1 E2 E3. unfold settles. rewrite E1, E2, E3.
  split; [reflexivity|]. split.
  - exists []. now rewrite app_nil_r.
  - split.
    + intros t Ht Hp. apply filter_In in Ht. eauto.
      destruct Ht as [_ Ht]. unfold not_poll in Ht. rewrite Hp in Ht. discriminate.
    + intros t Ht Hp. apply filter_In. unfold not_poll. now rewrite Hp.
Qed.

Lemma settles_clearInterval_ref s s1 :
  timers_ok s1 -> settles s s1 -> settles s (clearInterval_ref s1).
Proof.
  intros Hok H. eapply settles_trans; [exact H|].
  apply settles_filter_not_poll;
    [| |now apply clearInterval_ref_timers];
    unfold clearInterval_ref; destruct (pollingIntervalRef s1); reflexivity.
Qed.

Lemma settles_clear_if_polling s s1 :
  timers_ok s1 -> settles s s1 -> settles s (clear_if_polling s1).
Proof.
  intros Hok H. eapply settles_trans; [exact H|].
  apply settles_filter_not_poll;
    [| |now apply clear_if_polling_timers];
    unfold clear_if_polling, clearInterval_ref;
    destruct (ref_truthy s1); destruct (pollingIntervalRef s1); reflexivity.
Qed.

Create HintDb settle.

#[local] Hint Resolve settles_refl settles_setProgress settles_setIsProcessing
  settles_setIsCancelling settles_setError settles_console_write
  settles_with_navigations settles_with_mounted settles_with_now settles_with_ref
  settles_request settles_navigate_later settles_clearInterval_ref
  settles_clear_if_polling : settle.

Lemma settles_stop_and_navigate s :
  timers_ok s -> settles s (stop_and_navigate s).
Proof. intros H. unfold stop_and_navigate. auto with settle. Qed.

Lemma settles_stop_with_error st s :
  timers_ok s -> settles s (stop_with_error st s).
Proof. intros H. unfold stop_with_error. auto with settle. Qed.

Lemma settles_unmount s : timers_ok s -> settles s (unmount s).
Proof. intros H. unfold unmount. destruct (mounted s); auto with settle. Qed.

Lemma settles_run_callback cb s : timers_ok s -> settles s (run_callback cb s).
Proof.
  intros H. destruct cb; cbn [run_callback]; auto with settle.
  eapply settles_trans; [|apply settles_unmount; auto with timers].
  auto with settle.
Qed.

Lemma settles_handleCancel c s : settles s (handleCancel c s).
Proof.
  unfold handleCancel.
  repeat match goal with |- context [if ?b then _ else _] => destruct b end;
    auto with settle.
Qed.


Lemma settles_resume (r : Request) (o : Outcome) (s : State) :
  timers_ok s -> moves_on r o = false -> settles s (resume r o s).
Proof.
  intros H Hm. destruct r, o; try discriminate Hm; cbn [resume].
  - unfold then_loadProject. auto with settle.
  - cbn. auto with settle.
  - cbn. unfold on_project_status.
    repeat match goal with |- context [if ?b then _ else _] => destruct b end;
      auto using settles_stop_and_navigate, settles_stop_with_error with settle.
  - cbn. auto with settle.
  - cbn. unfold on_takeoff_status, both_failed.
    destruct (get v "status");
    repeat match goal with |- context [if ?b then _ else _] => destruct b end;
      auto using settles_stop_and_navigate, settles_stop_with_error with settle.
  - cbn. unfold both_failed. auto with settle.
  - cbn. destruct (ref_truthy s); auto 6 with settle.
  - cbn. auto with settle.
Qed.

Lemma rearm_frame (t : Timer) (s : State) :
  project (rearm t s) = project s /\ pending (rearm t s) = pending s
  /\ mounted (rearm t s) = mounted s /\ isProcessing (rearm t s) = isProcessing s
  /\ navigations (rearm t s) = navigations s /\ now (rearm t s) = now s.
Proof. unfold rearm, clearInterval. destruct (period t); cbn; tauto. Qed.

Lemma rearm_polling (t : Timer) (s : State) :
  polling s = false -> polling (rearm t s) = false.
Proof.
  unfold rearm, clearInterval, polling. destruct (period t); cbn.
  - rewrite !existsb_false_forall. intros H u Hu.
    apply in_map_iff in Hu. destruct Hu as [w [<- Hw]].
    specialize (H w Hw). destruct (Nat.eqb (tid w) (tid t)); exact H.
  - apply polling_filter.
Qed.

Lemma rearm_keeps (t u : Timer) (s : State) :
  In u (timers s) -> tid u <> tid t -> In u (timers (rearm t s)).
Proof.
  intros Hu Hne. unfold rearm, clearInterval. destruct (period t); cbn.
  - apply in_map_iff. exists u. split; [|exact Hu].
    apply Nat.eqb_neq in Hne. now rewrite Hne.
  - apply filter_In. split; [exact Hu|]. apply Nat.eqb_neq in Hne. now rewrite Hne.
Qed.

Lemma phase_ok_calm (s s' : State) :
  truthy (project s) = true ->
  phase_ok s ->
  project s' = project s ->
  (exists extra, pending s' = pending s ++ extra /\ forallb is_late extra = true) ->
  (polling s = false -> polling s' = false) ->
  phase_ok s'.
Proof.
  unfold phase_ok. intros Hp H E1 (extra & E2 & Hl) Hpoll.
  rewrite E1, E2, Hp. rewrite Hp in H. destruct H as (Hload & Hle & Hone).
  assert (starts extra = 0%nat /\ forallb (fun r => negb (is_load r)) extra = true) as [Hs0 Hnl].
  { clear E2. induction extra as [|r extra IH]; [split; reflexivity|].
    cbn in Hl. apply andb_true_iff in Hl. destruct Hl as [Hr Hl].
    destruct (IH Hl) as [IH1 IH2]. unfold is_late in Hr.
    apply andb_true_iff in Hr. destruct Hr as [Hr1 Hr2].
    split.
    - unfold starts in *. cbn. apply negb_true_iff in Hr2. now rewrite Hr2.
    - cbn. now rewrite Hr1. }
  rewrite forallb_app, starts_app, Hload, Hnl, Hs0, Nat.add_0_r.
  split; [reflexivity|]. split; [exact Hle|]. intros H1. auto.
Qed.

Lemma phase_ok_settles (s s' : State) :
  truthy (project s) = true -> phase_ok s -> settles s s' -> phase_ok s'.
Proof.
  intros Hp H Hs. pose proof (settles_polling _ _ Hs) as Hpoll.
  destruct Hs as (E1 & E2 & _). eapply phase_ok_calm; eauto.
Qed.

Lemma started_settles (s s' : State) :
  started s -> settles s s' -> started s'.
Proof.
  intros [Hp Hl] (E1 & (extra & E2 & Hx) & _). unfold started.
  rewrite E1, E2, forallb_app, Hl, Hx. auto.
Qed.

Lemma phase_falsy_idle (s : State) :
  phase_ok s -> truthy (project s) = false ->
  (pending s = [] \/ pending s = [ReqLoadProject])
  /\ timers s = [] /\ isProcessing s = false.
Proof. unfold phase_ok. intros H E. now rewrite E in H. Qed.

Lemma phase_ok_load (o : Outcome) (s : State) :
  truthy (project s) = false -> timers s = [] -> isProcessing s = false ->
  pending s = [] ->
  phase_ok (resume ReqLoadProject o s).
Proof.
  intros Hp Ht Hi Hpend. destruct s; cbn in Hp, Ht, Hi, Hpend; subst.
  assert (forall m pr ic er nv co,
             phase_ok (mkState id0 now0 m project0 pr false ic er
                         pollingIntervalRef0 [] next_timer0 [] nv co)) as Hsame.
  { intros. unfold phase_ok; cbn. rewrite Hp. auto. }
  destruct o; cbn [resume]; unfold then_loadProject; cbn [mounted project].
  - destruct mounted0; cbn [andb]; [|apply Hsame; assumption].
    destruct (negb (same_value v project0)); [|apply Hsame; assumption].
    unfold project_effects, setProject, request. project_fields.
    destruct (truthy v) eqn:Hv; cbn [negb andb].
    + project_fields. rewrite Hv. cbn [negb andb].
      unfold startProcessing, setError, setIsProcessing, request. project_fields.
      rewrite Hv. cbn [negb]. project_fields.
      unfold phase_ok, polling. project_fields. rewrite Hv. cbn. auto.
    + destruct (negb (String.eqb id0 "")); project_fields; rewrite Hv; cbn [andb];
        unfold phase_ok; project_fields; rewrite Hv; auto.
  - unfold console_write, setError.
    destruct mounted0; project_fields; apply Hsame; assumption.
Qed.

Lemma phase_ok_ext (s s' : State) :
  project s' = project s -> pending s' = pending s -> timers s' = timers s ->
  isProcessing s' = isProcessing s -> phase_ok s -> phase_ok s'.
Proof. unfold phase_ok, polling. intros -> -> -> ->. tauto. Qed.

Lemma timers_ok_run_callback (cb : Callback) (s : State) :
  timers_ok s -> timers_ok (run_callback cb s).
Proof. intros H. destruct cb; cbn [run_callback]; auto with timers. Qed.

Lemma timers_ok_handleCancel (c : bool) (s : State) :
  timers_ok s -> timers_ok (handleCancel c s).
Proof.
  intros H. unfold handleCancel.
  repeat match goal with |- context [if ?b then _ else _] => destruct b end;
    auto with timers.
Qed.

(** *** The invariant holds throughout a session *)

Lemma invariant_mount (id0 : string) (state_project : Value) :
  invariant (mount id0 state_project).
Proof.
  split.
  - unfold mount. apply timers_ok_project_effects.
    unfold timers_ok; cbn. repeat split; try constructor; try discriminate.
  - unfold mount, project_effects, startProcessing, setError, setIsProcessing,
      request. project_fields.
    destruct (truthy (js_or state_project VNull)) eqn:Hv; cbn [negb andb];
      project_fields; rewrite ?Hv; cbn [negb andb]; project_fields.
    + unfold phase_ok, polling. project_fields. rewrite Hv. cbn. auto.
    + destruct (negb (String.eqb id0 "")); project_fields; rewrite Hv; cbn [andb];
        unfold phase_ok; project_fields; rewrite Hv; auto.
Qed.

Section Session.

Variable StringToNumber : string -> Number.
Variable ObjectToNumber : Value -> Number.

Lemma invariant_step (s s' : State) (e : Event) :
  invariant s -> step StringToNumber ObjectToNumber s e = Some s' -> invariant s'.
Proof.
  intros [Ht Hph] Hstep. destruct e as [dt|i|n o|c|m|]; cbn [step] in Hstep.
  - (* time passes *)
    destruct (_ && _) eqn:Hg in Hstep; [|discriminate]. injection Hstep as <-.
    split; [now apply timers_ok_elapse|].
    eapply phase_ok_ext; [| | | |exact Hph]; reflexivity.
  - (* a timer fires *)
    destruct (find_timer i s) as [t|] eqn:Hf; [|discriminate].
    destruct (due t <=? now s)%Z; [|discriminate]. injection Hstep as <-.
    destruct (find_timer_In _ _ _ Hf) as [Hin _].
    assert (timers_ok (rearm t s)) as Hr by now apply timers_ok_rearm.
    split; [now apply timers_ok_run_callback|].
    destruct (truthy (project s)) eqn:Hp.
    + pose proof (settles_run_callback (callback t) _ Hr) as Hs.
      destruct (rearm_frame t s) as (E1 & E2 & _).
      eapply phase_ok_calm; [exact Hp|exact Hph| | |].
      * destruct Hs as (E & _). congruence.
      * destruct Hs as (_ & (x & E & Hx) & _). exists x. rewrite E, E2. auto.
      * intros Hpoll. eapply settles_polling; [exact Hs|]. now apply rearm_polling.
    + destruct (phase_falsy_idle _ Hph Hp) as (_ & Hnil & _).
      rewrite Hnil in Hin. destruct Hin.
  - (* a promise settles *)
    destruct (nth_error (pending s) n) as [r|] eqn:Hn; [|discriminate].
    injection Hstep as <-.
    destruct (nth_error_remove_nth _ _ _ Hn) as [l1 [l2 [E1 E2]]]. rewrite E2.
    set (s0 := with_pending (l1 ++ l2) s).
    assert (timers_ok s0) as Ht0 by (subst s0; auto with timers).
    destruct (truthy (project s)) eqn:Hp.
    + pose proof Hph as Hph'. unfold phase_ok in Hph'. rewrite Hp, E1 in Hph'.
      destruct Hph' as (Hload & Hle & Hone).
      rewrite forallb_app in Hload. cbn [forallb] in Hload.
      apply andb_true_iff in Hload. destruct Hload as [Hl1 Hl2].
      apply andb_true_iff in Hl2. destruct Hl2 as [Hr Hl2].
      rewrite starts_app in Hle, Hone. unfold starts in Hle, Hone.
      cbn [filter] in Hle, Hone.
      assert (phase_ok s0) as Hph0.
      { subst s0. unfold phase_ok, polling. project_fields. rewrite Hp.
        rewrite forallb_app, Hl1, Hl2, starts_app. unfold starts.
        split; [reflexivity|].
        revert Hle Hone. destruct (is_start r); cbn [List.length]; intros Hle Hone.
        - split; [lia|]. intros; lia.
        - split; [lia|]. exact Hone. }
      destruct (moves_on r o) eqn:Hm.
      * destruct r; try discriminate Hr; destruct o; try discriminate Hm.
        cbn [is_start List.length] in Hle, Hone. cbn [resume then_processTakeoff].
        assert (starts (l1 ++ l2) = 0%nat) as Hz
          by (rewrite starts_app; unfold starts; lia).
        assert (polling s0 = false) as Hq by (apply Hone; lia).
        split; [now apply timers_ok_pollForCompletion|].
        unfold phase_ok, pollForCompletion, setTimeout, setInterval, new_timer.
        subst s0. project_fields. rewrite Hp, Hz.
        rewrite forallb_app, Hl1, Hl2.
        split; [reflexivity|]. split; [lia|]. intros; lia.
      * split.
        -- apply timers_ok_resume; [exact Ht0|].
           intros Hs. destruct r; try discriminate Hs.
           cbn [is_start List.length] in Hle, Hone. apply Hone. lia.
        -- eapply phase_ok_settles; [|exact Hph0|now apply settles_resume].
           exact Hp.
    + destruct (phase_falsy_idle _ Hph Hp) as (Hpend & Hnil & Hproc).
      assert (r = ReqLoadProject /\ l1 ++ l2 = []) as [-> El].
      { rewrite E1 in Hpend. destruct Hpend as [H|H].
        - destruct l1; discriminate H.
        - destruct l1 as [|x [|y l1]]; try discriminate H.
          injection H as -> ->. auto. }
      split.
      * apply timers_ok_resume; [exact Ht0|]. discriminate.
      * subst s0. rewrite El. now apply phase_ok_load.
  - (* the cancel dialog *)
    destruct (cancel_button_enabled s) eqn:Hc; [|discriminate]. injection Hstep as <-.
    split; [now apply timers_ok_handleCancel|].
    destruct (truthy (project s)) eqn:Hp.
    + eapply phase_ok_settles; [exact Hp|exact Hph|apply settles_handleCancel].
    + unfold handleCancel. now rewrite Hp.
  - (* a socket message *)
    destruct (mounted s) eqn:Hm; [|discriminate]. injection Hstep as <-.
    split; [auto with timers|].
    eapply phase_ok_ext; [| | | |exact Hph]; unfold setProgress; rewrite Hm; reflexivity.
  - (* the user leaves *)
    destruct (mounted s) eqn:Hm; [|discriminate]. injection Hstep as <-.
    split; [auto with timers|].
    destruct (truthy (project s)) eqn:Hp.
    + eapply phase_ok_settles; [exact Hp|exact Hph|now apply settles_unmount].
    + destruct (phase_falsy_idle _ Hph Hp) as (_ & Hnil & _).
      eapply phase_ok_ext; [| | | |exact Hph];
        unfold unmount, clear_if_polling, clearInterval_ref, clearInterval;
        rewrite Hm; destruct (ref_truthy s); destruct (pollingIntervalRef s);
        cbn; rewrite ?Hnil; reflexivity.
Qed.

Lemma invariant_run (evs : list Event) :
  forall s s' : State,
    invariant s -> run StringToNumber ObjectToNumber s evs = Some s' -> invariant s'.
Proof.
  induction evs as [|e evs IH]; intros s s' Hi Hr; cbn in Hr.
  - now injection Hr as <-.
  - destruct (step StringToNumber ObjectToNumber s e) as [s1|] eqn:Hs; [|discriminate].
    eapply IH; [|exact Hr]. eapply invariant_step; eauto.
Qed.

Lemma invariant_reachable (s : State) :
  reachable StringToNumber ObjectToNumber s -> invariant s.
Proof.
  intros (id0 & pr & evs & Hr). eapply invariant_run; [|exact Hr].
  apply invariant_mount.
Qed.

End Session.

(** *** What the handlers do *)

Lemma with_timers_same (s : State) : with_timers (timers s) s = s.
Proof. now destruct s. Qed.

Lemma clearInterval_ref_eq (s : State) :
  timers_ok s -> clearInterval_ref s = with_timers (filter not_poll (timers s)) s.
Proof.
  intros H. pose proof (clearInterval_ref_timers s H) as E.
  unfold clearInterval_ref in *. destruct (pollingIntervalRef s).
  - unfold clearInterval in *. cbn in E. now rewrite E.
  - rewrite <- E. symmetry. apply with_timers_same.
Qed.

Lemma clear_if_polling_eq (s : State) :
  timers_ok s -> clear_if_polling s = with_timers (filter not_poll (timers s)) s.
Proof.
  intros H. pose proof (clear_if_polling_timers s H) as E.
  unfold clear_if_polling in *. destruct (ref_truthy s).
  - now apply clearInterval_ref_eq.
  - rewrite <- E. symmetry. apply with_timers_same.
Qed.

Lemma navigation_not_poll (t : Timer) : is_navigation t = true -> not_poll t = true.
Proof. unfold is_navigation, not_poll, is_poll. now destruct (callback t). Qed.

Lemma filter_navigation_not_poll (l : list Timer) :
  filter is_navigation (filter not_poll l) = filter is_navigation l.
Proof.
  induction l as [|t l IH]; [reflexivity|]. cbn.
  destruct (is_navigation t) eqn:E.
  - rewrite (navigation_not_poll t E). cbn. now rewrite E, IH.
  - destruct (not_poll t); cbn; now rewrite ?E, IH.
Qed.

(** Stopping and scheduling the navigation, as one update of the state. *)
Lemma stop_and_navigate_effect (s : State) :
  timers_ok s ->
  let s' := stop_and_navigate s in
  polling s' = false
  /\ timers s' = filter not_poll (timers s) ++ [navigation_timer s]
  /\ scheduled_navigations s' = S (scheduled_navigations s)
  /\ pending s' = pending s
  /\ navigations s' = navigations s
  /\ mounted s' = mounted s
  /\ (mounted s = true -> isProcessing s' = false)
  /\ progressState s' = progressState s
  /\ error s' = error s.
Proof.
  intros H s'. subst s'. unfold stop_and_navigate.
  rewrite (clearInterval_ref_eq s H).
  unfold navigate_later, setTimeout, new_timer, setIsProcessing, polling,
    scheduled_navigations, navigation_timers, navigation_timer, results_path.
  destruct (mounted s) eqn:Hm; repeat (project_fields; rewrite ?Hm);
    rewrite existsb_app, filter_not_poll_no_polling, filter_app,
      filter_navigation_not_poll, length_app; cbn;
    repeat split; try lia; try reflexivity; intros; congruence.
Qed.

Lemma stop_with_error_effect (st : Value) (s : State) :
  timers_ok s ->
  let s' := stop_with_error st s in
  polling s' = false
  /\ timers s' = filter not_poll (timers s)
  /\ scheduled_navigations s' = scheduled_navigations s
  /\ pending s' = pending s
  /\ navigations s' = navigations s
  /\ mounted s' = mounted s
  /\ (mounted s = true -> isProcessing s' = false /\ error s' = failure_text st)
  /\ progressState s' = progressState s.
Proof.
  intros H s'. subst s'. unfold stop_with_error.
  rewrite (clearInterval_ref_eq s H).
  unfold setError, setIsProcessing, polling, scheduled_navigations,
    navigation_timers.
  destruct (mounted s) eqn:Hm; repeat (project_fields; rewrite ?Hm);
    rewrite filter_not_poll_no_polling, filter_navigation_not_poll;
    repeat split; try reflexivity; intros; congruence.
Qed.

Lemma status_needs_object (x : Value) (lit : string) :
  strict_eq_str (status_of x) lit = true ->
  truthy x = true /\ get x "status" = Some (member x "status").
Proof.
  unfold status_of, member. destruct x; cbn; try discriminate; auto.
Qed.

Lemma is_success_object (x : Value) :
  is_success (status_of x) = true ->
  truthy x = true /\ get x "status" = Some (member x "status").
Proof.
  unfold is_success. intros H.
  apply orb_true_iff in H. destruct H as [H|H];
    [apply orb_true_iff in H; destruct H as [H|H]|];
    eapply status_needs_object; exact H.
Qed.

Lemma is_failure_object (x : Value) :
  is_failure (status_of x) = true ->
  truthy x = true /\ get x "status" = Some (member x "status").
Proof.
  unfold is_failure. intros H.
  apply orb_true_iff in H. destruct H as [H|H];
    eapply status_needs_object; exact H.
Qed.

Lemma failure_not_success (st : Value) :
  is_failure st = true -> is_success st = false.
Proof.
  unfold is_failure, is_success, strict_eq_str. destruct st; try discriminate.
  intros H. apply orb_true_iff in H.
  destruct H as [H|H]; apply String.eqb_eq in H; subst s; reflexivity.
Qed.

Lemma processing_not_terminal (st : Value) :
  strict_eq_str st "processing" = true -> is_success st = false /\ is_failure st = false.
Proof.
  unfold is_failure, is_success, strict_eq_str. destruct st; try discriminate.
  intros H. apply String.eqb_eq in H. subst s. split; reflexivity.
Qed.

(** A poll answer with a terminal success status: both the primary and the
    fallback continuation stop and navigate. *)
Lemma poll_success (r : Request) (v : Value) (s : State) :
  r = ReqPollProject \/ r = ReqPollTakeoff ->
  is_success (status_of v) = true ->
  resume r (Resolved v) s = stop_and_navigate s.
Proof.
  intros Hr Hv. destruct (is_success_object v Hv) as [Ht Hg].
  destruct Hr as [-> | ->]; cbn [resume then_poll_project then_poll_takeoff].
  - unfold on_project_status. now rewrite Ht, Hv.
  - unfold on_takeoff_status. now rewrite Hg, Hv.
Qed.

Lemma poll_failure (r : Request) (v : Value) (s : State) :
  r = ReqPollProject \/ r = ReqPollTakeoff ->
  is_failure (status_of v) = true ->
  resume r (Resolved v) s = stop_with_error (status_of v) s.
Proof.
  intros Hr Hv. destruct (is_failure_object v Hv) as [Ht Hg].
  pose proof (failure_not_success _ Hv) as Hn.
  destruct Hr as [-> | ->]; cbn [resume then_poll_project then_poll_takeoff].
  - unfold on_project_status. now rewrite Ht, Hn, Hv.
  - unfold on_takeoff_status. now rewrite Hg, Hn, Hv.
Qed.

Lemma respond_inv StringToNumber ObjectToNumber (s s' : State) (n : nat) (o : Outcome)
      (r : Request) :
  nth_error (pending s) n = Some r ->
  step StringToNumber ObjectToNumber s (Respond n o) = Some s' ->
  s' = resume r o (with_pending (remove_nth n (pending s)) s).
Proof. cbn [step]. intros ->. now intros [= <-]. Qed.

(** *** A quiet view schedules nothing more *)

Lemma filter_other_tids (i : nat) (l : list Timer) :
  (forall u, In u l -> tid u <> i) ->
  filter (fun u => negb (Nat.eqb (tid u) i)) l = l.
Proof.
  intros H. apply forallb_filter_id. apply forallb_forall. intros u Hu.
  apply negb_true_iff, Nat.eqb_neq. now apply H.
Qed.

Lemma filter_remove_tid (f : Timer -> bool) (t : Timer) (l : list Timer) :
  NoDup (map tid l) -> In t l ->
  (List.length (filter f (filter (fun u => negb (Nat.eqb (tid u) (tid t))) l))
   + (if f t then 1 else 0))%nat
  = List.length (filter f l).
Proof.
  induction l as [|x l IH]; intros Hnd Hin; [destruct Hin|].
  cbn [map] in Hnd. inversion Hnd as [|? ? Hnotin Hnd']; subst.
  destruct Hin as [->|Hin].
  - cbn [filter]. rewrite Nat.eqb_refl. cbn [negb].
    rewrite filter_other_tids.
    + destruct (f t); cbn [List.length]; lia.
    + intros u Hu E. apply Hnotin. rewrite <- E. now apply in_map.
  - assert (tid x <> tid t) as Hne.
    { intros E. apply Hnotin. rewrite E. now apply in_map. }
    cbn [filter]. apply Nat.eqb_neq in Hne. rewrite Hne. cbn [negb filter].
    specialize (IH Hnd' Hin).
    destruct (f x); cbn [List.length]; lia.
Qed.

Section Quiet.

Variable StringToNumber : string -> Number.
Variable ObjectToNumber : Value -> Number.

Lemma quiet_step (s s' : State) (e : Event) :
  timers_ok s -> quiet s ->
  step StringToNumber ObjectToNumber s e = Some s' ->
  quiet s' /\ scheduled_navigations s' = scheduled_navigations s.
Proof.
  intros Hok (Hpend & Hpoll & Hproc) Hstep.
  destruct e as [dt|i|n o|c|m|]; cbn [step] in Hstep.
  - destruct (_ && _) in Hstep; [|discriminate]. injection Hstep as <-.
    unfold quiet, scheduled_navigations, navigation_timers, polling in *. cbn. auto.
  - destruct (find_timer i s) as [t|] eqn:Hf; [|discriminate].
    destruct (due t <=? now s)%Z; [|discriminate]. injection Hstep as <-.
    destruct (find_timer_In _ _ _ Hf) as [Hin _].
    pose proof Hok as (Hall & Hnd & _).
    rewrite Forall_forall in Hall. destruct (Hall t Hin) as (_ & _ & _ & _ & Hper).
    pose proof Hpoll as Hnp. rewrite polling_false_iff in Hnp.
    specialize (Hnp t Hin). rewrite Hnp in Hper.
    assert (timers_ok (rearm t s)) as Hok' by now apply timers_ok_rearm.
    unfold rearm in *. rewrite Hper in *.
    pose proof (filter_remove_tid is_navigation t (timers s) Hnd Hin) as Hcount.
    assert (polling (clearInterval (tid t) s) = false) as Hpoll'
      by (unfold polling, clearInterval; cbn; now apply polling_filter).
    unfold is_poll in Hnp. unfold is_navigation at 2 in Hcount.
    destruct (callback t) as [|path|] eqn:Hcb; [discriminate Hnp| |];
      cbn [run_callback].
    + unfold unmount. cbn [mounted with_navigations clearInterval with_timers].
      destruct (mounted s) eqn:Hm.
      * rewrite clear_if_polling_eq by auto with timers.
        unfold quiet, scheduled_navigations, navigation_timers, polling in *.
        cbn in *. rewrite filter_navigation_not_poll, filter_not_poll_no_polling.
        rewrite length_app. cbn. repeat split; auto; try discriminate. lia.
      * unfold quiet, scheduled_navigations, navigation_timers, polling in *.
        cbn in *. rewrite length_app. cbn. repeat split; auto; try congruence. lia.
    + rewrite clear_if_polling_eq by exact Hok'.
      unfold quiet, scheduled_navigations, navigation_timers, polling in *.
      cbn in *. rewrite filter_navigation_not_poll, filter_not_poll_no_polling.
      repeat split; auto. lia.
  - rewrite Hpend in Hstep. destruct n; discriminate Hstep.
  - unfold cancel_button_enabled in Hstep.
    destruct (mounted s) eqn:Hm; cbn in Hstep; [|discriminate].
    rewrite (Hproc eq_refl) in Hstep. discriminate.
  - destruct (mounted s) eqn:Hm; [|discriminate]. injection Hstep as <-.
    unfold setProgress. rewrite Hm.
    unfold quiet, scheduled_navigations, navigation_timers, polling in *. cbn. auto.
  - destruct (mounted s) eqn:Hm; [|discriminate]. injection Hstep as <-.
    unfold unmount. rewrite Hm. rewrite clear_if_polling_eq by exact Hok.
    unfold quiet, scheduled_navigations, navigation_timers, polling in *.
    cbn in *. rewrite filter_navigation_not_poll, filter_not_poll_no_polling.
    repeat split; auto.
Qed.

Lemma quiet_run (evs : list Event) :
  forall s s' : State,
    invariant s -> quiet s ->
    run StringToNumber ObjectToNumber s evs = Some s' ->
    quiet s' /\ scheduled_navigations s' = scheduled_navigations s.
Proof.
  induction evs as [|e evs IH]; intros s s' Hi Hq Hr; cbn in Hr.
  - injection Hr as <-. auto.
  - destruct (step StringToNumber ObjectToNumber s e) as [s1|] eqn:Hs; [|discriminate].
    destruct (quiet_step s s1 e (proj1 Hi) Hq Hs) as [Hq1 E1].
    destruct (IH s1 s' (invariant_step _ _ _ _ _ Hi Hs) Hq1 Hr) as [Hq' E'].
    split; [exact Hq'|congruence].
Qed.

End Quiet.

(** *** Polling is bounded by the clean-up timer *)

Lemma NoDup_map_inj {A B : Type} (f : A -> B) (l : list A) (a b : A) :
  NoDup (map f l) -> In a l -> In b l -> f a = f b -> a = b.
Proof.
  induction l as [|x l IH]; intros Hnd Ha Hb E; [destruct Ha|].
  cbn in Hnd. inversion Hnd as [|? ? Hnotin Hnd']; subst.
  destruct Ha as [->|Ha], Hb as [->|Hb]; auto.
  - exfalso. apply Hnotin. rewrite E. now apply in_map.
  - exfalso. apply Hnotin. rewrite <- E. now apply in_map.
Qed.

Lemma bounded_settles (deadline : Z) (s s' : State) :
  bounded_by deadline s -> settles s s' -> bounded_by deadline s'.
Proof.
  intros [(t & Hin & Hcb & Hdue)|Hp] Hs.
  - left. exists t. destruct Hs as (_ & _ & _ & K).
    repeat split; auto. apply K; [exact Hin|]. unfold is_poll. now rewrite Hcb.
  - right. eapply settles_polling; eauto.
Qed.

Lemma late_requests (l : list Request) :
  forallb (fun r => negb (is_load r)) l = true -> starts l = 0%nat ->
  forallb is_late l = true.
Proof.
  induction l as [|r l IH]; [reflexivity|]. cbn [forallb]. unfold starts. cbn [filter].
  intros H Hs. apply andb_true_iff in H. destruct H as [Hr Hl].
  unfold is_late. rewrite Hr. destruct (is_start r); [discriminate Hs|].
  cbn. apply IH; assumption.
Qed.

Section Bounded.

Variable StringToNumber : string -> Number.
Variable ObjectToNumber : Value -> Number.

Lemma bounded_step (deadline : Z) (s s' : State) (e : Event) :
  invariant s -> started s -> bounded_by deadline s ->
  step StringToNumber ObjectToNumber s e = Some s' ->
  started s' /\ bounded_by deadline s'.
Proof.
  intros [Hok Hph] Hst Hb Hstep.
  destruct e as [dt|i|n o|c|m|]; cbn [step] in Hstep.
  - destruct (_ && _) in Hstep; [|discriminate]. injection Hstep as <-.
    split; [exact Hst|exact Hb].
  - destruct (find_timer i s) as [t|] eqn:Hf; [|discriminate].
    destruct (due t <=? now s)%Z; [|discriminate]. injection Hstep as <-.
    destruct (find_timer_In _ _ _ Hf) as [Hin _].
    assert (timers_ok (rearm t s)) as Hok' by now apply timers_ok_rearm.
    pose proof (settles_run_callback (callback t) _ Hok') as Hs.
    destruct (rearm_frame t s) as (E1 & E2 & _).
    split.
    + eapply started_settles; [|exact Hs]. unfold started. now rewrite E1, E2.
    + destruct (callback t) eqn:Hcb.
      * eapply bounded_settles; [|exact Hs].
        destruct Hb as [(t0 & Hin0 & Hcb0 & Hdue0)|Hp].
        -- left. exists t0. repeat split; auto. apply rearm_keeps; [exact Hin0|].
           intros E. destruct Hok as (_ & Hnd & _).
           pose proof (NoDup_map_inj tid _ _ _ Hnd Hin0 Hin E). congruence.
        -- right. now apply rearm_polling.
      * eapply bounded_settles; [|exact Hs].
        destruct Hb as [(t0 & Hin0 & Hcb0 & Hdue0)|Hp].
        -- left. exists t0. repeat split; auto. apply rearm_keeps; [exact Hin0|].
           intros E. destruct Hok as (_ & Hnd & _).
           pose proof (NoDup_map_inj tid _ _ _ Hnd Hin0 Hin E). congruence.
        -- right. now apply rearm_polling.
      * right. cbn [run_callback]. unfold polling.
        rewrite (clear_if_polling_timers _ Hok'). apply filter_not_poll_no_polling.
  - destruct (nth_error (pending s) n) as [r|] eqn:Hn; [|discriminate].
    injection Hstep as <-.
    destruct (nth_error_remove_nth _ _ _ Hn) as [l1 [l2 [E1 E2]]]. rewrite E2.
    destruct Hst as [Hp Hl]. rewrite E1, forallb_app in Hl. cbn [forallb] in Hl.
    apply andb_true_iff in Hl. destruct Hl as [Hl1 Hl2].
    apply andb_true_iff in Hl2. destruct Hl2 as [Hr Hl2].
    set (s0 := with_pending (l1 ++ l2) s).
    assert (settles s0 (resume r o s0)) as Hs.
    { apply settles_resume; [subst s0; auto with timers|].
      unfold is_late in Hr. destruct r; try discriminate Hr; reflexivity. }
    split.
    + eapply started_settles; [|exact Hs]. subst s0. unfold started. cbn.
      now rewrite Hp, forallb_app, Hl1, Hl2.
    + eapply bounded_settles; [|exact Hs]. exact Hb.
  - destruct (cancel_button_enabled s); [|discriminate]. injection Hstep as <-.
    pose proof (settles_handleCancel c s) as Hs.
    split; [eapply started_settles|eapply bounded_settles]; eauto.
  - destruct (mounted s); [|discriminate]. injection Hstep as <-.
    assert (settles s (setProgress (lastMessage_effect StringToNumber ObjectToNumber m) s))
      as Hs by auto with settle.
    split; [eapply started_settles|eapply bounded_settles]; eauto.
  - destruct (mounted s); [|discriminate]. injection Hstep as <-.
    pose proof (settles_unmount s Hok) as Hs.
    split; [eapply started_settles|eapply bounded_settles]; eauto.
Qed.

Lemma bounded_run (deadline : Z) (evs : list Event) :
  forall s s' : State,
    invariant s -> started s -> bounded_by deadline s ->
    run StringToNumber ObjectToNumber s evs = Some s' ->
    invariant s' /\ started s' /\ bounded_by deadline s'.
Proof.
  induction evs as [|e evs IH]; intros s s' Hi Hst Hb Hr; cbn in Hr.
  - injection Hr as <-. auto.
  - destruct (step StringToNumber ObjectToNumber s e) as [s1|] eqn:Hs; [|discriminate].
    destruct (bounded_step deadline s s1 e Hi Hst Hb Hs) as [Hst1 Hb1].
    exact (IH s1 s' (invariant_step _ _ _ _ _ Hi Hs) Hst1 Hb1 Hr).
Qed.

Lemma bounded_expired (deadline : Z) (s : State) :
  timers_ok s -> bounded_by deadline s -> (deadline < now s)%Z -> polling s = false.
Proof.
  intros (Hall & _) [(t & Hin & _ & Hdue)|Hp] Hlt; [|exact Hp].
  rewrite Forall_forall in Hall. destruct (Hall t Hin) as (Hnow & _). lia.
Qed.

(** Answering the start request installs the polling loop, together with
    its clean-up five minutes later. *)
Lemma polling_installed (s s1 : State) (n : nat) (pid v : Value) :
  invariant s ->
  nth_error (pending s) n = Some (ReqProcessTakeoff pid) ->
  step StringToNumber ObjectToNumber s (Respond n (Resolved v)) = Some s1 ->
  started s1 /\ bounded_by (now s + 300000) s1 /\ polling s1 = true.
Proof.
  intros [Hok Hph] Hn Hstep. rewrite (respond_inv _ _ _ _ _ _ _ Hn Hstep).
  destruct (nth_error_remove_nth _ _ _ Hn) as [l1 [l2 [E1 E2]]]. rewrite E2.
  cbn [resume then_processTakeoff].
  unfold phase_ok in Hph. rewrite E1 in Hph.
  destruct (truthy (project s)) eqn:Hp.
  - destruct Hph as (Hload & Hle & _).
    rewrite forallb_app in Hload. cbn [forallb] in Hload.
    apply andb_true_iff in Hload. destruct Hload as [Hl1 Hl2].
    apply andb_true_iff in Hl2. destruct Hl2 as [_ Hl2].
    rewrite starts_app in Hle. unfold starts in Hle. cbn in Hle.
    split; [|split].
    + unfold started, pollForCompletion, setTimeout, setInterval, new_timer.
      project_fields. split; [exact Hp|].
      apply late_requests.
      * now rewrite forallb_app, Hl1, Hl2.
      * rewrite starts_app. unfold starts. lia.
    + left. eexists. unfold pollForCompletion, setTimeout, setInterval, new_timer.
      project_fields. split; [apply in_app_iff; right; left; reflexivity|].
      cbn. split; [reflexivity|lia].
    + unfold polling, pollForCompletion, setTimeout, setInterval, new_timer.
      project_fields. rewrite !existsb_app. cbn.
      now rewrite orb_true_r.
  - destruct Hph as ([H|H] & _).
    + destruct l1; discriminate H.
    + destruct l1 as [|x [|y l1]]; discriminate H.
Qed.

End Bounded.

Lemma cancel_success_effect (v : Value) (s : State) :
  timers_ok s ->
  let s' := then_cancelTakeoff (Resolved v) s in
  polling s' = false
  /\ timers s' = filter not_poll (timers s) ++ [navigation_timer s]
  /\ scheduled_navigations s' = S (scheduled_navigations s)
  /\ pending s' = pending s
  /\ navigations s' = navigations s
  /\ mounted s' = mounted s
  /\ (mounted s = true ->
      progressState s' = cancelled_display /\ isProcessing s' = false).
Proof.
  intros H s'. subst s'. cbn [then_cancelTakeoff].
  assert ((if ref_truthy s
           then with_pollingIntervalRef None (clearInterval_ref s) else s)
          = with_pollingIntervalRef
              (if ref_truthy s then None else pollingIntervalRef s)
              (with_timers (filter not_poll (timers s)) s)) as ->.
  { destruct (ref_truthy s) eqn:Hr.
    - now rewrite (clearInterval_ref_eq s H).
    - rewrite <- (clear_if_polling_timers s H). unfold clear_if_polling.
      rewrite Hr. now destruct s. }
  unfold navigate_later, setTimeout, new_timer, setIsProcessing, setProgress,
    polling, scheduled_navigations, navigation_timers, navigation_timer,
    results_path.
  destruct (mounted s) eqn:Hm; repeat (project_fields; rewrite ?Hm);
    rewrite existsb_app, filter_not_poll_no_polling, filter_app,
      filter_navigation_not_poll, length_app; cbn;
    repeat split; try lia; try reflexivity; intros; congruence.
Qed.

Lemma error_text_truthy (err : Failure) (fallback : string) :
  fallback <> "" -> truthy (error_text err fallback) = true.
Proof.
  intros Hf. unfold error_text, js_or.
  destruct (truthy (if truthy (detail err) then detail err else err_message err)) eqn:E;
    [exact E|].
  cbn. apply negb_true_iff. now apply String.eqb_neq.
Qed.

Lemma processing_has_project (s : State) :
  phase_ok s -> isProcessing s = true -> truthy (project s) = true.
Proof.
  intros Hph Hp. destruct (truthy (project s)) eqn:E; [reflexivity|].
  destruct (phase_falsy_idle s Hph E) as (_ & _ & H). congruence.
Qed.

(* ------------------------------------------------------------------ *)
(** ** The socket listener *)

Section ListenerFacts.

Import UseWebSocket.

Variable JSON_parse : string -> Completion Value.

Lemma onmessage_returns (data : string) (h : Hook) :
  exists h', onmessage JSON_parse data h = Normal h'.
Proof.
  unfold onmessage, try_catch, bind. destruct (JSON_parse data); eauto.
Qed.

(** C7. A frame whose payload is not valid JSON is logged with
    [console.error] and dropped: the handler returns normally, the exposed
    [lastMessage] and [connected] are those of before, and the listener goes
    on with the frames that follow. *)
Theorem malformed_frame_is_logged_and_dropped (data e : string) (h : Hook) :
  JSON_parse data = Throw e ->
  exists h' : Hook,
    onmessage JSON_parse data h = Normal h'
    /\ lastMessage h' = lastMessage h
    /\ connected h' = connected h
    /\ console h' = console h ++ [ConsoleError "Error parsing WebSocket message:" e]
    /\ forall rest : list string,
         listen JSON_parse (data :: rest) h = listen JSON_parse rest h'.
Proof.
  intros Hparse.
  exists (console_write (ConsoleError "Error parsing WebSocket message:" e) h).
  assert (onmessage JSON_parse data h
          = Normal (console_write (ConsoleError "Error parsing WebSocket message:" e) h))
    as Hm by (unfold onmessage, try_catch, bind; now rewrite Hparse).
  repeat split; try exact Hm; try reflexivity.
  intros rest. cbn [listen]. now rewrite Hm.
Qed.

End ListenerFacts.

(** A truncated frame reaches a listening hook. *)
Lemma malformed_frame_is_logged_and_dropped_witness :
  exists h' : UseWebSocket.Hook,
    UseWebSocket.onmessage Examples.literal_JSON_parse "{stage:" Examples.listening
    = UseWebSocket.Normal h'
    /\ UseWebSocket.lastMessage h' = packet (VStr "cv") (num 60) (VStr "Detecting")
    /\ UseWebSocket.connected h' = true.
Proof.
  destruct (malformed_frame_is_logged_and_dropped Examples.literal_JSON_parse
              "{stage:" "SyntaxError" Examples.listening eq_refl)
    as (h' & Hm & Hl & Hc & _).
  exists h'. repeat split; [exact Hm|exact Hl|exact Hc].
Defined.

(** *** The displayed progress in the event loop *)

Lemma progress_setProject v s : progressState (setProject v s) = progressState s.
Proof. unfold setProject. now destruct (mounted s). Qed.

Lemma progress_setError v s : progressState (setError v s) = progressState s.
Proof. unfold setError. now destruct (mounted s). Qed.

Lemma progress_setIsProcessing b s : progressState (setIsProcessing b s) = progressState s.
Proof. unfold setIsProcessing. now destruct (mounted s). Qed.

Lemma progress_setIsCancelling b s : progressState (setIsCancelling b s) = progressState s.
Proof. unfold setIsCancelling. now destruct (mounted s). Qed.

Lemma progress_request r s : progressState (request r s) = progressState s.
Proof. reflexivity. Qed.

Lemma progress_console_write e s : progressState (console_write e s) = progressState s.
Proof. reflexivity. Qed.

Lemma progress_new_timer p cb d s : progressState (new_timer p cb d s) = progressState s.
Proof. reflexivity. Qed.

Lemma progress_navigate_later s : progressState (navigate_later s) = progressState s.
Proof. reflexivity. Qed.

Lemma progress_clearInterval_ref s : progressState (clearInterval_ref s) = progressState s.
Proof. unfold clearInterval_ref. now destruct (pollingIntervalRef s). Qed.

Lemma progress_clear_if_polling s : progressState (clear_if_polling s) = progressState s.
Proof.
  unfold clear_if_polling. destruct (ref_truthy s); [|reflexivity].
  apply progress_clearInterval_ref.
Qed.

Lemma progress_unmount s : progressState (unmount s) = progressState s.
Proof.
  unfold unmount. destruct (mounted s); [|reflexivity]. cbn.
  apply progress_clear_if_polling.
Qed.

Lemma progress_rearm t s : progressState (rearm t s) = progressState s.
Proof. unfold rearm. now destruct (period t). Qed.

Lemma progress_pollForCompletion s : progressState (pollForCompletion s) = progressState s.
Proof. reflexivity. Qed.

Lemma progress_startProcessing s : progressState (startProcessing s) = progressState s.
Proof.
  unfold startProcessing. destruct (negb _); [reflexivity|].
  now rewrite progress_request, progress_setError, progress_setIsProcessing.
Qed.

Lemma progress_project_effects s : progressState (project_effects s) = progressState s.
Proof.
  unfold project_effects.
  destruct (negb (truthy (project s)) && _);
    match goal with |- context [if ?b then _ else _] => destruct b end;
    rewrite ?progress_startProcessing; reflexivity.
Qed.

Lemma progress_stop_and_navigate s : progressState (stop_and_navigate s) = progressState s.
Proof.
  unfold stop_and_navigate.
  now rewrite progress_navigate_later, progress_setIsProcessing, progress_clearInterval_ref.
Qed.

Lemma progress_stop_with_error st s :
  progressState (stop_with_error st s) = progressState s.
Proof.
  unfold stop_with_error.
  now rewrite progress_setError, progress_setIsProcessing, progress_clearInterval_ref.
Qed.

Lemma progress_handleCancel c s : progressState (handleCancel c s) = progressState s.
Proof.
  unfold handleCancel.
  repeat match goal with |- context [if ?b then _ else _] => destruct b end;
    try reflexivity.
  now rewrite progress_request, progress_setError, progress_setIsCancelling.
Qed.

Lemma progress_resume (r : Request) (o : Outcome) (s : State) :
  progressState (resume r o s) = progressState s
  \/ (exists v pid, o = Resolved v /\ r = ReqCancelTakeoff pid
                    /\ progressState (resume r o s) = cancelled_display).
Proof.
  destruct r, o; cbn [resume].
  - left. unfold then_loadProject. destruct (mounted s && _); [|reflexivity].
    now rewrite progress_project_effects, progress_setProject.
  - left. cbn. now rewrite progress_setError.
  - left. reflexivity.
  - left. cbn. now rewrite progress_setIsProcessing, progress_setError.
  - left. cbn. unfold on_project_status.
    repeat match goal with |- context [if ?b then _ else _] => destruct b end;
      rewrite ?progress_stop_and_navigate, ?progress_stop_with_error; reflexivity.
  - left. reflexivity.
  - left. cbn. unfold on_takeoff_status, both_failed.
    destruct (get v "status"); [|reflexivity].
    repeat match goal with |- context [if ?b then _ else _] => destruct b end;
      rewrite ?progress_stop_and_navigate, ?progress_stop_with_error; reflexivity.
  - left. reflexivity.
  - cbn [then_cancelTakeoff]. rewrite progress_navigate_later. unfold setProgress.
    match goal with |- context [if mounted ?x then _ else _] =>
      destruct (mounted x) eqn:Hm end.
    + right. exists v, project_id. auto.
    + left. rewrite progress_setIsProcessing.
      destruct (ref_truthy s); [|reflexivity]. cbn. apply progress_clearInterval_ref.
  - left. cbn. now rewrite progress_setIsCancelling, progress_setError.
Qed.

Section LoopProgress.

Variable StringToNumber : string -> Number.
Variable ObjectToNumber : Value -> Number.

(** Only two things write the progress state: a socket message, through
    the message effect, and a cancellation that succeeded, which resets the
    display. *)
Lemma step_progress (s s' : State) (e : Event) :
  step StringToNumber ObjectToNumber s e = Some s' ->
  progressState s' = progressState s
  \/ (exists m, e = SocketMessage m
                /\ progressState s'
                   = lastMessage_effect StringToNumber ObjectToNumber m (progressState s))
  \/ (exists n v pid, e = Respond n (Resolved v)
                      /\ nth_error (pending s) n = Some (ReqCancelTakeoff pid)
                      /\ progressState s' = cancelled_display).
Proof.
  intros Hstep. destruct e as [dt|i|n o|c|m|]; cbn [step] in Hstep.
  - destruct (_ && _) in Hstep; [|discriminate]. injection Hstep as <-. now left.
  - destruct (find_timer i s) as [t|]; [|discriminate].
    destruct (due t <=? now s)%Z; [|discriminate]. injection Hstep as <-. left.
    destruct (callback t); cbn [run_callback];
      rewrite ?progress_request, ?progress_unmount, ?progress_clear_if_polling;
      cbn [progressState with_navigations]; apply progress_rearm.
  - destruct (nth_error (pending s) n) as [r|] eqn:Hn; [|discriminate].
    injection Hstep as <-.
    destruct (progress_resume r o (with_pending (remove_nth n (pending s)) s))
      as [E|(v & pid & -> & -> & E)].
    + left. exact E.
    + right. right. exists n, v, pid. auto.
  - destruct (cancel_button_enabled s); [|discriminate]. injection Hstep as <-.
    left. apply progress_handleCancel.
  - destruct (mounted s) eqn:Hm; [|discriminate]. injection Hstep as <-.
    right. left. exists m. split; [reflexivity|]. unfold setProgress. now rewrite Hm.
  - destruct (mounted s) eqn:Hm; [|discriminate]. injection Hstep as <-.
    left. apply progress_unmount.
Qed.

(** In a session the displayed percentage stays in [0, 100], and it never
    decreases except when a cancellation succeeds. *)
Lemma session_progress (s s' : State) (e : Event) :
  percentage (progress (progressState s)) ->
  step StringToNumber ObjectToNumber s e = Some s' ->
  percentage (progress (progressState s'))
  /\ (Number_le (progress (progressState s)) (progress (progressState s'))
      \/ progressState s' = cancelled_display).
Proof.
  intros Hp Hstep.
  destruct (step_progress s s' e Hstep) as [E|[(m & _ & E)|(_ & _ & _ & _ & _ & E)]];
    rewrite E.
  - split; [exact Hp|]. left. destruct (progress (progressState s)); cbn in *; try tauto.
    lra.
  - split; [now apply effect_progress_percentage|]. left.
    destruct (progress (progressState s)) as [| |q|] eqn:Eq; cbn in Hp; try tauto.
    destruct (effect_progress_grows StringToNumber ObjectToNumber m _ q Eq)
      as (q' & -> & Hle).
    exact Hle.
  - split; [cbn; lra|]. now right.
Qed.

Lemma reachable_percentage (s : State) :
  reachable StringToNumber ObjectToNumber s ->
  percentage (progress (progressState s)).
Proof.
  intros (id0 & pr & evs & Hrun).
  assert (percentage (progress (progressState (mount id0 pr)))) as H0.
  { unfold mount. rewrite progress_project_effects. cbn. lra. }
  revert Hrun H0. generalize (mount id0 pr).
  induction evs as [|e evs IH]; intros s0 Hrun H0; cbn in Hrun.
  - now injection Hrun as <-.
  - destruct (step StringToNumber ObjectToNumber s0 e) as [s1|] eqn:Hs; [|discriminate].
    apply (IH s1 Hrun). exact (proj1 (session_progress s0 s1 e H0 Hs)).
Qed.

End LoopProgress.

(* ------------------------------------------------------------------ *)
(** ** The polling loop and the cancel handler *)

Section Claims.

Variable StringToNumber : string -> Number.
Variable ObjectToNumber : Value -> Number.

(** C2, as the code has it.  When the answer to a poll request (primary or
    fallback) carries 'completed', 'ai_complete' or 'expert_review', polling
    stops and this answer schedules exactly one navigation to the results
    path, due 2 seconds later.  If no other request is in flight at that
    moment, no further navigation is ever scheduled in the session; a
    request still in flight may schedule its own when it is answered. *)
Theorem terminal_success_stops_polling_and_navigates
    (s s' : State) (n : nat) (r : Request) (v : Value) :
  reachable StringToNumber ObjectToNumber s ->
  nth_error (pending s) n = Some r ->
  r = ReqPollProject \/ r = ReqPollTakeoff ->
  is_success (status_of v) = true ->
  step StringToNumber ObjectToNumber s (Respond n (Resolved v)) = Some s' ->
  polling s' = false
  /\ timers s' = filter not_poll (timers s)
                 ++ [{| tid := next_timer s; due := now s + 2000; period := None;
                        callback := NavigateTo ("/projects/" ++ id s)%string |}]
  /\ scheduled_navigations s' = S (scheduled_navigations s)
  /\ (pending s' = [] ->
      forall (evs : list Event) (s'' : State),
        run StringToNumber ObjectToNumber s' evs = Some s'' ->
        scheduled_navigations s'' = scheduled_navigations s').
Proof.
  intros Hreach Hn Hr Hv Hstep.
  pose proof (invariant_reachable _ _ _ Hreach) as Hinv.
  pose proof (invariant_step _ _ _ _ _ Hinv Hstep) as Hinv'.
  pose proof (respond_inv _ _ _ _ _ _ _ Hn Hstep) as E.
  rewrite (poll_success r v _ Hr Hv) in E.
  set (s0 := with_pending (remove_nth n (pending s)) s) in E.
  assert (timers_ok s0) as H0 by (subst s0; destruct Hinv; auto with timers).
  destruct (stop_and_navigate_effect s0 H0)
    as (Hp & Ht & Hc & Hpend & Hnav & Hm & Hproc & _).
  rewrite <- E in Hp, Ht, Hc, Hpend, Hnav, Hm, Hproc.
  split; [exact Hp|]. split; [exact Ht|]. split; [exact Hc|].
  intros Hnil evs s'' Hrun.
  assert (quiet s') as Hq.
  { split; [exact Hnil|]. split; [exact Hp|].
    intros Hms. apply Hproc. congruence. }
  exact (proj2 (quiet_run _ _ evs s' s'' Hinv' Hq Hrun)).
Qed.

(** C3. When the answer to a poll request (primary or fallback) carries
    'cancelled' or 'failed', polling stops, the error shown by the view
    becomes 'Processing was cancelled' or 'Processing failed', and nothing
    is navigated: no timer is added, no navigation is performed, no request
    is issued. *)
Theorem terminal_failure_stops_polling_without_navigation
    (s s' : State) (n : nat) (r : Request) (v : Value) :
  reachable StringToNumber ObjectToNumber s ->
  nth_error (pending s) n = Some r ->
  r = ReqPollProject \/ r = ReqPollTakeoff ->
  is_failure (status_of v) = true ->
  step StringToNumber ObjectToNumber s (Respond n (Resolved v)) = Some s' ->
  polling s' = false
  /\ (mounted s = true ->
      error s' = (if strict_eq_str (status_of v) "cancelled"
                  then VStr "Processing was cancelled"
                  else VStr "Processing failed"))
  /\ timers s' = filter not_poll (timers s)
  /\ navigations s' = navigations s
  /\ scheduled_navigations s' = scheduled_navigations s
  /\ pending s' = remove_nth n (pending s).
Proof.
  intros Hreach Hn Hr Hv Hstep.
  pose proof (invariant_reachable _ _ _ Hreach) as Hinv.
  pose proof (respond_inv _ _ _ _ _ _ _ Hn Hstep) as E.
  rewrite (poll_failure r v _ Hr Hv) in E.
  set (s0 := with_pending (remove_nth n (pending s)) s) in E.
  assert (timers_ok s0) as H0 by (subst s0; destruct Hinv; auto with timers).
  destruct (stop_with_error_effect (status_of v) s0 H0)
    as (Hp & Ht & Hc & Hpend & Hnav & Hm & Hproc & _).
  rewrite <- E in Hp, Ht, Hc, Hpend, Hnav, Hm, Hproc.
  split; [exact Hp|]. split; [|auto].
  intros Hms. now apply Hproc.
Qed.

(** C8, as the code has it.  When the answer to the primary poll request
    carries the status 'processing' together with a truthy [takeoff_result]
    (any object or array is one), polling stops and a navigation to the
    results path is scheduled, due 2 seconds later; with a [takeoff_result]
    that is missing, null or otherwise falsy the tick changes nothing. *)
Theorem processing_with_result_stops_polling_and_navigates
    (s s' : State) (n : nat) (v : Value) :
  reachable StringToNumber ObjectToNumber s ->
  nth_error (pending s) n = Some ReqPollProject ->
  strict_eq_str (status_of v) "processing" = true ->
  step StringToNumber ObjectToNumber s (Respond n (Resolved v)) = Some s' ->
  (truthy (member v "takeoff_result") = true ->
   polling s' = false
   /\ timers s' = filter not_poll (timers s)
                  ++ [{| tid := next_timer s; due := now s + 2000; period := None;
                         callback := NavigateTo ("/projects/" ++ id s)%string |}]
   /\ scheduled_navigations s' = S (scheduled_navigations s))
  /\ (truthy (member v "takeoff_result") = false ->
      s' = with_pending (remove_nth n (pending s)) s)
  /\ (forall props, truthy (VObj props) = true)
  /\ (forall items, truthy (VArr items) = true).
Proof.
  intros Hreach Hn Hv Hstep.
  pose proof (invariant_reachable _ _ _ Hreach) as Hinv.
  pose proof (respond_inv _ _ _ _ _ _ _ Hn Hstep) as E.
  destruct (status_needs_object v _ Hv) as [Hobj _].
  destruct (processing_not_terminal _ Hv) as [Hns Hnf].
  cbn [resume then_poll_project] in E. unfold on_project_status in E.
  rewrite Hobj, Hns, Hnf, Hv in E. cbn [negb] in E.
  split; [|split; [|split; reflexivity]].
  - intros Ht. rewrite Ht in E.
    set (s0 := with_pending (remove_nth n (pending s)) s) in E.
    assert (timers_ok s0) as H0 by (subst s0; destruct Hinv; auto with timers).
    destruct (stop_and_navigate_effect s0 H0) as (Hp & Htm & Hc & _).
    rewrite <- E in Hp, Htm, Hc. auto.
  - intros Hf. now rewrite Hf in E.
Qed.

(** C9. When the cancellation request of a confirmed cancel succeeds, a
    navigation to the results path is scheduled, due 2 seconds later; when
    that timer fires the view navigates there and is unmounted, so it does
    not stay on the cancelled display. *)
Theorem successful_cancel_navigates_to_results
    (s s' : State) (n : nat) (pid v : Value) :
  reachable StringToNumber ObjectToNumber s ->
  nth_error (pending s) n = Some (ReqCancelTakeoff pid) ->
  step StringToNumber ObjectToNumber s (Respond n (Resolved v)) = Some s' ->
  let nav := {| tid := next_timer s; due := now s + 2000; period := None;
                callback := NavigateTo ("/projects/" ++ id s)%string |} in
  timers s' = filter not_poll (timers s) ++ [nav]
  /\ scheduled_navigations s' = S (scheduled_navigations s)
  /\ forall later fired : State,
       find_timer (next_timer s) later = Some nav ->
       step StringToNumber ObjectToNumber later (TimerFires (next_timer s)) = Some fired ->
       navigations fired = navigations later ++ [("/projects/" ++ id s)%string]
       /\ mounted fired = false.
Proof.
  intros Hreach Hn Hstep nav.
  pose proof (invariant_reachable _ _ _ Hreach) as Hinv.
  pose proof (respond_inv _ _ _ _ _ _ _ Hn Hstep) as E.
  cbn [resume] in E.
  set (s0 := with_pending (remove_nth n (pending s)) s) in E.
  assert (timers_ok s0) as H0 by (subst s0; destruct Hinv; auto with timers).
  destruct (cancel_success_effect v s0 H0) as (_ & Htm & Hc & _).
  rewrite <- E in Htm, Hc.
  split; [exact Htm|]. split; [exact Hc|].
  intros later fired Hf Hfire. cbn [step] in Hfire.
  rewrite Hf in Hfire. destruct (due nav <=? now later)%Z; [|discriminate].
  injection Hfire as <-. subst nav. cbn [callback run_callback].
  unfold unmount, rearm. cbn [period].
  unfold clearInterval, clear_if_polling, clearInterval_ref, clearInterval.
  project_fields.
  destruct (mounted later) eqn:Hm.
  - destruct (ref_truthy _); [destruct (pollingIntervalRef _)|]; cbn; auto.
  - cbn. auto.
Qed.

(** C5, as the code has it.  A confirmed cancel first issues the backend
    cancellation request, and polling goes on while it is pending.  When the
    request succeeds, polling stops and the display becomes stage
    'cancelled' at 0%.  When it fails, the error is shown as a message, the
    displayed progress and the polling loop are left as they were, and the
    cancel button is enabled again, so that the user can retry. *)
Theorem confirmed_cancel_requests_then_stops (s : State) :
  reachable StringToNumber ObjectToNumber s ->
  (cancel_button_enabled s = true ->
   exists s1 : State,
     step StringToNumber ObjectToNumber s (ClickCancel true) = Some s1
     /\ pending s1 = pending s ++ [ReqCancelTakeoff (member (project s) "project_id")]
     /\ timers s1 = timers s
     /\ polling s1 = polling s
     /\ progressState s1 = progressState s
     /\ isCancelling s1 = true)
  /\ (forall (n : nat) (pid v : Value) (s' : State),
        nth_error (pending s) n = Some (ReqCancelTakeoff pid) ->
        step StringToNumber ObjectToNumber s (Respond n (Resolved v)) = Some s' ->
        polling s' = false
        /\ (mounted s = true ->
            progressState s'
            = {| stage := VStr "cancelled"; progress := Fin 0;
                 message := VStr "Processing cancelled" |}
            /\ isProcessing s' = false))
  /\ (forall (n : nat) (pid : Value) (err : Failure) (s' : State),
        nth_error (pending s) n = Some (ReqCancelTakeoff pid) ->
        step StringToNumber ObjectToNumber s (Respond n (Rejected err)) = Some s' ->
        mounted s = true ->
        error s' = error_text err "Failed to cancel processing"
        /\ truthy (error s') = true
        /\ progressState s' = progressState s
        /\ timers s' = timers s
        /\ isCancelling s' = false
        /\ (isProcessing s = true ->
            cancel_button_enabled s' = true
            /\ exists s'' : State,
                 step StringToNumber ObjectToNumber s' (ClickCancel true) = Some s''
                 /\ In (ReqCancelTakeoff (member (project s) "project_id"))
                       (pending s''))).
Proof.
  intros Hreach.
  pose proof (invariant_reachable _ _ _ Hreach) as [Hok Hph].
  split; [|split].
  - intros Hen. cbn [step]. rewrite Hen. eexists. split; [reflexivity|].
    unfold cancel_button_enabled in Hen.
    apply andb_true_iff in Hen. destruct Hen as [Hen Hc].
    apply andb_true_iff in Hen. destruct Hen as [Hm Hp].
    pose proof (processing_has_project s Hph Hp) as Hproj.
    unfold handleCancel, request, setError, setIsCancelling, polling.
    rewrite Hproj, Hp. cbn [negb orb]. repeat (project_fields; rewrite ?Hm).
    repeat split; reflexivity.
  - intros n pid v s' Hn Hstep.
    pose proof (respond_inv _ _ _ _ _ _ _ Hn Hstep) as E. cbn [resume] in E.
    set (s0 := with_pending (remove_nth n (pending s)) s) in E.
    assert (timers_ok s0) as H0 by (subst s0; auto with timers).
    destruct (cancel_success_effect v s0 H0) as (Hp & _ & _ & _ & _ & _ & Hd).
    rewrite <- E in Hp, Hd. split; [exact Hp|]. intros Hm. now apply Hd.
  - intros n pid err s' Hn Hstep Hm.
    pose proof (respond_inv _ _ _ _ _ _ _ Hn Hstep) as E.
    cbn [resume then_cancelTakeoff] in E.
    unfold setIsCancelling, setError in E.
    repeat (project_fields; rewrite ?Hm in E). subst s'. project_fields.
    split; [reflexivity|].
    split; [apply error_text_truthy; discriminate|].
    repeat (split; [reflexivity|]).
    intros Hp. unfold cancel_button_enabled. project_fields. rewrite Hm, Hp.
    split; [reflexivity|]. cbn [step]. unfold cancel_button_enabled.
    project_fields. rewrite Hm, Hp. cbn [andb negb]. eexists. split; [reflexivity|].
    pose proof (processing_has_project s Hph Hp) as Hproj.
    unfold handleCancel, request, setError, setIsCancelling.
    repeat (project_fields; rewrite ?Hm, ?Hproj, ?Hp; cbn [negb orb]).
    apply in_app_iff. right. left. reflexivity.
Qed.

(** C4. When the primary status request of a poll tick fails, the tick asks
    the secondary source before giving up; when that fails too (or answers
    nothing), the failure is only logged: no error is shown and the polling
    loop is left as it was.  Whatever the ticks observe, once more than five
    minutes have passed since the loop was installed, polling has stopped:
    the clean-up timer set for [5 * 60 * 1000] ms stops it when it fires. *)
Theorem failed_polls_fall_back_and_polling_is_bounded (s : State) :
  reachable StringToNumber ObjectToNumber s ->
  (forall (n : nat) (err : Failure) (s' : State),
      nth_error (pending s) n = Some ReqPollProject ->
      step StringToNumber ObjectToNumber s (Respond n (Rejected err)) = Some s' ->
      pending s' = remove_nth n (pending s) ++ [ReqPollTakeoff]
      /\ timers s' = timers s /\ polling s' = polling s /\ error s' = error s)
  /\ (forall (n : nat) (o : Outcome) (s' : State),
        nth_error (pending s) n = Some ReqPollTakeoff ->
        (exists err, o = Rejected err) \/ o = Resolved VNull ->
        step StringToNumber ObjectToNumber s (Respond n o) = Some s' ->
        s' = console_write (ConsoleLog "Polling for project status...")
               (with_pending (remove_nth n (pending s)) s)
        /\ timers s' = timers s /\ polling s' = polling s /\ error s' = error s)
  /\ (forall (n : nat) (pid v : Value) (s1 : State),
        nth_error (pending s) n = Some (ReqProcessTakeoff pid) ->
        step StringToNumber ObjectToNumber s (Respond n (Resolved v)) = Some s1 ->
        polling s1 = true
        /\ forall (evs : list Event) (s2 : State),
             run StringToNumber ObjectToNumber s1 evs = Some s2 ->
             (now s + 5 * 60 * 1000 < now s2)%Z ->
             polling s2 = false)
  /\ (forall (i : nat) (t : Timer) (s' : State),
        find_timer i s = Some t -> callback t = ForceStop ->
        step StringToNumber ObjectToNumber s (TimerFires i) = Some s' ->
        polling s' = false).
Proof.
  intros Hreach.
  pose proof (invariant_reachable _ _ _ Hreach) as Hinv.
  split; [|split; [|split]].
  - intros n err s' Hn Hstep.
    rewrite (respond_inv _ _ _ _ _ _ _ Hn Hstep). cbn. auto.
  - intros n o s' Hn Ho Hstep.
    rewrite (respond_inv _ _ _ _ _ _ _ Hn Hstep).
    destruct Ho as [[err ->]| ->]; cbn; auto.
  - intros n pid v s1 Hn Hstep.
    destruct (polling_installed _ _ s s1 n pid v Hinv Hn Hstep) as (Hst & Hb & Hp).
    split; [exact Hp|]. intros evs s2 Hrun Hlate.
    pose proof (invariant_step _ _ _ _ _ Hinv Hstep) as Hinv1.
    destruct (bounded_run _ _ _ evs s1 s2 Hinv1 Hst Hb Hrun) as ([Hok2 _] & _ & Hb2).
    eapply bounded_expired; [exact Hok2|exact Hb2|]. lia.
  - intros i t s' Hf Hcb Hstep. cbn [step] in Hstep. rewrite Hf in Hstep.
    destruct (due t <=? now s)%Z; [|discriminate]. injection Hstep as <-.
    destruct (find_timer_In _ _ _ Hf) as [Hin _].
    assert (timers_ok (rearm t s)) as Hok by (destruct Hinv; now apply timers_ok_rearm).
    rewrite Hcb. cbn [run_callback]. unfold polling.
    rewrite (clear_if_polling_timers _ Hok). apply filter_not_poll_no_polling.
Qed.

End Claims.

(* ------------------------------------------------------------------ *)
(** ** The properties on a session of project 42 *)

Module Session42.

Import Examples.

Lemma reachable_after (evs : list Event) (s : State) :
  run' (mount "42" plans) evs = Some s ->
  reachable decimal_StringToNumber plain_ObjectToNumber s.
Proof. intros H. exists "42", plans, evs. exact H. Defined.

(** The first poll tick is answered 'completed' while nothing else is in
    flight: one navigation, and never another. *)
Lemma terminal_success_stops_polling_and_navigates_witness :
  let s' := state_after (first_tick ++ [Respond 0 completed]) in
  polling s' = false
  /\ scheduled_navigations s' = 1%nat
  /\ forall (evs : list Event) (s'' : State),
       run' s' evs = Some s'' -> scheduled_navigations s'' = 1%nat.
Proof.
  intros s'.
  pose proof (terminal_success_stops_polling_and_navigates
                decimal_StringToNumber plain_ObjectToNumber
                (state_after first_tick) s' 0 ReqPollProject (status_reply "completed"))
    as H.
  assert (reachable decimal_StringToNumber plain_ObjectToNumber (state_after first_tick))
    as H1 by (apply (reachable_after first_tick); vm_compute; reflexivity).
  assert (nth_error (pending (state_after first_tick)) 0 = Some ReqPollProject)
    as H2 by (vm_compute; reflexivity).
  assert (is_success (status_of (status_reply "completed")) = true)
    as H3 by (vm_compute; reflexivity).
  assert (step decimal_StringToNumber plain_ObjectToNumber (state_after first_tick)
            (Respond 0 (Resolved (status_reply "completed"))) = Some s')
    as H4 by (vm_compute; reflexivity).
  destruct (H H1 H2 (or_introl eq_refl) H3 H4) as (Hp & _ & Hc & Hnever).
  assert (scheduled_navigations s' = 1%nat) as Hone by (vm_compute; reflexivity).
  assert (pending s' = []) as Hnil by (vm_compute; reflexivity).
  split; [exact Hp|]. split; [exact Hone|].
  intros evs s'' Hrun. rewrite (Hnever Hnil evs s'' Hrun). exact Hone.
Defined.

(** C2 as stated fails: with two poll requests in flight, both answered
    'completed', the first answer stops polling and schedules a navigation,
    and the second answer schedules a second one; both are performed. *)
Lemma second_navigation_is_scheduled :
  let s1 := state_after (two_in_flight ++ [Respond 0 completed]) in
  let s2 := state_after (two_in_flight ++ [Respond 0 completed; Respond 0 completed]) in
  let s3 := state_after (two_in_flight
                           ++ [Respond 0 completed; Respond 0 completed;
                               Elapse 2000; TimerFires 3; TimerFires 4]) in
  run' (mount "42" plans) (two_in_flight ++ [Respond 0 completed; Respond 0 completed;
                                             Elapse 2000; TimerFires 3; TimerFires 4])
  = Some s3
  /\ polling s1 = false
  /\ scheduled_navigations s1 = 1%nat
  /\ scheduled_navigations s2 = 2%nat
  /\ map callback (navigation_timers s2)
     = [NavigateTo "/projects/42"; NavigateTo "/projects/42"]
  /\ navigations s3 = ["/projects/42"; "/projects/42"].
Proof. vm_compute. repeat split; reflexivity. Qed.

(** The first poll tick is answered 'failed'. *)
Lemma terminal_failure_stops_polling_without_navigation_witness :
  let s' := state_after (first_tick ++ [Respond 0 (Resolved (status_reply "failed"))]) in
  polling s' = false
  /\ error s' = VStr "Processing failed"
  /\ navigations s' = []
  /\ scheduled_navigations s' = 0%nat.
Proof.
  intros s'.
  pose proof (terminal_failure_stops_polling_without_navigation
                decimal_StringToNumber plain_ObjectToNumber
                (state_after first_tick) s' 0 ReqPollProject (status_reply "failed"))
    as H.
  assert (reachable decimal_StringToNumber plain_ObjectToNumber (state_after first_tick))
    as H1 by (apply (reachable_after first_tick); vm_compute; reflexivity).
  assert (nth_error (pending (state_after first_tick)) 0 = Some ReqPollProject)
    as H2 by (vm_compute; reflexivity).
  assert (is_failure (status_of (status_reply "failed")) = true)
    as H3 by (vm_compute; reflexivity).
  assert (step decimal_StringToNumber plain_ObjectToNumber (state_after first_tick)
            (Respond 0 (Resolved (status_reply "failed"))) = Some s')
    as H4 by (vm_compute; reflexivity).
  assert (mounted (state_after first_tick) = true) as Hm by (vm_compute; reflexivity).
  destruct (H H1 H2 (or_introl eq_refl) H3 H4) as (Hp & He & _ & Hn & Hc & _).
  specialize (He Hm). vm_compute in He, Hn, Hc.
  split; [exact Hp|]. split; [exact He|]. split; [exact Hn|exact Hc].
Defined.

(** The first poll tick finds 'processing' with a result object. *)
Lemma processing_with_result_stops_polling_and_navigates_witness :
  let s' := state_after (first_tick ++ [Respond 0 (Resolved processing_with_result)]) in
  polling s' = false /\ scheduled_navigations s' = 1%nat.
Proof.
  intros s'.
  pose proof (processing_with_result_stops_polling_and_navigates
                decimal_StringToNumber plain_ObjectToNumber
                (state_after first_tick) s' 0 processing_with_result) as H.
  assert (reachable decimal_StringToNumber plain_ObjectToNumber (state_after first_tick))
    as H1 by (apply (reachable_after first_tick); vm_compute; reflexivity).
  assert (nth_error (pending (state_after first_tick)) 0 = Some ReqPollProject)
    as H2 by (vm_compute; reflexivity).
  assert (strict_eq_str (status_of processing_with_result) "processing" = true)
    as H3 by (vm_compute; reflexivity).
  assert (step decimal_StringToNumber plain_ObjectToNumber (state_after first_tick)
            (Respond 0 (Resolved processing_with_result)) = Some s')
    as H4 by (vm_compute; reflexivity).
  assert (truthy (member processing_with_result "takeoff_result") = true)
    as H5 by (vm_compute; reflexivity).
  destruct (H H1 H2 H3 H4) as (Hthen & _).
  destruct (Hthen H5) as (Hp & _ & Hc). vm_compute in Hc.
  split; [exact Hp|exact Hc].
Defined.

(** C8 as stated fails: [takeoff_result] is [false], which is not null, and
    the tick neither stops polling nor schedules a navigation. *)
Lemma non_null_result_may_keep_polling :
  let s' := state_after (first_tick ++ [Respond 0 (Resolved processing_without_result)]) in
  run' (mount "42" plans) (first_tick ++ [Respond 0 (Resolved processing_without_result)])
  = Some s'
  /\ status_of processing_without_result = VStr "processing"
  /\ member processing_without_result "takeoff_result" <> VNull
  /\ member processing_without_result "takeoff_result" <> VUndefined
  /\ polling s' = true
  /\ scheduled_navigations s' = 0%nat.
Proof. vm_compute. repeat split; try reflexivity; discriminate. Qed.

(** The cancellation request of a confirmed cancel succeeds. *)
Lemma successful_cancel_navigates_to_results_witness :
  let s' := state_after (cancel_confirmed ++ [Respond 0 (Resolved VNull)]) in
  map callback (navigation_timers s') = [NavigateTo "/projects/42"]
  /\ map due (navigation_timers s') = [2000%Z]
  /\ scheduled_navigations s' = 1%nat.
Proof.
  intros s'.
  pose proof (successful_cancel_navigates_to_results
                decimal_StringToNumber plain_ObjectToNumber
                (state_after cancel_confirmed) s' 0 (VStr "p42") VNull) as H.
  assert (reachable decimal_StringToNumber plain_ObjectToNumber
            (state_after cancel_confirmed))
    as H1 by (apply (reachable_after cancel_confirmed); vm_compute; reflexivity).
  assert (nth_error (pending (state_after cancel_confirmed)) 0
          = Some (ReqCancelTakeoff (VStr "p42")))
    as H2 by (vm_compute; reflexivity).
  assert (step decimal_StringToNumber plain_ObjectToNumber (state_after cancel_confirmed)
            (Respond 0 (Resolved VNull)) = Some s')
    as H3 by (vm_compute; reflexivity).
  destruct (H H1 H2 H3) as (Ht & Hc & _).
  unfold navigation_timers. rewrite Ht. vm_compute in Hc. vm_compute.
  repeat split; reflexivity || exact Hc.
Defined.

(** The cancel is confirmed while polling runs; its request then fails. *)
Lemma confirmed_cancel_requests_then_stops_witness :
  let s := state_after started in
  let s' := state_after (cancel_confirmed ++ [Respond 0 (Rejected network_error)]) in
  (exists s1 : State,
      step' s (ClickCancel true) = Some s1
      /\ pending s1 = [ReqCancelTakeoff (VStr "p42")]
      /\ polling s1 = true)
  /\ error s' = VStr "Network Error"
  /\ progressState s' = initialProgress
  /\ cancel_button_enabled s' = true.
Proof.
  intros s s'.
  assert (reachable decimal_StringToNumber plain_ObjectToNumber s)
    as Hr by (apply (reachable_after started); vm_compute; reflexivity).
  assert (reachable decimal_StringToNumber plain_ObjectToNumber
            (state_after cancel_confirmed))
    as Hr' by (apply (reachable_after cancel_confirmed); vm_compute; reflexivity).
  destruct (confirmed_cancel_requests_then_stops
              decimal_StringToNumber plain_ObjectToNumber s Hr) as (Hclick & _).
  destruct (confirmed_cancel_requests_then_stops
              decimal_StringToNumber plain_ObjectToNumber (state_after cancel_confirmed)
              Hr') as (_ & _ & Hfail).
  assert (cancel_button_enabled s = true) as Hen by (vm_compute; reflexivity).
  destruct (Hclick Hen) as (s1 & Hs1 & Hp1 & _ & Hpoll & _).
  assert (nth_error (pending (state_after cancel_confirmed)) 0
          = Some (ReqCancelTakeoff (VStr "p42")))
    as H2 by (vm_compute; reflexivity).
  assert (step decimal_StringToNumber plain_ObjectToNumber (state_after cancel_confirmed)
            (Respond 0 (Rejected network_error)) = Some s')
    as H3 by (vm_compute; reflexivity).
  assert (mounted (state_after cancel_confirmed) = true) as Hm by (vm_compute; reflexivity).
  assert (isProcessing (state_after cancel_confirmed) = true)
    as Hp by (vm_compute; reflexivity).
  destruct (Hfail 0%nat (VStr "p42") network_error s' H2 H3 Hm)
    as (He & _ & Hpr & _ & _ & Hretry).
  destruct (Hretry Hp) as (Hbutton & _).
  vm_compute in Hp1, Hpoll, He, Hpr.
  split.
  - exists s1. split; [exact Hs1|]. split; [exact Hp1|exact Hpoll].
  - split; [exact He|]. split; [exact Hpr|exact Hbutton].
Defined.

(** C5 as stated fails: after the confirmed cancel the polling interval is
    still alive, and the next tick issues a status request while the
    cancellation request is pending. *)
Lemma polling_continues_after_confirmed_cancel :
  let s := state_after cancel_confirmed in
  let s' := state_after (cancel_confirmed ++ [Elapse 3000; TimerFires 1]) in
  run' (mount "42" plans) (cancel_confirmed ++ [Elapse 3000; TimerFires 1]) = Some s'
  /\ polling s = true
  /\ pending s = [ReqCancelTakeoff (VStr "p42")]
  /\ polling s' = true
  /\ pending s' = [ReqCancelTakeoff (VStr "p42"); ReqPollProject]
  /\ stage (progressState s') = VStr "upload".
Proof. vm_compute. repeat split; reflexivity. Qed.

(** Both status requests of the first tick fail; and after five minutes of
    unanswered ticks the loop is gone. *)
Lemma failed_polls_fall_back_and_polling_is_bounded_witness :
  let s1 := state_after (first_tick ++ [Respond 0 (Rejected network_error)]) in
  let s2 := state_after (first_tick ++ [Respond 0 (Rejected network_error);
                                        Respond 0 (Rejected network_error)]) in
  pending s1 = [ReqPollTakeoff]
  /\ polling s2 = true /\ error s2 = VNull
  /\ polling (state_after (started ++ five_minutes)) = false.
Proof.
  intros s1 s2.
  assert (reachable decimal_StringToNumber plain_ObjectToNumber (state_after first_tick))
    as Hr by (apply (reachable_after first_tick); vm_compute; reflexivity).
  assert (reachable decimal_StringToNumber plain_ObjectToNumber s1)
    as Hr1 by (apply (reachable_after (first_tick ++ [Respond 0 (Rejected network_error)]));
               vm_compute; reflexivity).
  assert (reachable decimal_StringToNumber plain_ObjectToNumber (mount "42" plans))
    as Hr0 by (apply (reachable_after []); vm_compute; reflexivity).
  destruct (failed_polls_fall_back_and_polling_is_bounded
              decimal_StringToNumber plain_ObjectToNumber _ Hr) as (Hprimary & _).
  destruct (failed_polls_fall_back_and_polling_is_bounded
              decimal_StringToNumber plain_ObjectToNumber _ Hr1) as (_ & Hboth & _).
  destruct (failed_polls_fall_back_and_polling_is_bounded
              decimal_StringToNumber plain_ObjectToNumber _ Hr0) as (_ & _ & Hbound & _).
  assert (nth_error (pending (state_after first_tick)) 0 = Some ReqPollProject)
    as A1 by (vm_compute; reflexivity).
  assert (step decimal_StringToNumber plain_ObjectToNumber (state_after first_tick)
            (Respond 0 (Rejected network_error)) = Some s1)
    as A2 by (vm_compute; reflexivity).
  destruct (Hprimary 0%nat network_error s1 A1 A2) as (Hp & _).
  assert (nth_error (pending s1) 0 = Some ReqPollTakeoff)
    as B1 by (vm_compute; reflexivity).
  assert (step decimal_StringToNumber plain_ObjectToNumber s1
            (Respond 0 (Rejected network_error)) = Some s2)
    as B2 by (vm_compute; reflexivity).
  destruct (Hboth 0%nat (Rejected network_error) s2 B1
              (or_introl (ex_intro _ network_error eq_refl)) B2)
    as (_ & _ & Hpoll & Herr).
  assert (nth_error (pending (mount "42" plans)) 0
          = Some (ReqProcessTakeoff (VStr "p42")))
    as C1 by (vm_compute; reflexivity).
  assert (step decimal_StringToNumber plain_ObjectToNumber (mount "42" plans)
            (Respond 0 (Resolved VNull)) = Some (state_after started))
    as C2 by (vm_compute; reflexivity).
  destruct (Hbound 0%nat (VStr "p42") VNull (state_after started) C1 C2) as (_ & Hlate).
  assert (run decimal_StringToNumber plain_ObjectToNumber (state_after started)
            five_minutes = Some (state_after (started ++ five_minutes)))
    as D1 by (vm_compute; reflexivity).
  assert (now (mount "42" plans) + 5 * 60 * 1000
          < now (state_after (started ++ five_minutes)))%Z
    as D2 by (vm_compute; reflexivity).
  vm_compute in Hp, Hpoll, Herr.
  split; [exact Hp|]. split; [exact Hpoll|]. split; [exact Herr|].
  exact (Hlate five_minutes _ D1 D2).
Defined.

End Session42.

(* ------------------------------------------------------------------ *)
(** * Further properties *)

(** ** The message effect *)

Section MoreEffectFacts.

Variable StringToNumber : string -> Number.
Variable ObjectToNumber : Value -> Number.

Lemma num_geb_refl (a : Number) : is_nan a = false -> num_geb a a = true.
Proof.
  destruct a; cbn; try discriminate; intros _; try reflexivity.
  unfold num_geb; cbn. rewrite negb_involutive. apply Qle_bool_iff. lra.
Qed.

Lemma js_or_truthy_right (a b : Value) : truthy b = true -> truthy (js_or a b) = true.
Proof. intros H. unfold js_or. destruct (truthy a) eqn:E; [exact E|exact H]. Qed.

Lemma js_or_absorb (a b : Value) : js_or a (js_or a b) = js_or a b.
Proof. unfold js_or. destruct (truthy a); reflexivity. Qed.

(** X1. Handing the same packet to the effect twice gives the same display
    as handing it once: React may run a state updater more than once. *)
Theorem message_effect_is_idempotent (m : Value) (p : Progress) :
  lastMessage_effect StringToNumber ObjectToNumber m
    (lastMessage_effect StringToNumber ObjectToNumber m p)
  = lastMessage_effect StringToNumber ObjectToNumber m p.
Proof.
  unfold lastMessage_effect. destruct (is_progress_message m); [|reflexivity].
  unfold progress_updater.
  set (npv := newProgressValue StringToNumber ObjectToNumber m).
  assert (forall x y : Value,
             js_or (js_or x (js_or (js_or x y) (VStr "Processing...")))
                   (VStr "Processing...")
             = js_or (js_or x y) (VStr "Processing...")) as Hmsg.
  { intros x y. unfold js_or.
    destruct (truthy x) eqn:Hx; rewrite ?Hx; [reflexivity|].
    destruct (truthy y) eqn:Hy; rewrite ?Hy; reflexivity. }
  destruct (num_geb npv (progress p)) eqn:Hge; cbn [stage progress message].
  - assert (is_nan npv = false) as Hn.
    { unfold num_geb in Hge. destruct (is_nan npv); [discriminate Hge|reflexivity]. }
    rewrite (num_geb_refl npv Hn). now rewrite js_or_absorb, Hmsg.
  - rewrite Hge. now rewrite js_or_absorb, Hmsg.
Qed.







End MoreEffectFacts.

(** ** The hook *)

Section MoreListenerFacts.

Import UseWebSocket.

Variable JSON_parse : string -> Completion Value.

Lemma onmessage_cases (data : string) (h : Hook) :
  (exists v, JSON_parse data = Normal v
             /\ onmessage JSON_parse data h = Normal (setLastMessage v h))
  \/ (exists e, JSON_parse data = Throw e
                /\ onmessage JSON_parse data h
                   = Normal (console_write
                               (ConsoleError "Error parsing WebSocket message:" e) h)).
Proof.
  unfold onmessage, try_catch, bind. destruct (JSON_parse data) as [v|e]; eauto.
Qed.

(** X4. Whatever frames arrive and whatever [JSON.parse] does with them,
    the listener handles them all without throwing; afterwards
    [lastMessage] is the value of the last frame that could be decoded (the
    old one if none could), [connected] is untouched, and the console has
    one more error for each frame that could not. *)
Theorem listener_keeps_the_last_decoded_frame (frames : list string) (h : Hook) :
  exists h' : Hook,
    listen JSON_parse frames h = Normal h'
    /\ connected h' = connected h
    /\ List.length (console h')
       = (List.length (console h) + List.length (Socket.malformed JSON_parse frames))%nat
    /\ (Socket.malformed JSON_parse frames = frames -> lastMessage h' = lastMessage h)
    /\ (forall (before after : list string) (data : string) (v : Value),
           frames = before ++ data :: after ->
           JSON_parse data = Normal v ->
           Socket.malformed JSON_parse after = after ->
           lastMessage h' = v).
Proof.
  revert h. induction frames as [|f frames IH]; intros h.
  - exists h. cbn. repeat split; auto.
    intros before after data v E. destruct before; discriminate E.
  - cbn [listen]. unfold Socket.malformed. cbn [filter].
    destruct (onmessage_cases f h) as [(v & Hp & Hm)|(e & Hp & Hm)];
      rewrite Hm, Hp; cbn [bind].
    + destruct (IH (setLastMessage v h)) as (h' & Hl & Hc & Hn & Hall & Hlast).
      exists h'. split; [exact Hl|]. split; [exact Hc|]. split; [exact Hn|]. split.
      * intros E. exfalso.
        assert (List.length (Socket.malformed JSON_parse frames)
                <= List.length frames)%nat as Hle by apply filter_length_le.
        unfold Socket.malformed in Hle. rewrite E in Hle.
        cbn [List.length] in Hle. lia.
      * intros before after data w E Hw Hafter.
        destruct before as [|b before]; cbn in E; injection E as -> ->.
        -- rewrite (Hall Hafter). cbn. congruence.
        -- eapply Hlast; eauto.
    + destruct (IH (console_write (ConsoleError "Error parsing WebSocket message:" e) h))
        as (h' & Hl & Hc & Hn & Hall & Hlast).
      exists h'. split; [exact Hl|]. split; [exact Hc|]. split.
      * rewrite Hn. unfold Socket.malformed, console_write. cbn [console List.length].
        rewrite length_app. cbn [List.length]. lia.
      * split.
        -- intros E. injection E as E. exact (Hall E).
        -- intros before after data w E Hw Hafter.
           destruct before as [|b before]; cbn in E; injection E as -> ->.
           ++ congruence.
           ++ eapply Hlast; eauto.
Qed.

End MoreListenerFacts.

Section SocketFacts.

Import UseWebSocket.

Variable JSON_parse : string -> Completion Value.
Variable JSON_stringify : Value -> string.

Lemma handle_returns (e : Socket.Event) (c : Socket.Connection) :
  exists c', Socket.handle JSON_parse JSON_stringify e c = Normal c'.
Proof.
  destruct e; cbn; try (destruct (Socket.ws c); cbn; eauto); eauto.
  destruct (onmessage_returns JSON_parse data (Socket.hook c)) as [h' ->]. cbn. eauto.
Qed.

Lemma run_returns (evs : list Socket.Event) :
  forall c, exists c', Socket.run JSON_parse JSON_stringify evs c = Normal c'.
Proof.
  induction evs as [|e evs IH]; intros c; cbn; [eauto|].
  destruct (handle_returns e c) as [c1 ->]. cbn. apply IH.
Qed.

Lemma run_app (evs1 evs2 : list Socket.Event) :
  forall c,
    Socket.run JSON_parse JSON_stringify (evs1 ++ evs2) c
    = bind (Socket.run JSON_parse JSON_stringify evs1 c)
        (Socket.run JSON_parse JSON_stringify evs2).
Proof.
  induction evs1 as [|e evs1 IH]; intros c; cbn; [reflexivity|].
  destruct (handle_returns e c) as [c1 ->]. cbn. apply IH.
Qed.

Lemma traffic_keeps_connection (e : Socket.Event) (c c' : Socket.Connection) :
  Socket.is_traffic e = true ->
  Socket.handle JSON_parse JSON_stringify e c = Normal c' ->
  connected (Socket.hook c') = connected (Socket.hook c)
  /\ Socket.ws c' = Socket.ws c.
Proof.
  destruct e; try discriminate; intros _; cbn.
  - destruct (Socket.ws c) eqn:Hw; [|intros [= <-]; auto].
    destruct (onmessage_cases JSON_parse data (Socket.hook c))
      as [(v & _ & ->)|(e & _ & ->)]; cbn; intros [= <-]; cbn; auto.
  - unfold Socket.sendMessage. destruct (_ && _); intros [= <-]; cbn; auto.
Qed.

Lemma traffic_run_keeps_connection (evs : list Socket.Event) :
  forall c c',
    forallb Socket.is_traffic evs = true ->
    Socket.run JSON_parse JSON_stringify evs c = Normal c' ->
    connected (Socket.hook c') = connected (Socket.hook c)
    /\ Socket.ws c' = Socket.ws c.
Proof.
  induction evs as [|e evs IH]; intros c c' Hall Hrun; cbn in *.
  - injection Hrun as <-. auto.
  - apply andb_true_iff in Hall. destruct Hall as [He Hall].
    destruct (handle_returns e c) as [c1 Hc1]. rewrite Hc1 in Hrun. cbn in Hrun.
    destruct (traffic_keeps_connection e c c1 He Hc1) as [E1 E2].
    destruct (IH c1 c' Hall Hrun) as [E3 E4]. split; congruence.
Qed.

(** X5. The [connected] flag the hook exposes is decided by the last
    event of the socket that is an opening, a closing or an error: true
    after an opening, false after a closing or an error, whatever frames
    arrive and whatever is sent in between or afterwards. *)
Theorem connected_reports_the_last_socket_event
    (before after : list Socket.Event) (e : Socket.Event) (c : Socket.Connection) :
  Socket.ws c = true ->
  Socket.is_traffic e = false ->
  forallb Socket.is_traffic after = true ->
  exists c' : Socket.Connection,
    Socket.run JSON_parse JSON_stringify (before ++ e :: after) c = Normal c'
    /\ connected (Socket.hook c') = Socket.is_opening e.
Proof.
  intros Hws He Hafter.
  destruct (run_returns (before ++ e :: after) c) as [c' Hrun].
  exists c'. split; [exact Hrun|].
  rewrite run_app in Hrun.
  destruct (run_returns before c) as [c1 Hc1]. rewrite Hc1 in Hrun.
  cbn [bind Socket.run] in Hrun.
  destruct (handle_returns e c1) as [c2 Hc2]. rewrite Hc2 in Hrun. cbn [bind] in Hrun.
  destruct (traffic_run_keeps_connection after c2 c' Hafter Hrun) as [-> _].
  assert (Socket.ws c1 = true) as Hws1.
  { clear - Hc1 Hws. revert c c1 Hc1 Hws.
    induction before as [|x before IH]; intros c c1 Hc1 Hws; cbn in Hc1.
    - now injection Hc1 as <-.
    - destruct (handle_returns x c) as [cx Hx]. rewrite Hx in Hc1. cbn in Hc1.
      apply (IH cx c1 Hc1).
      destruct x; cbn in Hx; rewrite ?Hws in Hx;
        try (unfold Socket.sendMessage in Hx; destruct (_ && _) in Hx);
        try (destruct (onmessage_returns JSON_parse data (Socket.hook c)) as [h' Hh];
             rewrite Hh in Hx);
        cbn in Hx; injection Hx as <-; cbn; exact Hws. }
  destruct e; try discriminate He; cbn in Hc2; rewrite Hws1 in Hc2; cbn in Hc2;
    injection Hc2 as <-; reflexivity.
Qed.

(** X6. While the hook reports disconnected, [sendMessage] hands nothing to
    the socket: before the opening, after a closing or an error, or when no
    socket was created for want of a URL, what the component sends is
    dropped, and the hook stays disconnected until the socket opens. *)
Theorem nothing_is_sent_while_disconnected
    (evs : list Socket.Event) (c : Socket.Connection) :
  connected (Socket.hook c) = false ->
  Socket.ws c = false \/ forallb (fun e => negb (Socket.is_opening e)) evs = true ->
  exists c' : Socket.Connection,
    Socket.run JSON_parse JSON_stringify evs c = Normal c'
    /\ Socket.sent c' = Socket.sent c
    /\ connected (Socket.hook c') = false.
Proof.
  revert c. induction evs as [|e evs IH]; intros c Hc Hcase; cbn [Socket.run].
  - exists c. auto.
  - destruct (handle_returns e c) as [c1 Hc1]. rewrite Hc1. cbn [bind].
    assert (Socket.sent c1 = Socket.sent c
            /\ connected (Socket.hook c1) = false
            /\ Socket.ws c1 = Socket.ws c) as (Es & Ec & Ew).
    { destruct e; cbn in Hc1.
      - destruct (Socket.ws c) eqn:Hw.
        + destruct Hcase as [H|H]; [discriminate H|]. cbn in H. discriminate H.
        + injection Hc1 as <-. auto.
      - destruct (Socket.ws c) eqn:Hw; [|injection Hc1 as <-; auto].
        destruct (onmessage_cases JSON_parse data (Socket.hook c))
          as [(v & _ & E)|(x & _ & E)]; rewrite E in Hc1; cbn in Hc1;
          injection Hc1 as <-; cbn; auto.
      - destruct (Socket.ws c) eqn:Hw; injection Hc1 as <-; cbn; auto.
      - destruct (Socket.ws c) eqn:Hw; injection Hc1 as <-; cbn; auto.
      - unfold Socket.sendMessage in Hc1. rewrite Hc, andb_false_r in Hc1.
        injection Hc1 as <-. auto. }
    destruct (IH c1 Ec) as (c' & Hrun & Hs & Hd).
    + destruct Hcase as [H|H]; [left; congruence|right].
      cbn in H. apply andb_true_iff in H. tauto.
    + exists c'. split; [exact Hrun|]. split; [congruence|exact Hd].
Qed.

End SocketFacts.

(** ** The stage indicators and the percentage written in the bar *)

Section RenderFacts.

Import Render.

Lemma findIndex_from_none {A : Type} (f : A -> bool) (l : list A) :
  forall i, (forall x, In x l -> f x = false) -> findIndex_from f l i = (-1)%Z.
Proof.
  induction l as [|x l IH]; intros i H; cbn; [reflexivity|].
  rewrite (H x (or_introl eq_refl)). apply IH. intros y Hy. apply H. now right.
Qed.

Lemma strict_eq_str_true (v : Value) (k : string) :
  strict_eq_str v k = true <-> v = VStr k.
Proof.
  destruct v; cbn; try (split; [discriminate|discriminate]).
  rewrite String.eqb_eq. split; [now intros ->|now intros [= ->]].
Qed.

Lemma in_STAGES (s : Stage) :
  In s STAGES -> exists i, (i < 8)%nat /\ nth_error STAGES i = Some s.
Proof.
  intros H. apply In_nth_error in H. destruct H as [i Hi]. exists i. split; [|exact Hi].
  change 8%nat with (List.length STAGES). apply nth_error_Some. congruence.
Qed.

(** X7. When the displayed stage is one of the keys of the table, the
    index found is its position, the stages lit are exactly those up to it,
    it alone is marked current, and the text names it. *)
Theorem known_stage_lights_the_stages_up_to_it (p : Progress) (i : nat) (s : Stage) :
  nth_error STAGES i = Some s ->
  stage p = VStr (key s) ->
  currentStageIndex p = Z.of_nat i
  /\ (forall j : nat, isActive j p = true <-> (j <= i)%nat)
  /\ (forall s' : Stage, In s' STAGES -> (isCurrent s' p = true <-> s' = s))
  /\ stage_label p = label s.
Proof.
  intros Hi Hs.
  assert (currentStageIndex p = Z.of_nat i /\ stage_label p = label s) as [Hc Hl].
  { unfold stage_label, currentStageIndex, findIndex. rewrite Hs.
    do 8 (destruct i as [|i]; [injection Hi as <-; split; reflexivity|]).
    destruct i; discriminate Hi. }
  split; [exact Hc|]. split; [|split; [|exact Hl]].
  - intros j. unfold isActive. rewrite Hc, Z.leb_le. lia.
  - intros s' Hin. unfold isCurrent. rewrite Hs.
    split.
    + intros H. apply strict_eq_str_true in H. injection H as H.
      destruct (in_STAGES s' Hin) as (j & _ & Hj).
      do 8 (destruct i as [|i];
            [injection Hi as <-;
             do 8 (destruct j as [|j];
                   [injection Hj as <-; try reflexivity; discriminate H|]);
             destruct j; discriminate Hj|]).
      destruct i; discriminate Hi.
    + intros ->. apply strict_eq_str_true. reflexivity.
Qed.

(** X8. When the displayed stage is none of the keys of the table (the
    stage 'cancelled' that a cancel sets is none), the index is -1 and not
    0: no stage is lit, none is current, and the text falls back to
    'Processing'. *)
Theorem unknown_stage_lights_nothing (p : Progress) :
  (forall s : Stage, In s STAGES -> stage p <> VStr (key s)) ->
  currentStageIndex p = (-1)%Z
  /\ (forall j : nat, isActive j p = false)
  /\ (forall s : Stage, In s STAGES -> isCurrent s p = false)
  /\ stage_label p = "Processing".
Proof.
  intros H.
  assert (forall s, In s STAGES -> strict_eq_str (stage p) (key s) = false) as Hf.
  { intros s Hs. destruct (strict_eq_str (stage p) (key s)) eqn:E; [|reflexivity].
    apply strict_eq_str_true in E. now destruct (H s Hs). }
  assert (currentStageIndex p = (-1)%Z) as Hc.
  { unfold currentStageIndex, findIndex. now rewrite findIndex_from_none. }
  split; [exact Hc|]. split; [|split].
  - intros j. unfold isActive. rewrite Hc. apply Z.leb_gt. lia.
  - exact Hf.
  - unfold stage_label. now rewrite Hc.
Qed.

(** X9. For a displayed percentage in [0, 100], no number is written in
    the bar up to 10, and above 10 the number written is a whole number
    between 10 and 100, the nearest to the percentage. *)
Theorem percent_label_is_a_whole_percentage (p : Progress) (x : Q) :
  progress p = Fin x ->
  (0 <= x <= 100)%Q ->
  ((x <= 10)%Q -> percent_label p = None)
  /\ ((10 < x)%Q ->
      exists n : Z,
        percent_label p = Some (Fin (inject_Z n))
        /\ (10 <= n <= 100)%Z
        /\ (inject_Z n - (1 # 2) <= x)%Q /\ (x < inject_Z n + (1 # 2))%Q).
Proof.
  intros Hp Hx. unfold percent_label. rewrite Hp. cbn [num_ltb Math_round].
  split.
  - intros Hle. apply Qle_bool_iff in Hle. now rewrite Hle.
  - intros Hgt.
    destruct (Qle_bool x 10) eqn:E; [apply Qle_bool_iff in E; lra|]. cbn [negb].
    exists (Qfloor (x + (1 # 2))). split; [reflexivity|].
    pose proof (Qfloor_le (x + (1 # 2))) as Hlo.
    pose proof (Qlt_floor (x + (1 # 2))) as Hhi.
    rewrite inject_Z_plus in Hhi.
    assert (10 <= Qfloor (x + (1 # 2)))%Z as H10.
    { change 10%Z with (Qfloor (inject_Z 10)). apply Qfloor_resp_le.
      change (inject_Z 10) with 10%Q. lra. }
    assert (Qfloor (x + (1 # 2)) <= 100)%Z as H100.
    { change 100%Z with (Qfloor (201 # 2)). apply Qfloor_resp_le. lra. }
    change (inject_Z 1) with 1%Q in Hhi.
    split; [lia|]. split; lra.
Qed.

End RenderFacts.

(** ** Addresses *)

Section UrlFacts.

Import Urls.

Lemma replace_absent (pat rep s : string) :
  occurs pat s = false -> replace pat rep s = s.
Proof.
  induction s as [|c s IH]; cbn [occurs replace]; intros H;
    apply orb_false_iff in H; destruct H as [Hp Hr]; rewrite Hp; [reflexivity|].
  now rewrite IH.
Qed.

Lemma prefix_append (p r : string) : String.prefix p (p ++ r) = true.
Proof.
  induction p as [|c p IH]; cbn; [now destruct r|].
  destruct (Ascii.ascii_dec c c); [exact IH|congruence].
Qed.

Lemma skip_append (p r : string) : skip (String.length p) (p ++ r) = r.
Proof. induction p as [|c p IH]; cbn; [reflexivity|exact IH]. Qed.

Lemma replace_at_head (p rep r : string) :
  replace p rep (p ++ r) = (rep ++ r)%string.
Proof.
  assert (forall s, replace p rep s
                    = if String.prefix p s then (rep ++ skip (String.length p) s)%string
                      else match s with
                           | EmptyString => EmptyString
                           | String c rest => String c (replace p rep rest)
                           end) as Hunfold by (intros s; destruct s; reflexivity).
  now rewrite Hunfold, prefix_append, skip_append.
Qed.

Lemma http_to_ws (host : string) :
  occurs "https://" host = false ->
  replace "https://" "wss://" (replace "http://" "ws://" ("http://" ++ host))
  = ("ws://" ++ host)%string.
Proof.
  intros H. rewrite (replace_at_head "http://" "ws://" host). cbn.
  now rewrite (replace_absent "https://" "wss://" host H).
Qed.

Lemma https_to_wss (host : string) :
  occurs "http://" host = false ->
  replace "https://" "wss://" (replace "http://" "ws://" ("https://" ++ host))
  = ("wss://" ++ host)%string.
Proof.
  intros H.
  assert (replace "http://" "ws://" ("https://" ++ host) = ("https://" ++ host)%string)
    as ->.
  { cbn. now rewrite (replace_absent "http://" "ws://" host H). }
  apply replace_at_head.
Qed.

(** X10. The socket is opened on the host the API client talks to,
    whatever the environment sets (the two defaults included): an API
    address http://host gives the socket address ws://host/ws/client_<id>,
    and https://host gives wss://host/ws/client_<id>, for a host that holds
    no further scheme. *)
Theorem socket_address_follows_the_api_address
    (env : option string) (host id : string) :
  (API_BASE_URL env = ("http://" ++ host)%string ->
   occurs "https://" host = false ->
   socket_url env id = ("ws://" ++ host ++ "/ws/client_" ++ id)%string)
  /\ (API_BASE_URL env = ("https://" ++ host)%string ->
      occurs "http://" host = false ->
      socket_url env id = ("wss://" ++ host ++ "/ws/client_" ++ id)%string).
Proof.
  assert (forall a b c : string, ((a ++ b) ++ c = a ++ b ++ c)%string) as Happ.
  { intros a b c. induction a as [|x a IH]; cbn; [reflexivity|now rewrite IH]. }
  unfold socket_url, wsUrl, API_BASE_URL.
  destruct env as [u|]; [destruct (String.eqb u "") eqn:Hu|].
  - split; intros E; [|discriminate E]. injection E as <-. reflexivity.
  - split; intros -> Hocc.
    + rewrite (http_to_ws host Hocc), Happ. reflexivity.
    + rewrite (https_to_wss host Hocc), Happ. reflexivity.
  - split; intros E; [|discriminate E]. injection E as <-. reflexivity.
Qed.

(** X11. An API address that starts with neither http:// nor https:// and
    holds neither is taken as it is: the socket address then has no ws
    scheme. *)
Theorem address_without_scheme_is_kept (u id : string) :
  u <> "" ->
  occurs "http://" u = false -> occurs "https://" u = false ->
  socket_url (Some u) id = (u ++ "/ws/client_" ++ id)%string.
Proof.
  intros Hu H1 H2. unfold socket_url, wsUrl.
  apply String.eqb_neq in Hu. rewrite Hu.
  now rewrite (replace_absent _ _ u H1), (replace_absent _ _ u H2).
Qed.

End UrlFacts.

(** ** Choosing trades *)

Section TradeFacts.

Import NewProject.

Lemma includes_In (x : string) (l : list string) : includes x l = true <-> In x l.
Proof.
  unfold includes. rewrite existsb_exists. split.
  - intros (y & Hy & E). apply String.eqb_eq in E. now subst.
  - intros H. exists x. split; [exact H|apply String.eqb_refl].
Qed.

Lemma In_toggleTrade (x t : string) (l : list string) :
  In t (toggleTrade x l) <-> (t = x /\ ~ In x l) \/ (t <> x /\ In t l).
Proof.
  unfold toggleTrade. destruct (includes x l) eqn:E.
  - apply includes_In in E. rewrite filter_In, negb_true_iff, String.eqb_neq. tauto.
  - assert (~ In x l) as Hn by (rewrite <- includes_In; congruence).
    rewrite in_app_iff. cbn.
    destruct (string_dec t x) as [->|Hne]; [tauto|].
    split; [intros [H|[H|[]]]; [tauto|congruence]|tauto].
Qed.

Lemma NoDup_toggleTrade (x : string) (l : list string) :
  NoDup l -> NoDup (toggleTrade x l).
Proof.
  intros H. unfold toggleTrade. destruct (includes x l) eqn:E.
  - now apply NoDup_filter.
  - assert (~ In x l) as Hn by (rewrite <- includes_In; congruence).
    apply NoDup_app; [exact H|repeat constructor; intros []|].
    intros y Hy [<-|[]]. contradiction.
Qed.

(** X12. Clicking a trade selects it when it was not selected and
    unselects it when it was; the other trades keep their state, and a
    selection without duplicates stays without duplicates. *)
Theorem toggling_a_trade_flips_it_alone (x : string) (l : list string) :
  (In x (toggleTrade x l) <-> ~ In x l)
  /\ (forall t, t <> x -> (In t (toggleTrade x l) <-> In t l))
  /\ (NoDup l -> NoDup (toggleTrade x l)).
Proof.
  split; [|split].
  - rewrite In_toggleTrade. tauto.
  - intros t Ht. rewrite In_toggleTrade. tauto.
  - apply NoDup_toggleTrade.
Qed.

Lemma selection_snoc (clicks : list string) (x : string) :
  selection (clicks ++ [x]) = toggleTrade x (selection clicks).
Proof. unfold selection. now rewrite fold_left_app. Qed.

(** X13. Whatever the clicks, the selection sent with the form has no
    duplicate, and a trade is in it exactly when it was clicked an odd
    number of times. *)
Theorem selection_counts_clicks_by_parity (clicks : list string) :
  NoDup (selection clicks)
  /\ forall t : string,
       In t (selection clicks) <-> Nat.odd (count_occ string_dec clicks t) = true.
Proof.
  induction clicks as [|x clicks [IHn IHp]] using rev_ind.
  - split; [constructor|]. intros t. cbn. split; [intros []|discriminate].
  - rewrite selection_snoc. split; [now apply NoDup_toggleTrade|].
    intros t. rewrite In_toggleTrade, count_occ_app. cbn [count_occ].
    destruct (string_dec x t) as [->|Hne].
    + rewrite Nat.add_1_r, Nat.odd_succ, <- Nat.negb_odd, negb_true_iff.
      rewrite IHp.
      destruct (Nat.odd (count_occ string_dec clicks t)); intuition congruence.
    + rewrite Nat.add_0_r, <- IHp. split; [intros [[E _]|[_ H]]; congruence|].
      intros H. right. split; [congruence|exact H].
Qed.

(** X14. Clicking the same trade twice leaves the set of selected trades as
    it was: the same list when the trade was not selected, the same trades
    with this one moved to the end when it was. *)
Theorem toggling_twice_restores_the_selection (x : string) (l : list string) :
  NoDup l ->
  Permutation (toggleTrade x (toggleTrade x l)) l
  /\ (~ In x l -> toggleTrade x (toggleTrade x l) = l).
Proof.
  intros Hnd.
  assert (~ In x l -> toggleTrade x (toggleTrade x l) = l) as Hsame.
  { intros Hn. unfold toggleTrade at 2.
    assert (includes x l = false) as E.
    { destruct (includes x l) eqn:E; [apply includes_In in E; contradiction|reflexivity]. }
    rewrite E. unfold toggleTrade.
    assert (includes x (l ++ [x]) = true) as E'
      by (apply includes_In, in_app_iff; right; now left).
    rewrite E', filter_app. cbn. rewrite String.eqb_refl. cbn. rewrite app_nil_r.
    apply forallb_filter_id. apply forallb_forall. intros t Ht.
    apply negb_true_iff, String.eqb_neq. congruence. }
  split; [|exact Hsame].
  destruct (in_dec string_dec x l) as [Hin|Hn]; [|now rewrite Hsame].
  apply NoDup_Permutation; [now apply NoDup_toggleTrade, NoDup_toggleTrade|exact Hnd|].
  intros t. rewrite !In_toggleTrade.
  destruct (string_dec t x) as [->|Hne]; tauto.
Qed.

End TradeFacts.

(* ------------------------------------------------------------------ *)
(** ** Sessions of the processing view *)

Lemma at_most_one (A : Type) (l : list A) :
  NoDup l -> (forall a b, In a l -> In b l -> a = b) -> (List.length l <= 1)%nat.
Proof.
  intros Hnd Heq. destruct l as [|a [|b l]]; cbn; try lia.
  exfalso. inversion Hnd as [|? ? Hnotin _]; subst. apply Hnotin.
  rewrite (Heq a b); [now left|now left|right; now left].
Qed.

Section SessionFacts.

Import Trace.

Variable StringToNumber : string -> Number.
Variable ObjectToNumber : Value -> Number.

(** X15. At any moment of a session at most one polling interval is
    alive; it ticks every 3 seconds, its identifier is the one kept in
    [pollingIntervalRef], and it is never overdue. *)
Theorem at_most_one_polling_interval (s : State) :
  reachable StringToNumber ObjectToNumber s ->
  (List.length (filter is_poll (timers s)) <= 1)%nat
  /\ forall t, In t (timers s) -> is_poll t = true ->
       period t = Some 3000%Z
       /\ pollingIntervalRef s = Some (tid t)
       /\ (now s <= due t)%Z.
Proof.
  intros Hr. destruct (invariant_reachable _ _ _ Hr) as [(Hall & Hnd & _) _].
  rewrite Forall_forall in Hall.
  assert (forall t, In t (timers s) -> is_poll t = true ->
                    period t = Some 3000%Z
                    /\ pollingIntervalRef s = Some (tid t)
                    /\ (now s <= due t)%Z) as Hpoll.
  { intros t Ht Hp. destruct (Hall t Ht) as (Hdue & _ & Href & _ & Hper).
    rewrite Hp in Hper. destruct (Href Hp) as [Hr' _]. auto. }
  split; [|exact Hpoll].
  apply at_most_one.
  - apply NoDup_filter. eapply NoDup_map_inv. exact Hnd.
  - intros a b Ha Hb. apply filter_In in Ha, Hb.
    destruct Ha as [Ha Hpa], Hb as [Hb Hpb].
    apply (NoDup_map_inj tid (timers s)); auto.
    destruct (Hpoll a Ha Hpa) as (_ & Ea & _), (Hpoll b Hb Hpb) as (_ & Eb & _).
    congruence.
Qed.

Lemma start_pending (s : State) (n : nat) (pid : Value) :
  invariant s -> nth_error (pending s) n = Some (ReqProcessTakeoff pid) ->
  truthy (project s) = true
  /\ polling s = false
  /\ forallb is_late (remove_nth n (pending s)) = true.
Proof.
  intros [_ Hph] Hn.
  destruct (nth_error_remove_nth _ _ _ Hn) as [l1 [l2 [E1 E2]]]. rewrite E2.
  unfold phase_ok in Hph. rewrite E1 in Hph.
  destruct (truthy (project s)) eqn:Hp.
  - destruct Hph as (Hload & Hle & Hone).
    rewrite forallb_app in Hload. cbn [forallb] in Hload.
    apply andb_true_iff in Hload. destruct Hload as [Hl1 Hl2].
    apply andb_true_iff in Hl2. destruct Hl2 as [_ Hl2].
    rewrite starts_app in Hle, Hone. unfold starts in Hle, Hone. cbn in Hle, Hone.
    split; [reflexivity|]. split; [apply Hone; lia|].
    apply late_requests.
    + now rewrite forallb_app, Hl1, Hl2.
    + rewrite starts_app. unfold starts. lia.
  - destruct Hph as ([H|H] & _).
    + destruct l1; discriminate H.
    + destruct l1 as [|x [|y l1]]; discriminate H.
Qed.

Lemma stopped_step (s s' : State) (e : Event) :
  invariant s -> started s -> polling s = false ->
  step StringToNumber ObjectToNumber s e = Some s' ->
  started s' /\ polling s' = false.
Proof.
  intros [Hok Hph] Hst Hpoll Hstep.
  destruct e as [dt|i|n o|c|m|]; cbn [step] in Hstep.
  - destruct (_ && _) in Hstep; [|discriminate]. injection Hstep as <-.
    split; [exact Hst|exact Hpoll].
  - destruct (find_timer i s) as [t|] eqn:Hf; [|discriminate].
    destruct (due t <=? now s)%Z; [|discriminate]. injection Hstep as <-.
    destruct (find_timer_In _ _ _ Hf) as [Hin _].
    assert (timers_ok (rearm t s)) as Hok' by now apply timers_ok_rearm.
    pose proof (settles_run_callback (callback t) _ Hok') as Hs.
    destruct (rearm_frame t s) as (E1 & E2 & _).
    split.
    + eapply started_settles; [|exact Hs]. unfold started. now rewrite E1, E2.
    + eapply settles_polling; [exact Hs|]. now apply rearm_polling.
  - destruct (nth_error (pending s) n) as [r|] eqn:Hn; [|discriminate].
    injection Hstep as <-.
    destruct (nth_error_remove_nth _ _ _ Hn) as [l1 [l2 [E1 E2]]]. rewrite E2.
    destruct Hst as [Hp Hl]. rewrite E1, forallb_app in Hl. cbn [forallb] in Hl.
    apply andb_true_iff in Hl. destruct Hl as [Hl1 Hl2].
    apply andb_true_iff in Hl2. destruct Hl2 as [Hr Hl2].
    set (s0 := with_pending (l1 ++ l2) s).
    assert (settles s0 (resume r o s0)) as Hs.
    { apply settles_resume; [subst s0; auto with timers|].
      unfold is_late in Hr. destruct r; try discriminate Hr; reflexivity. }
    split.
    + eapply started_settles; [|exact Hs]. subst s0. unfold started. cbn.
      now rewrite Hp, forallb_app, Hl1, Hl2.
    + eapply settles_polling; [exact Hs|exact Hpoll].
  - destruct (cancel_button_enabled s); [|discriminate]. injection Hstep as <-.
    pose proof (settles_handleCancel c s) as Hs.
    split; [eapply started_settles|eapply settles_polling]; eauto.
  - destruct (mounted s); [|discriminate]. injection Hstep as <-.
    assert (settles s (setProgress (lastMessage_effect StringToNumber ObjectToNumber m) s))
      as Hs by auto with settle.
    split; [eapply started_settles|eapply settles_polling]; eauto.
  - destruct (mounted s); [|discriminate]. injection Hstep as <-.
    pose proof (settles_unmount s Hok) as Hs.
    split; [eapply started_settles|eapply settles_polling]; eauto.
Qed.

Lemma stopped_run (evs : list Event) :
  forall s s' : State,
    invariant s -> started s -> polling s = false ->
    run StringToNumber ObjectToNumber s evs = Some s' ->
    invariant s' /\ started s' /\ polling s' = false.
Proof.
  induction evs as [|e evs IH]; intros s s' Hi Hst Hp Hr; cbn in Hr.
  - injection Hr as <-. auto.
  - destruct (step StringToNumber ObjectToNumber s e) as [s1|] eqn:Hs; [|discriminate].
    destruct (stopped_step s s1 e Hi Hst Hp Hs) as [Hst1 Hp1].
    exact (IH s1 s' (invariant_step _ _ _ _ _ Hi Hs) Hst1 Hp1 Hr).
Qed.

(** X16. When the request that starts processing fails, the view shows a
    non-empty error (the detail of the answer, else the message of the
    error, else 'Failed to start processing') and leaves the processing
    state; no polling interval is installed, then or at any later moment
    of the session. *)
Theorem failed_start_reports_and_never_polls
    (s s1 : State) (n : nat) (pid : Value) (err : Failure) :
  reachable StringToNumber ObjectToNumber s ->
  nth_error (pending s) n = Some (ReqProcessTakeoff pid) ->
  step StringToNumber ObjectToNumber s (Respond n (Rejected err)) = Some s1 ->
  (mounted s = true ->
   error s1 = error_text err "Failed to start processing"
   /\ truthy (error s1) = true
   /\ isProcessing s1 = false)
  /\ timers s1 = timers s
  /\ forall evs s2,
       run StringToNumber ObjectToNumber s1 evs = Some s2 -> polling s2 = false.
Proof.
  intros Hr Hn Hstep. pose proof (invariant_reachable _ _ _ Hr) as Hi.
  pose proof (invariant_step _ _ _ _ _ Hi Hstep) as Hi1.
  destruct (start_pending s n pid Hi Hn) as (Hp & Hpoll & Hlate).
  rewrite (respond_inv _ _ _ _ _ _ _ Hn Hstep) in *.
  cbn [resume then_processTakeoff] in *.
  set (s0 := setIsProcessing false
               (setError (error_text err "Failed to start processing")
                  (with_pending (remove_nth n (pending s)) s))) in *.
  assert (timers s0 = timers s /\ project s0 = project s
          /\ pending s0 = remove_nth n (pending s)) as (Ht & Hpr & Hpe).
  { subst s0. unfold setIsProcessing, setError.
    destruct (mounted s) eqn:Hm; repeat (project_fields; rewrite ?Hm); auto. }
  split; [|split; [exact Ht|]].
  - intros Hm. subst s0. unfold setIsProcessing, setError. project_fields.
    rewrite Hm. project_fields. rewrite Hm. project_fields.
    repeat split. apply error_text_truthy. discriminate.
  - intros evs s2 Hrun.
    assert (started s0) as Hst by (unfold started; now rewrite Hpr, Hpe).
    assert (polling s0 = false) as Hpoll0 by (unfold polling; now rewrite Ht).
    now destruct (stopped_run evs s0 s2 Hi1 Hst Hpoll0 Hrun) as (_ & _ & H).
Qed.

(** X17. When the user leaves the page, the clean-up clears the polling
    interval and nothing else: the other timers and the requests in flight
    stay.  If the start request had been answered by then, polling never
    begins again; if it is still in flight, its answer installs the polling
    interval on the page that has been left. *)
Theorem leaving_clears_the_polling_interval_only (s s' : State) :
  reachable StringToNumber ObjectToNumber s ->
  step StringToNumber ObjectToNumber s Leave = Some s' ->
  mounted s' = false
  /\ polling s' = false
  /\ timers s' = filter not_poll (timers s)
  /\ pending s' = pending s
  /\ (started s ->
      forall evs s2,
        run StringToNumber ObjectToNumber s' evs = Some s2 -> polling s2 = false)
  /\ (forall n pid v s2,
        nth_error (pending s) n = Some (ReqProcessTakeoff pid) ->
        step StringToNumber ObjectToNumber s' (Respond n (Resolved v)) = Some s2 ->
        mounted s2 = false /\ polling s2 = true).
Proof.
  intros Hr Hstep. pose proof (invariant_reachable _ _ _ Hr) as Hi.
  pose proof (invariant_step _ _ _ _ _ Hi Hstep) as Hi'.
  cbn [step] in Hstep. destruct (mounted s) eqn:Hm; [|discriminate].
  injection Hstep as <-.
  assert (unmount s = with_mounted false (with_timers (filter not_poll (timers s)) s))
    as E by (unfold unmount; rewrite Hm; now rewrite (clear_if_polling_eq s (proj1 Hi))).
  rewrite E in *. project_fields.
  assert (polling (with_mounted false (with_timers (filter not_poll (timers s)) s))
          = false) as Hpoll by (unfold polling; cbn; apply filter_not_poll_no_polling).
  set (u := with_mounted false (with_timers (filter not_poll (timers s)) s)) in *.
  repeat split; auto.
  - intros Hst evs s2 Hrun.
    now destruct (stopped_run evs u s2 Hi' Hst Hpoll Hrun) as (_ & _ & H).
  - rewrite (respond_inv _ _ u s2 n _ _ H H0). reflexivity.
  - now destruct (polling_installed _ _ u s2 n pid v Hi' H H0) as (_ & _ & Hp).
Qed.

(** *** Code that calls [navigate] on no path *)

Lemma navigation_is_no_poll (t : Timer) : is_navigation t = true -> is_poll t = false.
Proof. unfold is_navigation, is_poll. now destruct (callback t). Qed.

Lemma steady_refl (s : State) : steady s s.
Proof. unfold steady. auto. Qed.

Lemma steady_trans (s1 s2 s3 : State) :
  steady s1 s2 -> steady s2 s3 -> steady s1 s3.
Proof.
  intros (I1 & N1 & T1 & K1) (I2 & N2 & T2 & K2). unfold steady.
  split; [congruence|]. split; [congruence|]. split.
  - intros t Ht Hn. destruct (T2 t Ht Hn) as [H|H]; [auto|].
    right. rewrite H. unfold results_path. now rewrite I1.
  - auto.
Qed.

Lemma steady_frame (s s' : State) :
  id s' = id s -> navigations s' = navigations s -> timers s' = timers s ->
  steady s s'.
Proof. intros E1 E2 E3. unfold steady. rewrite E1, E2, E3. auto. Qed.

Ltac steady_setter :=
  intros; eapply steady_trans; [eassumption|];
  apply steady_frame;
  unfold setProject, setProgress, setIsProcessing, setIsCancelling, setError,
    console_write, request;
  try match goal with |- context [mounted ?s] => destruct (mounted s) end;
  reflexivity.

Lemma steady_setProject v s s1 : steady s s1 -> steady s (setProject v s1).
Proof. steady_setter. Qed.

Lemma steady_setProgress f s s1 : steady s s1 -> steady s (setProgress f s1).
Proof. steady_setter. Qed.

Lemma steady_setIsProcessing b s s1 : steady s s1 -> steady s (setIsProcessing b s1).
Proof. steady_setter. Qed.

Lemma steady_setIsCancelling b s s1 : steady s s1 -> steady s (setIsCancelling b s1).
Proof. steady_setter. Qed.

Lemma steady_setError v s s1 : steady s s1 -> steady s (setError v s1).
Proof. steady_setter. Qed.

Lemma steady_console_write e s s1 : steady s s1 -> steady s (console_write e s1).
Proof. steady_setter. Qed.

Lemma steady_request r s s1 : steady s s1 -> steady s (request r s1).
Proof. steady_setter. Qed.

Lemma steady_with_mounted b s s1 : steady s s1 -> steady s (with_mounted b s1).
Proof. steady_setter. Qed.

Lemma steady_with_now z s s1 : steady s s1 -> steady s (with_now z s1).
Proof. steady_setter. Qed.

Lemma steady_with_pending l s s1 : steady s s1 -> steady s (with_pending l s1).
Proof. steady_setter. Qed.

Lemma steady_with_ref r s s1 : steady s s1 -> steady s (with_pollingIntervalRef r s1).
Proof. steady_setter. Qed.

Lemma steady_new_timer p cb delay s s1 :
  (forall path, cb = NavigateTo path -> path = results_path s1) ->
  steady s s1 -> steady s (new_timer p cb delay s1).
Proof.
  intros Hcb H. eapply steady_trans; [exact H|].
  unfold steady, new_timer; cbn. repeat split.
  - intros t Ht Hn. apply in_app_iff in Ht. destruct Ht as [Ht|[<-|[]]]; [auto|].
    right. cbn. unfold is_navigation in Hn. cbn in Hn.
    destruct cb as [|path|]; try discriminate Hn. now rewrite (Hcb path eq_refl).
  - intros t Ht _. apply in_app_iff. now left.
Qed.

Lemma steady_navigate_later s s1 : steady s s1 -> steady s (navigate_later s1).
Proof.
  intros H. unfold navigate_later, setTimeout. apply steady_new_timer; [|exact H].
  now intros path [= <-].
Qed.

Lemma steady_pollForCompletion s s1 : steady s s1 -> steady s (pollForCompletion s1).
Proof.
  intros H. unfold pollForCompletion, setTimeout, setInterval.
  apply steady_new_timer; [discriminate|]. apply steady_with_ref.
  apply steady_new_timer; [discriminate|exact H].
Qed.

Lemma steady_filter_not_poll (s s' : State) :
  id s' = id s -> navigations s' = navigations s ->
  timers s' = filter not_poll (timers s) ->
  steady s s'.
Proof.
  intros E1 E2 E3. unfold steady. rewrite E1, E2, E3. repeat split.
  - intros t Ht _. apply filter_In in Ht. now left.
  - intros t Ht Hp. apply filter_In. split; [exact Ht|now apply navigation_not_poll].
Qed.

Lemma steady_clearInterval_ref s s1 :
  timers_ok s1 -> steady s s1 -> steady s (clearInterval_ref s1).
Proof.
  intros Hok H. eapply steady_trans; [exact H|].
  apply steady_filter_not_poll;
    [| |now apply clearInterval_ref_timers];
    unfold clearInterval_ref; destruct (pollingIntervalRef s1); reflexivity.
Qed.

Lemma steady_clear_if_polling s s1 :
  timers_ok s1 -> steady s s1 -> steady s (clear_if_polling s1).
Proof.
  intros Hok H. eapply steady_trans; [exact H|].
  apply steady_filter_not_poll;
    [| |now apply clear_if_polling_timers];
    unfold clear_if_polling, clearInterval_ref;
    destruct (ref_truthy s1); destruct (pollingIntervalRef s1); reflexivity.
Qed.

Create HintDb steadiness.

#[local] Hint Resolve steady_refl steady_setProject steady_setProgress
  steady_setIsProcessing steady_setIsCancelling steady_setError
  steady_console_write steady_request steady_with_mounted steady_with_now
  steady_with_pending steady_with_ref steady_navigate_later
  steady_pollForCompletion steady_clearInterval_ref steady_clear_if_polling
  : steadiness.

Lemma steady_stop_and_navigate s : timers_ok s -> steady s (stop_and_navigate s).
Proof. intros H. unfold stop_and_navigate. auto with steadiness. Qed.

Lemma steady_stop_with_error st s : timers_ok s -> steady s (stop_with_error st s).
Proof. intros H. unfold stop_with_error. auto with steadiness. Qed.

Lemma steady_unmount s : timers_ok s -> steady s (unmount s).
Proof. intros H. unfold unmount. destruct (mounted s); auto with steadiness. Qed.

Lemma steady_startProcessing s s1 : steady s s1 -> steady s (startProcessing s1).
Proof.
  intros H. unfold startProcessing.
  destruct (negb (truthy (project s1))); auto with steadiness.
Qed.

Lemma steady_project_effects s s1 : steady s s1 -> steady s (project_effects s1).
Proof.
  intros H. unfold project_effects.
  repeat match goal with |- context [if ?b then _ else _] => destruct b end;
    auto using steady_startProcessing with steadiness.
Qed.

Lemma steady_handleCancel c s : steady s (handleCancel c s).
Proof.
  unfold handleCancel.
  repeat match goal with |- context [if ?b then _ else _] => destruct b end;
    auto with steadiness.
Qed.

Lemma steady_resume (r : Request) (o : Outcome) (s : State) :
  timers_ok s -> steady s (resume r o s).
Proof.
  intros H. destruct r, o; cbn [resume].
  - unfold then_loadProject.
    destruct (mounted s && negb (same_value v (project s)));
      auto using steady_project_effects with steadiness.
  - cbn. auto with steadiness.
  - cbn. auto with steadiness.
  - cbn. auto with steadiness.
  - cbn. unfold on_project_status.
    repeat match goal with |- context [if ?b then _ else _] => destruct b end;
      auto using steady_stop_and_navigate, steady_stop_with_error with steadiness.
  - cbn. auto with steadiness.
  - cbn. unfold on_takeoff_status, both_failed.
    destruct (get v "status");
    repeat match goal with |- context [if ?b then _ else _] => destruct b end;
      auto using steady_stop_and_navigate, steady_stop_with_error with steadiness.
  - cbn. unfold both_failed. auto with steadiness.
  - cbn. destruct (ref_truthy s); auto 7 with steadiness.
  - cbn. auto with steadiness.
Qed.

Lemma targets_steady (s s' : State) :
  targets_results s -> steady s s' -> targets_results s'.
Proof.
  intros [Ht Hn] (E1 & E2 & T & _). unfold targets_results, results_path in *.
  rewrite E1, E2. split; [|exact Hn].
  intros t p Hin Hcb.
  destruct (T t Hin) as [H|H].
  - unfold is_navigation. now rewrite Hcb.
  - eauto.
  - congruence.
Qed.

Lemma steady_scheduled (s s' : State) :
  timers_ok s -> steady s s' ->
  (scheduled_navigations s <= scheduled_navigations s')%nat.
Proof.
  intros (_ & Hnd & _) (_ & E & _ & K). unfold scheduled_navigations, navigation_timers.
  rewrite E. apply Nat.add_le_mono_r. apply NoDup_incl_length.
  - apply NoDup_filter. eapply NoDup_map_inv. exact Hnd.
  - intros t Ht. apply filter_In in Ht. destruct Ht as [Ht Hnav].
    apply filter_In. split; [|exact Hnav]. now apply K.
Qed.

(** The timer [t] fires: what [rearm] leaves of the timers. *)
Lemma rearm_navigation_timers (t : Timer) (s : State) :
  timers_ok s -> In t (timers s) ->
  id (rearm t s) = id s
  /\ (forall u, In u (timers (rearm t s)) ->
                exists w, In w (timers s) /\ callback w = callback u)
  /\ (List.length (navigation_timers (rearm t s))
      + (if is_navigation t then 1 else 0))%nat
     = List.length (navigation_timers s).
Proof.
  intros (Hall & Hnd & _) Hin. rewrite Forall_forall in Hall.
  destruct (Hall t Hin) as (_ & _ & _ & _ & Hper).
  unfold rearm, navigation_timers. destruct (is_poll t) eqn:Hp; rewrite Hper.
  - cbn [timers with_timers id]. split; [reflexivity|]. split.
    + intros u Hu. apply in_map_iff in Hu. destruct Hu as [w [<- Hw]].
      exists w. split; [exact Hw|]. now destruct (Nat.eqb (tid w) (tid t)).
    + assert (is_navigation t = false) as ->
        by (unfold is_navigation, is_poll in *; now destruct (callback t)).
      rewrite Nat.add_0_r. f_equal.
      assert (forall l, (forall u, In u l -> tid u = tid t -> u = t) ->
                filter is_navigation
                  (map (fun u => if Nat.eqb (tid u) (tid t)
                                 then {| tid := tid u; due := due u + 3000;
                                         period := period u; callback := callback u |}
                                 else u) l)
                = filter is_navigation l) as Hmap.
      { induction l as [|u l IH]; intros Hl; [reflexivity|]. cbn [map filter].
        rewrite IH by (intros; apply Hl; [now right|assumption]).
        destruct (Nat.eqb (tid u) (tid t)) eqn:E; [|reflexivity].
        apply Nat.eqb_eq in E. rewrite (Hl u (or_introl eq_refl) E).
        unfold is_navigation, is_poll in *. cbn. now destruct (callback t). }
      apply Hmap. intros u Hu E. now apply (NoDup_map_inj tid (timers s)).
  - unfold clearInterval. cbn [timers with_timers id]. split; [reflexivity|]. split.
    + intros u Hu. apply filter_In in Hu. exists u. tauto.
    + now apply filter_remove_tid.
Qed.

Lemma steady_rearm (t : Timer) (s : State) :
  timers_ok s -> In t (timers s) -> is_navigation t = false -> steady s (rearm t s).
Proof.
  intros Hok Hin Hnav. pose proof Hok as (_ & Hnd & _).
  destruct (rearm_frame t s) as (_ & _ & _ & _ & En & _).
  destruct (rearm_navigation_timers t s Hok Hin) as (Ei & _ & _).
  unfold steady. split; [exact Ei|]. split; [exact En|]. split.
  - intros u Hu Hn. left. unfold rearm, clearInterval in Hu.
    destruct (period t); cbn [timers with_timers] in Hu.
    + apply in_map_iff in Hu. destruct Hu as [w [E Hw]].
      destruct (Nat.eqb (tid w) (tid t)) eqn:Et; [|now subst u].
      apply Nat.eqb_eq in Et.
      pose proof (NoDup_map_inj tid _ _ _ Hnd Hw Hin Et) as ->.
      subst u. unfold is_navigation in *. cbn in Hn. congruence.
    + apply filter_In in Hu. tauto.
  - intros u Hu Hn. apply rearm_keeps; [exact Hu|]. intros E.
    pose proof (NoDup_map_inj tid _ _ _ Hnd Hu Hin E) as ->. congruence.
Qed.

(** One turn of the event loop calls [navigate] on the path of a due
    timer, or on none. *)
Lemma step_navigates (s s' : State) (e : Event) :
  invariant s ->
  step StringToNumber ObjectToNumber s e = Some s' ->
  steady s s'
  \/ exists t path,
       In t (timers s) /\ callback t = NavigateTo path
       /\ steady (with_navigations (navigations s ++ [path]) (rearm t s)) s'.
Proof.
  intros [Hok Hph] Hstep.
  destruct e as [dt|i|n o|c|m|]; cbn [step] in Hstep.
  - destruct (_ && _) in Hstep; [|discriminate]. injection Hstep as <-.
    left. auto with steadiness.
  - destruct (find_timer i s) as [t|] eqn:Hf; [|discriminate].
    destruct (due t <=? now s)%Z; [|discriminate]. injection Hstep as <-.
    destruct (find_timer_In _ _ _ Hf) as [Hin _].
    assert (timers_ok (rearm t s)) as Hok' by now apply timers_ok_rearm.
    destruct (callback t) as [|path|] eqn:Hcb; cbn [run_callback].
    + left. apply steady_request. apply steady_rearm; auto.
      unfold is_navigation. now rewrite Hcb.
    + right. exists t, path. split; [exact Hin|]. split; [exact Hcb|].
      destruct (rearm_frame t s) as (_ & _ & _ & _ & En & _). rewrite <- En.
      apply steady_unmount. auto with timers.
    + left. apply steady_clear_if_polling; [exact Hok'|].
      apply steady_rearm; auto. unfold is_navigation. now rewrite Hcb.
  - destruct (nth_error (pending s) n) as [r|] eqn:Hn; [|discriminate].
    injection Hstep as <-. left.
    eapply steady_trans; [|apply steady_resume; auto with timers].
    auto with steadiness.
  - destruct (cancel_button_enabled s); [|discriminate]. injection Hstep as <-.
    left. apply steady_handleCancel.
  - destruct (mounted s); [|discriminate]. injection Hstep as <-.
    left. auto with steadiness.
  - destruct (mounted s); [|discriminate]. injection Hstep as <-.
    left. now apply steady_unmount.
Qed.

Lemma targets_step (s s' : State) (e : Event) :
  invariant s -> targets_results s ->
  step StringToNumber ObjectToNumber s e = Some s' ->
  id s' = id s /\ targets_results s'.
Proof.
  intros Hi Ht Hstep.
  destruct (step_navigates s s' e Hi Hstep) as [Hs|(t & path & Hin & Hcb & Hs)].
  - split; [apply Hs|]. eapply targets_steady; eauto.
  - destruct (rearm_navigation_timers t s (proj1 Hi) Hin) as (Ei & Hcbs & _).
    destruct (rearm_frame t s) as (_ & _ & _ & _ & En & _).
    split; [destruct Hs as (E & _); rewrite E; exact Ei|].
    eapply targets_steady; [|exact Hs].
    destruct Ht as [Htm Hnv]. unfold targets_results, results_path in *.
    cbn [timers navigations id with_navigations]. rewrite Ei. split.
    + intros u p Hu Hp. destruct (Hcbs u Hu) as (w & Hw & E).
      apply (Htm w p Hw). congruence.
    + intros p Hp. apply in_app_iff in Hp. destruct Hp as [Hp|[<-|[]]]; [auto|].
      exact (Htm t path Hin Hcb).
Qed.

Lemma scheduled_step (s s' : State) (e : Event) :
  invariant s ->
  step StringToNumber ObjectToNumber s e = Some s' ->
  (scheduled_navigations s <= scheduled_navigations s')%nat
  /\ exists more, navigations s' = navigations s ++ more.
Proof.
  intros Hi Hstep.
  destruct (step_navigates s s' e Hi Hstep) as [Hs|(t & path & Hin & Hcb & Hs)].
  - split; [now apply steady_scheduled; [apply Hi|]|].
    exists []. rewrite app_nil_r. apply Hs.
  - destruct (rearm_navigation_timers t s (proj1 Hi) Hin) as (_ & _ & Hcount).
    assert (is_navigation t = true) as Hnav by (unfold is_navigation; now rewrite Hcb).
    rewrite Hnav in Hcount.
    assert (timers_ok (with_navigations (navigations s ++ [path]) (rearm t s))) as Hok
      by (apply timers_ok_with_navigations, timers_ok_rearm; [exact Hin|apply Hi]).
    pose proof (steady_scheduled _ _ Hok Hs) as Hle.
    split.
    + unfold scheduled_navigations, navigation_timers in *.
      cbn [timers navigations with_navigations] in Hle.
      rewrite length_app in Hle. cbn [List.length] in Hle. lia.
    + exists [path]. destruct Hs as (_ & E & _). exact E.
Qed.

(** X18. The only page the view ever navigates to is the results page of
    its own project: every navigation done and every navigation scheduled
    in a session opened at [/projects/id0/process] targets
    [/projects/id0]. *)
Theorem view_navigates_to_its_results_page_only
    (id0 : string) (state_project : Value) (evs : list Event) (s : State) :
  run StringToNumber ObjectToNumber (mount id0 state_project) evs = Some s ->
  (forall p, In p (navigations s) -> p = ("/projects/" ++ id0)%string)
  /\ (forall t p, In t (timers s) -> callback t = NavigateTo p ->
                  p = ("/projects/" ++ id0)%string).
Proof.
  assert (forall evs s0 s1,
             invariant s0 -> targets_results s0 ->
             run StringToNumber ObjectToNumber s0 evs = Some s1 ->
             id s1 = id s0 /\ targets_results s1) as Hrun.
  { clear. intros evs. induction evs as [|e evs IH]; intros s0 s1 Hi Ht Hr; cbn in Hr.
    - injection Hr as <-. auto.
    - destruct (step StringToNumber ObjectToNumber s0 e) as [s'|] eqn:Hs; [|discriminate].
      destruct (targets_step s0 s' e Hi Ht Hs) as [E Ht'].
      destruct (IH s' s1 (invariant_step _ _ _ _ _ Hi Hs) Ht' Hr) as [E' Ht1].
      split; [congruence|exact Ht1]. }
  intros Hr.
  assert (targets_results (mount id0 state_project) /\ id (mount id0 state_project) = id0)
    as [Ht0 Eid].
  { set (s0 := {| id := id0; now := 0; mounted := true;
                  project := js_or state_project VNull;
                  progressState := initialProgress;
                  isProcessing := false; isCancelling := false; error := VNull;
                  pollingIntervalRef := None; timers := []; next_timer := 1;
                  pending := []; navigations := []; console := [] |}).
    assert (steady s0 (mount id0 state_project)) as Hs
      by (apply steady_project_effects, steady_refl).
    split; [|apply Hs].
    eapply targets_steady; [|exact Hs]. split; intros; contradiction. }
  destruct (Hrun evs _ s (invariant_mount id0 state_project) Ht0 Hr) as [E [Htm Hnv]].
  unfold results_path in *. rewrite E, Eid in *. split; [exact Hnv|exact Htm].
Qed.

(** X19. Nothing revokes a navigation: along a session the number of
    navigations scheduled so far (waiting or done) never decreases, and the
    navigations done are only added to. *)
Theorem scheduled_navigations_are_never_revoked
    (s s' : State) (evs : list Event) :
  reachable StringToNumber ObjectToNumber s ->
  run StringToNumber ObjectToNumber s evs = Some s' ->
  (scheduled_navigations s <= scheduled_navigations s')%nat
  /\ exists more, navigations s' = navigations s ++ more.
Proof.
  intros Hr. pose proof (invariant_reachable _ _ _ Hr) as Hi. clear Hr.
  revert s Hi. induction evs as [|e evs IH]; intros s Hi Hrun; cbn in Hrun.
  - injection Hrun as <-. split; [lia|]. exists []. now rewrite app_nil_r.
  - destruct (step StringToNumber ObjectToNumber s e) as [s1|] eqn:Hs; [|discriminate].
    destruct (scheduled_step s s1 e Hi Hs) as [Hle (m1 & E1)].
    destruct (IH s1 (invariant_step _ _ _ _ _ Hi Hs) Hrun) as [Hle' (m2 & E2)].
    split; [lia|]. exists (m1 ++ m2). now rewrite E2, E1, app_assoc.
Qed.

(** *** Code that leaves the cancellation alone *)

Lemma untouched_refl (s : State) : untouched s s.
Proof. unfold untouched. auto. Qed.

Lemma untouched_trans (s1 s2 s3 : State) :
  untouched s1 s2 -> untouched s2 s3 -> untouched s1 s3.
Proof. unfold untouched. intros [A B] [C D]. split; congruence. Qed.

Lemma untouched_frame (s s' : State) :
  isCancelling s' = isCancelling s -> pending s' = pending s -> untouched s s'.
Proof. unfold untouched. intros -> ->. auto. Qed.

Ltac untouched_setter :=
  intros; eapply untouched_trans; [eassumption|];
  apply untouched_frame;
  unfold setProject, setProgress, setIsProcessing, setError, console_write,
    new_timer, clear_if_polling, clearInterval_ref, clearInterval;
  repeat match goal with
         | |- context [mounted ?s] => destruct (mounted s)
         | |- context [ref_truthy ?s] => destruct (ref_truthy s)
         | |- context [pollingIntervalRef ?s] => destruct (pollingIntervalRef s)
         end;
  reflexivity.

Lemma untouched_setProject v s s1 : untouched s s1 -> untouched s (setProject v s1).
Proof. untouched_setter. Qed.

Lemma untouched_setProgress f s s1 : untouched s s1 -> untouched s (setProgress f s1).
Proof. untouched_setter. Qed.

Lemma untouched_setIsProcessing b s s1 :
  untouched s s1 -> untouched s (setIsProcessing b s1).
Proof. untouched_setter. Qed.

Lemma untouched_setError v s s1 : untouched s s1 -> untouched s (setError v s1).
Proof. untouched_setter. Qed.

Lemma untouched_console_write e s s1 : untouched s s1 -> untouched s (console_write e s1).
Proof. untouched_setter. Qed.

Lemma untouched_with_mounted b s s1 : untouched s s1 -> untouched s (with_mounted b s1).
Proof. untouched_setter. Qed.

Lemma untouched_with_now z s s1 : untouched s s1 -> untouched s (with_now z s1).
Proof. untouched_setter. Qed.

Lemma untouched_with_navigations l s s1 :
  untouched s s1 -> untouched s (with_navigations l s1).
Proof. untouched_setter. Qed.

Lemma untouched_with_ref r s s1 :
  untouched s s1 -> untouched s (with_pollingIntervalRef r s1).
Proof. untouched_setter. Qed.

Lemma untouched_new_timer p cb delay s s1 :
  untouched s s1 -> untouched s (new_timer p cb delay s1).
Proof. untouched_setter. Qed.

Lemma untouched_clearInterval_ref s s1 :
  untouched s s1 -> untouched s (clearInterval_ref s1).
Proof. untouched_setter. Qed.

Lemma untouched_clear_if_polling s s1 :
  untouched s s1 -> untouched s (clear_if_polling s1).
Proof. untouched_setter. Qed.

Lemma untouched_request r s s1 :
  is_cancel r = false -> untouched s s1 -> untouched s (request r s1).
Proof.
  intros Hr H. eapply untouched_trans; [exact H|].
  unfold untouched, request, cancels; cbn. split; [reflexivity|].
  rewrite filter_app, length_app. cbn. rewrite Hr. cbn. lia.
Qed.

Lemma untouched_navigate_later s s1 : untouched s s1 -> untouched s (navigate_later s1).
Proof. intros H. unfold navigate_later, setTimeout. now apply untouched_new_timer. Qed.

Lemma untouched_pollForCompletion s s1 :
  untouched s s1 -> untouched s (pollForCompletion s1).
Proof.
  intros H. unfold pollForCompletion, setTimeout, setInterval.
  now apply untouched_new_timer, untouched_with_ref, untouched_new_timer.
Qed.

Create HintDb cancellation.

#[local] Hint Resolve untouched_refl untouched_setProject untouched_setProgress
  untouched_setIsProcessing untouched_setError untouched_console_write
  untouched_with_mounted untouched_with_now untouched_with_navigations
  untouched_with_ref untouched_new_timer untouched_clearInterval_ref
  untouched_clear_if_polling untouched_request untouched_navigate_later
  untouched_pollForCompletion : cancellation.

Lemma untouched_stop_and_navigate s : untouched s (stop_and_navigate s).
Proof. unfold stop_and_navigate. auto with cancellation. Qed.

Lemma untouched_stop_with_error st s : untouched s (stop_with_error st s).
Proof. unfold stop_with_error. auto with cancellation. Qed.

Lemma untouched_unmount s s1 : untouched s s1 -> untouched s (unmount s1).
Proof. intros H. unfold unmount. destruct (mounted s1); auto with cancellation. Qed.

Lemma untouched_project_effects s s1 :
  untouched s s1 -> untouched s (project_effects s1).
Proof.
  intros H. unfold project_effects, startProcessing.
  repeat match goal with |- context [if ?b then _ else _] => destruct b end;
    auto 6 with cancellation.
Qed.

Lemma untouched_rearm t s : untouched s (rearm t s).
Proof.
  apply untouched_frame; unfold rearm, clearInterval; now destruct (period t).
Qed.

Lemma untouched_run_callback cb s s1 :
  untouched s s1 -> untouched s (run_callback cb s1).
Proof.
  intros H. destruct cb; cbn [run_callback];
    auto using untouched_unmount with cancellation.
Qed.

Lemma untouched_resume (r : Request) (o : Outcome) (s : State) :
  is_cancel r = false -> untouched s (resume r o s).
Proof.
  intros Hr. destruct r, o; try discriminate Hr; cbn [resume].
  - unfold then_loadProject.
    destruct (mounted s && negb (same_value v (project s)));
      auto using untouched_project_effects with cancellation.
  - cbn. auto with cancellation.
  - cbn. auto with cancellation.
  - cbn. auto with cancellation.
  - cbn. unfold on_project_status.
    repeat match goal with |- context [if ?b then _ else _] => destruct b end;
      auto using untouched_stop_and_navigate, untouched_stop_with_error
        with cancellation.
  - cbn. auto with cancellation.
  - cbn. unfold on_takeoff_status, both_failed.
    destruct (get v "status");
    repeat match goal with |- context [if ?b then _ else _] => destruct b end;
      auto using untouched_stop_and_navigate, untouched_stop_with_error
        with cancellation.
  - cbn. unfold both_failed. auto with cancellation.
Qed.

Lemma cancel_ok_untouched (s s' : State) :
  cancel_ok s -> untouched s s' -> cancel_ok s'.
Proof. unfold cancel_ok, untouched. intros [A B] [-> ->]. auto. Qed.

Lemma cancels_remove (l : list Request) (n : nat) (r : Request) :
  nth_error l n = Some r ->
  (cancels (remove_nth n l) + (if is_cancel r then 1 else 0))%nat = cancels l.
Proof.
  intros Hn. destruct (nth_error_remove_nth _ _ _ Hn) as [l1 [l2 [E1 E2]]].
  rewrite E2, E1. unfold cancels. rewrite !filter_app, !length_app. cbn [filter].
  destruct (is_cancel r); cbn [List.length]; lia.
Qed.

Lemma cancel_step (s s' : State) (e : Event) :
  invariant s -> cancel_ok s ->
  step StringToNumber ObjectToNumber s e = Some s' ->
  cancel_ok s'.
Proof.
  intros [Hok Hph] Hc Hstep.
  destruct e as [dt|i|n o|c|m|]; cbn [step] in Hstep.
  - destruct (_ && _) in Hstep; [|discriminate]. injection Hstep as <-.
    eapply cancel_ok_untouched; [exact Hc|]. auto with cancellation.
  - destruct (find_timer i s) as [t|] eqn:Hf; [|discriminate].
    destruct (due t <=? now s)%Z; [|discriminate]. injection Hstep as <-.
    eapply cancel_ok_untouched; [exact Hc|].
    apply untouched_run_callback, untouched_rearm.
  - destruct (nth_error (pending s) n) as [r|] eqn:Hn; [|discriminate].
    injection Hstep as <-. pose proof (cancels_remove _ _ _ Hn) as Hcount.
    set (s0 := with_pending (remove_nth n (pending s)) s).
    destruct (is_cancel r) eqn:Hr.
    + assert (cancels (pending (resume r o s0)) = 0%nat) as E.
      { destruct Hc as [Hle _].
        assert (cancels (pending s0) = 0%nat) as E0
          by (subst s0; cbn [pending with_pending]; lia).
        destruct r; try discriminate Hr. cbn [resume]. destruct o as [v|err].
        - assert (timers_ok s0) as Hok0 by (subst s0; auto with timers).
          destruct (cancel_success_effect v s0 Hok0) as (_ & _ & _ & Ep & _).
          now rewrite Ep.
        - cbn [then_cancelTakeoff]. unfold setIsCancelling, setError.
          repeat match goal with
                 | |- context [if ?b then _ else _] => destruct b
                 end; exact E0. }
      unfold cancel_ok. rewrite E. split; [lia|discriminate].
    + eapply cancel_ok_untouched; [|apply untouched_resume; exact Hr].
      destruct Hc as [Hle Hone]. unfold cancel_ok. subst s0.
      cbn [pending with_pending isCancelling].
      rewrite Nat.add_0_r in Hcount. rewrite Hcount. auto.
  - destruct (cancel_button_enabled s) eqn:Hb; [|discriminate]. injection Hstep as <-.
    unfold cancel_button_enabled in Hb.
    apply andb_true_iff in Hb. destruct Hb as [Hb Hnc].
    apply andb_true_iff in Hb. destruct Hb as [Hm Hp].
    apply negb_true_iff in Hnc.
    assert (cancels (pending s) = 0%nat) as E0.
    { destruct Hc as [Hle Hone].
      destruct (cancels (pending s)) as [|[|k]]; [reflexivity| |lia].
      rewrite (Hone eq_refl) in Hnc. discriminate. }
    unfold handleCancel.
    destruct (negb (truthy (project s)) || negb (isProcessing s)); [exact Hc|].
    destruct (negb c); [exact Hc|].
    unfold cancel_ok, request, setError, setIsCancelling, cancels.
    rewrite Hm. project_fields. rewrite Hm. project_fields.
    rewrite filter_app, length_app. cbn. unfold cancels in E0. rewrite E0.
    split; [lia|reflexivity].
  - destruct (mounted s); [|discriminate]. injection Hstep as <-.
    eapply cancel_ok_untouched; [exact Hc|]. auto with cancellation.
  - destruct (mounted s); [|discriminate]. injection Hstep as <-.
    eapply cancel_ok_untouched; [exact Hc|].
    apply untouched_unmount, untouched_refl.
Qed.

(** X20. At most one cancellation request is in flight at any moment of a
    session, and while it is in flight the view is cancelling: the cancel
    button cannot be used to send a second one. *)
Theorem one_cancellation_in_flight (s : State) :
  reachable StringToNumber ObjectToNumber s ->
  (cancels (pending s) <= 1)%nat
  /\ (cancels (pending s) = 1%nat ->
      isCancelling s = true /\ cancel_button_enabled s = false).
Proof.
  intros (id0 & state_project & evs & Hrun).
  assert (cancel_ok s) as [Hle Hone].
  { assert (cancel_ok (mount id0 state_project)) as H0.
    { unfold mount. eapply cancel_ok_untouched;
        [|apply untouched_project_effects, untouched_refl].
      unfold cancel_ok, cancels. cbn. split; [lia|discriminate]. }
    pose proof (invariant_mount id0 state_project) as Hi.
    revert Hrun H0 Hi. generalize (mount id0 state_project).
    induction evs as [|e evs IH]; intros s0 Hrun H0 Hi; cbn in Hrun.
    - now injection Hrun as <-.
    - destruct (step StringToNumber ObjectToNumber s0 e) as [s1|] eqn:Hs; [|discriminate].
      apply (IH s1 Hrun).
      + exact (cancel_step s0 s1 e Hi H0 Hs).
      + exact (invariant_step _ _ _ _ _ Hi Hs). }
  split; [exact Hle|]. intros H1. specialize (Hone H1). split; [exact Hone|].
  unfold cancel_button_enabled. rewrite Hone. cbn. now rewrite andb_false_r.
Qed.

(** *** Loading the project *)

Lemma same_value_truthy (v p : Value) :
  same_value v p = true -> truthy v = truthy p.
Proof.
  intros E.
  destruct v as [| |b|x|x|l|l], p as [| |b'|y|y|l'|l']; cbn in *;
    try discriminate; try reflexivity;
    try (destruct x; discriminate);
    try (apply Bool.eqb_prop in E; now subst);
    try (apply String.eqb_eq in E; now subst).
  destruct x, y; try discriminate; try reflexivity.
  apply Qeq_bool_iff in E. f_equal.
  apply eq_true_iff_eq. rewrite !Qeq_bool_iff. now rewrite E.
Qed.

Lemma idle_step (s s' : State) (e : Event) :
  idle s ->
  step StringToNumber ObjectToNumber s e = Some s' ->
  idle s' /\ navigations s' = navigations s /\ error s' = error s
  /\ console s' = console s /\ project s' = project s.
Proof.
  intros (Hp & Hpe & Ht & Hi) Hstep. unfold idle.
  destruct e as [dt|i|n o|c|m|]; cbn [step] in Hstep.
  - destruct (_ && _) in Hstep; [|discriminate]. injection Hstep as <-. cbn. auto.
  - unfold find_timer in Hstep. rewrite Ht in Hstep. discriminate.
  - rewrite Hpe in Hstep. destruct n; discriminate.
  - unfold cancel_button_enabled in Hstep. rewrite Hi, andb_false_r in Hstep.
    discriminate.
  - destruct (mounted s) eqn:Hm; [|discriminate]. injection Hstep as <-.
    unfold setProgress. rewrite Hm. cbn. auto.
  - destruct (mounted s) eqn:Hm; [|discriminate]. injection Hstep as <-.
    unfold unmount, clear_if_polling, clearInterval_ref, clearInterval.
    rewrite Hm. destruct (ref_truthy s), (pollingIntervalRef s); cbn;
      rewrite ?Ht; cbn; auto.
Qed.

Lemma load_pending (s : State) (n : nat) :
  invariant s -> nth_error (pending s) n = Some ReqLoadProject ->
  truthy (project s) = false /\ remove_nth n (pending s) = []
  /\ timers s = [] /\ isProcessing s = false.
Proof.
  intros [_ Hph] Hn. unfold phase_ok in Hph.
  destruct (truthy (project s)) eqn:Hp.
  - destruct Hph as (Hload & _). rewrite forallb_forall in Hload.
    specialize (Hload _ (nth_error_In _ _ Hn)). discriminate.
  - destruct Hph as ([H|H] & Ht & Hi); rewrite H in *.
    + destruct n; discriminate.
    + destruct n as [|[|n]]; try discriminate. auto.
Qed.

(** X21. When the project cannot be loaded, the view shows 'Failed to load
    project' and logs the error; from then on nothing is in flight and no
    timer is set, so the page stays as it is: no retry, no navigation. *)
Theorem failed_load_leaves_the_page_stuck
    (s s1 : State) (n : nat) (err : Failure) :
  reachable StringToNumber ObjectToNumber s ->
  nth_error (pending s) n = Some ReqLoadProject ->
  step StringToNumber ObjectToNumber s (Respond n (Rejected err)) = Some s1 ->
  (mounted s = true -> error s1 = VStr "Failed to load project")
  /\ console s1 = console s ++ [ConsoleError err]
  /\ forall evs s2,
       run StringToNumber ObjectToNumber s1 evs = Some s2 ->
       pending s2 = [] /\ timers s2 = [] /\ navigations s2 = navigations s
       /\ error s2 = error s1 /\ project s2 = project s.
Proof.
  intros Hr Hn Hstep. pose proof (invariant_reachable _ _ _ Hr) as Hi.
  destruct (load_pending s n Hi Hn) as (Hp & Hrem & Ht & Hproc).
  rewrite (respond_inv _ _ _ _ _ _ _ Hn Hstep). rewrite Hrem.
  cbn [resume then_loadProject].
  set (s0 := console_write (ConsoleError err)
               (setError (VStr "Failed to load project") (with_pending [] s))).
  assert (idle s0 /\ navigations s0 = navigations s /\ project s0 = project s
          /\ console s0 = console s ++ [ConsoleError err]
          /\ (mounted s = true -> error s0 = VStr "Failed to load project"))
    as (Hidle & En & Epr & Ec & Ee).
  { subst s0. unfold idle, console_write, setError.
    destruct (mounted s) eqn:Hm; repeat (project_fields; rewrite ?Hm);
      repeat split; auto; discriminate. }
  split; [exact Ee|]. split; [exact Ec|].
  intros evs. revert Hidle En Epr. generalize s0. clear.
  induction evs as [|e evs IH]; intros s0 Hidle En Epr s2 Hrun; cbn in Hrun.
  - injection Hrun as <-. destruct Hidle as (_ & Hpe & Ht & _). auto.
  - destruct (step StringToNumber ObjectToNumber s0 e) as [s'|] eqn:Hs; [|discriminate].
    destruct (idle_step s0 s' e Hidle Hs) as (Hidle' & En' & Ee' & _ & Epr').
    destruct (IH s' Hidle' (eq_trans En' En) (eq_trans Epr' Epr) s2 Hrun)
      as (A & B & C & D & E).
    repeat split; auto. congruence.
Qed.

(** X22. When the project arrives on a mounted view, processing is
    requested for the [project_id] of the project received, the view enters
    the processing state and clears its error; a falsy answer requests no
    processing. *)
Theorem loaded_project_is_processed
    (s s1 : State) (n : nat) (v : Value) :
  reachable StringToNumber ObjectToNumber s ->
  nth_error (pending s) n = Some ReqLoadProject ->
  step StringToNumber ObjectToNumber s (Respond n (Resolved v)) = Some s1 ->
  (truthy v = true -> mounted s = true ->
   project s1 = v
   /\ pending s1 = [ReqProcessTakeoff (member v "project_id")]
   /\ isProcessing s1 = true
   /\ error s1 = VNull)
  /\ (truthy v = false -> starts (pending s1) = 0%nat /\ isProcessing s1 = false)
  /\ timers s1 = [].
Proof.
  intros Hr Hn Hstep. pose proof (invariant_reachable _ _ _ Hr) as Hi.
  destruct (load_pending s n Hi Hn) as (Hp & Hrem & Ht & Hproc).
  rewrite (respond_inv _ _ _ _ _ _ _ Hn Hstep). rewrite Hrem.
  assert (timers (with_pending [] s) = [] /\ pending (with_pending [] s) = []
          /\ isProcessing (with_pending [] s) = false
          /\ truthy (project (with_pending [] s)) = false
          /\ mounted (with_pending [] s) = mounted s) as Hs0 by auto.
  revert Hs0. generalize (with_pending [] s) as s0. intros s0.
  destruct s0 as [i0 n0 m0 p0 pr0 ip0 ic0 e0 ref0 t0 nt0 pe0 nv0 co0].
  cbn [timers pending isProcessing project mounted].
  intros (-> & -> & -> & Hp0 & Hm).
  cbn [resume then_loadProject mounted project].
  destruct m0; cbn [andb].
  - destruct (same_value v p0) eqn:Hsv; cbn [negb].
    + pose proof (same_value_truthy v p0 Hsv) as E. rewrite Hp0 in E.
      cbn. repeat split; intros; congruence.
    + unfold project_effects, setProject, startProcessing, setError,
        setIsProcessing, request. cbn.
      destruct (truthy v) eqn:Hv; cbn; rewrite ?Hv; cbn.
      * repeat split; intros; congruence.
      * destruct (negb (String.eqb i0 "")); cbn; rewrite ?Hv; cbn;
          repeat split; intros; congruence.
  - cbn. repeat split; intros; congruence.
Qed.

(** *** A project that is known *)

Lemma starts_late (l : list Request) : forallb is_late l = true -> starts l = 0%nat.
Proof.
  induction l as [|r l IH]; [reflexivity|]. cbn [forallb]. intros H.
  apply andb_true_iff in H. destruct H as [Hr Hl]. unfold starts in *.
  cbn [filter]. unfold is_late in Hr. apply andb_true_iff in Hr.
  destruct Hr as [_ Hr]. apply negb_true_iff in Hr. rewrite Hr. now apply IH.
Qed.

Lemma settles_starts (s s' : State) :
  settles s s' ->
  project s' = project s /\ starts (pending s') = starts (pending s).
Proof.
  intros (E & (extra & Ep & Hl) & _). split; [exact E|].
  rewrite Ep, starts_app, (starts_late extra Hl). lia.
Qed.

Lemma starts_remove (l : list Request) (n : nat) (r : Request) :
  nth_error l n = Some r ->
  (starts (remove_nth n l) + (if is_start r then 1 else 0))%nat = starts l.
Proof.
  intros Hn. destruct (nth_error_remove_nth _ _ _ Hn) as [l1 [l2 [E1 E2]]].
  rewrite E2, E1, !starts_app. unfold starts. cbn [filter].
  destruct (is_start r); cbn [List.length]; lia.
Qed.

Lemma known_project_step (s s' : State) (e : Event) :
  invariant s -> truthy (project s) = true ->
  step StringToNumber ObjectToNumber s e = Some s' ->
  project s' = project s /\ (starts (pending s') <= starts (pending s))%nat.
Proof.
  intros [Hok Hph] Hp Hstep.
  assert (forall u, settles s u ->
                    project u = project s
                    /\ (starts (pending u) <= starts (pending s))%nat) as Hsettle.
  { intros u Hu. destruct (settles_starts _ _ Hu) as [A B]. split; [exact A|lia]. }
  destruct e as [dt|i|n o|c|m|]; cbn [step] in Hstep.
  - destruct (_ && _) in Hstep; [|discriminate]. injection Hstep as <-. cbn. auto.
  - destruct (find_timer i s) as [t|] eqn:Hf; [|discriminate].
    destruct (due t <=? now s)%Z; [|discriminate]. injection Hstep as <-.
    destruct (find_timer_In _ _ _ Hf) as [Hin _].
    assert (timers_ok (rearm t s)) as Hok' by now apply timers_ok_rearm.
    destruct (settles_starts _ _ (settles_run_callback (callback t) _ Hok')) as [A B].
    destruct (rearm_frame t s) as (E1 & E2 & _).
    rewrite A, B, E1, E2. auto.
  - destruct (nth_error (pending s) n) as [r|] eqn:Hn; [|discriminate].
    injection Hstep as <-. pose proof (starts_remove _ _ _ Hn) as Hcount.
    set (s0 := with_pending (remove_nth n (pending s)) s).
    assert (timers_ok s0) as Hok0 by (subst s0; auto with timers).
    destruct (moves_on r o) eqn:Hmv.
    + destruct r, o; try discriminate Hmv; cbn [resume].
      * exfalso. unfold phase_ok in Hph. rewrite Hp in Hph.
        destruct Hph as (Hload & _). rewrite forallb_forall in Hload.
        specialize (Hload _ (nth_error_In _ _ Hn)). discriminate.
      * cbn [then_processTakeoff].
        unfold pollForCompletion, setTimeout, setInterval, new_timer. subst s0.
        project_fields. split; [reflexivity|lia].
    + destruct (settles_starts _ _ (settles_resume r o s0 Hok0 Hmv)) as [A B].
      rewrite A, B. subst s0. project_fields. split; [reflexivity|lia].
  - destruct (cancel_button_enabled s); [|discriminate]. injection Hstep as <-.
    apply Hsettle, settles_handleCancel.
  - destruct (mounted s); [|discriminate]. injection Hstep as <-.
    apply Hsettle. auto with settle.
  - destruct (mounted s); [|discriminate]. injection Hstep as <-.
    apply Hsettle. now apply settles_unmount.
Qed.

(** X23. A project handed over by the upload page in the router state is
    never fetched: the first render requests its processing, for its
    [project_id], and nothing else; throughout the session the project
    stays the one handed over, no request to load it is sent, and no second
    request to start processing is made. *)
Theorem handed_over_project_is_processed_once
    (id0 : string) (p : Value) (evs : list Event) (s : State) :
  truthy p = true ->
  run StringToNumber ObjectToNumber (mount id0 p) evs = Some s ->
  pending (mount id0 p) = [ReqProcessTakeoff (member p "project_id")]
  /\ isProcessing (mount id0 p) = true
  /\ project s = p
  /\ forallb (fun r => negb (is_load r)) (pending s) = true
  /\ (starts (pending s) <= 1)%nat
  /\ (forall e s',
        step StringToNumber ObjectToNumber s e = Some s' ->
        (starts (pending s') <= starts (pending s))%nat).
Proof.
  intros Hp Hrun.
  assert (pending (mount id0 p) = [ReqProcessTakeoff (member p "project_id")]
          /\ isProcessing (mount id0 p) = true
          /\ project (mount id0 p) = p) as (E1 & E2 & E3).
  { unfold mount, project_effects, startProcessing, setError, setIsProcessing,
      request, js_or. rewrite Hp. cbn. rewrite Hp. cbn. rewrite Hp. cbn. auto. }
  split; [exact E1|]. split; [exact E2|].
  assert (invariant s /\ project s = p) as [Hi Es].
  { pose proof (invariant_mount id0 p) as Hi0.
    revert Hrun Hi0 E3. generalize (mount id0 p). clear E1 E2.
    induction evs as [|e evs IH]; intros s0 Hrun Hi0 E3; cbn in Hrun.
    - injection Hrun as <-. auto.
    - destruct (step StringToNumber ObjectToNumber s0 e) as [s1|] eqn:Hs; [|discriminate].
      apply (IH s1 Hrun).
      + exact (invariant_step _ _ _ _ _ Hi0 Hs).
      + assert (truthy (project s0) = true) as Ht by now rewrite E3.
        destruct (known_project_step s0 s1 e Hi0 Ht Hs) as [A _]. congruence. }
  split; [exact Es|].
  assert (truthy (project s) = true) as Ht by now rewrite Es.
  pose proof Hi as [_ Hph]. unfold phase_ok in Hph. rewrite Ht in Hph.
  destruct Hph as (Hload & Hle & _).
  split; [exact Hload|]. split; [exact Hle|].
  intros e s' Hs. now destruct (known_project_step s s' e Hi Ht Hs).
Qed.

(** X24. In a session the display is written by two things only: a socket
    message, which never lowers the percentage, and a cancellation that
    succeeded, which resets the display to 'cancelled' at 0 %.  Timers, poll
    answers, a failed cancellation and leaving the page keep the display,
    and the percentage stays within [0, 100] throughout. *)
Theorem display_changes_by_message_or_cancel_only (s s' : State) (e : Event) :
  reachable StringToNumber ObjectToNumber s ->
  step StringToNumber ObjectToNumber s e = Some s' ->
  percentage (progress (progressState s'))
  /\ (progressState s' = progressState s
      \/ (exists m, e = SocketMessage m
                    /\ Number_le (progress (progressState s))
                         (progress (progressState s')))
      \/ (exists n v pid, e = Respond n (Resolved v)
                          /\ nth_error (pending s) n = Some (ReqCancelTakeoff pid)
                          /\ progressState s' = cancelled_display)).
Proof.
  intros Hr Hstep.
  pose proof (reachable_percentage _ _ _ Hr) as Hp.
  destruct (session_progress _ _ s s' e Hp Hstep) as [Hp' _].
  split; [exact Hp'|].
  destruct (step_progress _ _ s s' e Hstep) as [E|[(m & -> & E)|H]].
  - now left.
  - right. left. exists m. split; [reflexivity|]. rewrite E.
    destruct (progress (progressState s)) as [| |q|] eqn:Eq; cbn in Hp; try tauto.
    destruct (effect_progress_grows StringToNumber ObjectToNumber m _ q Eq)
      as (q' & -> & Hle).
    exact Hle.
  - right. right. exact H.
Qed.

End SessionFacts.

(* ------------------------------------------------------------------ *)
(** ** The further properties on examples *)

Module Cases.

Import Examples Scenarios.


(** The socket opens, receives a frame and closes; a frame and a send
    later the hook still reports disconnected. *)
Lemma connected_reports_the_last_socket_event_witness :
  exists c' : Socket.Connection,
    Socket.run literal_JSON_parse literal_JSON_stringify
      ([Socket.Opened; Socket.Frame "true"] ++ Socket.Closed
         :: [Socket.Frame "null"; Socket.Send VNull]) socket
    = UseWebSocket.Normal c'
    /\ UseWebSocket.connected (Socket.hook c') = false.
Proof.
  assert (Socket.ws socket = true) as H1 by (vm_compute; reflexivity).
  exact (connected_reports_the_last_socket_event
           literal_JSON_parse literal_JSON_stringify
           [Socket.Opened; Socket.Frame "true"]
           [Socket.Frame "null"; Socket.Send VNull] Socket.Closed socket
           H1 eq_refl eq_refl).
Defined.

(** Without a URL no socket is created: what is sent is dropped. *)
Lemma nothing_is_sent_while_disconnected_witness :
  exists c' : Socket.Connection,
    Socket.run literal_JSON_parse literal_JSON_stringify
      [Socket.Opened; Socket.Send (VBool true)] (Socket.connect "")
    = UseWebSocket.Normal c'
    /\ Socket.sent c' = []
    /\ UseWebSocket.connected (Socket.hook c') = false.
Proof.
  exact (nothing_is_sent_while_disconnected
           literal_JSON_parse literal_JSON_stringify
           [Socket.Opened; Socket.Send (VBool true)] (Socket.connect "")
           eq_refl (or_introl eq_refl)).
Defined.

(** Stage 'cv' is the fourth of the table. *)
Lemma known_stage_lights_the_stages_up_to_it_witness :
  Render.currentStageIndex at_cv = 3%Z
  /\ (forall j : nat, Render.isActive j at_cv = true <-> (j <= 3)%nat)
  /\ Render.stage_label at_cv = "CV".
Proof.
  destruct (known_stage_lights_the_stages_up_to_it at_cv 3
              {| Render.key := "cv"; Render.label := "CV" |} eq_refl eq_refl)
    as (H1 & H2 & _ & H4).
  split; [exact H1|]. split; [exact H2|exact H4].
Defined.

(** After a cancel the stage is 'cancelled', which the table does not
    hold. *)
Lemma unknown_stage_lights_nothing_witness :
  Render.currentStageIndex cancelled_display = (-1)%Z
  /\ Render.stage_label cancelled_display = "Processing".
Proof.
  assert (forall s : Render.Stage, In s Render.STAGES ->
                                   stage cancelled_display <> VStr (Render.key s)) as H.
  { intros s Hin. cbn in Hin.
    repeat (destruct Hin as [<-|Hin]; [discriminate|]). destruct Hin. }
  destruct (unknown_stage_lights_nothing cancelled_display H) as (H1 & _ & _ & H4).
  split; [exact H1|exact H4].
Defined.

(** 50.5 % is written 51%. *)
Lemma percent_label_is_a_whole_percentage_witness :
  exists n : Z,
    Render.percent_label at_cv = Some (Fin (inject_Z n))
    /\ (10 <= n <= 100)%Z.
Proof.
  assert (0 <= 101 # 2 <= 100)%Q as Hx by (split; unfold Qle; cbn; lia).
  assert (10 < 101 # 2)%Q as Hgt by (unfold Qlt; cbn; lia).
  destruct (percent_label_is_a_whole_percentage at_cv (101 # 2) eq_refl Hx)
    as (_ & H).
  destruct (H Hgt) as (n & Hn & Hr & _).
  exists n. split; [exact Hn|exact Hr].
Defined.

(** With nothing set in the environment both addresses are on
    localhost:8000. *)
Lemma socket_address_follows_the_api_address_witness :
  Urls.API_BASE_URL None = "http://localhost:8000"
  /\ Urls.socket_url None "42" = "ws://localhost:8000/ws/client_42".
Proof.
  split; [reflexivity|].
  exact (proj1 (socket_address_follows_the_api_address None "localhost:8000" "42")
           eq_refl eq_refl).
Defined.

(** An address given without its scheme. *)
Lemma address_without_scheme_is_kept_witness :
  Urls.socket_url (Some "localhost:8000") "42" = "localhost:8000/ws/client_42".
Proof.
  assert ("localhost:8000" <> "") as H by discriminate.
  exact (address_without_scheme_is_kept "localhost:8000" "42" H eq_refl eq_refl).
Defined.

(** Painting is selected; two clicks on it later it is selected again,
    after drywall. *)
Lemma toggling_twice_restores_the_selection_witness :
  NewProject.toggleTrade "painting"
    (NewProject.toggleTrade "painting" ["painting"; "drywall"])
  = ["drywall"; "painting"]
  /\ Permutation
       (NewProject.toggleTrade "painting"
          (NewProject.toggleTrade "painting" ["painting"; "drywall"]))
       ["painting"; "drywall"].
Proof.
  assert (NoDup ["painting"; "drywall"]) as H.
  { constructor; [intros [E|[]]; discriminate E|].
    constructor; [intros []|constructor]. }
  split; [reflexivity|].
  exact (proj1 (toggling_twice_restores_the_selection "painting"
                  ["painting"; "drywall"] H)).
Defined.

Lemma reachable_loading (evs : list Event) (s : State) :
  run' loading evs = Some s ->
  reachable decimal_StringToNumber plain_ObjectToNumber s.
Proof. intros H. exists "7", VNull, evs. exact H. Defined.

Lemma reachable_42 (evs : list Event) (s : State) :
  run' (mount "42" plans) evs = Some s ->
  reachable decimal_StringToNumber plain_ObjectToNumber s.
Proof. intros H. exists "42", plans, evs. exact H. Defined.

(** After the first tick the interval 1 is the only one, and the ref holds
    its identifier. *)
Lemma at_most_one_polling_interval_witness :
  (List.length (filter is_poll (timers (state_after first_tick))) <= 1)%nat
  /\ pollingIntervalRef (state_after first_tick) = Some 1%nat.
Proof.
  assert (reachable decimal_StringToNumber plain_ObjectToNumber (state_after first_tick))
    as Hr by (apply (reachable_42 first_tick); vm_compute; reflexivity).
  destruct (at_most_one_polling_interval
              decimal_StringToNumber plain_ObjectToNumber _ Hr) as [Hone Hpoll].
  split; [exact Hone|].
  assert (In {| tid := 1; due := 6000; period := Some 3000%Z; callback := PollTick |}
            (timers (state_after first_tick))) as Hin by (vm_compute; left; reflexivity).
  destruct (Hpoll _ Hin eq_refl) as (_ & Href & _). exact Href.
Defined.

(** The start request of project 42 fails with a network error. *)
Lemma failed_start_reports_and_never_polls_witness :
  let s1 := state_after [Respond 0 (Rejected network_error)] in
  error s1 = VStr "Network Error"
  /\ isProcessing s1 = false
  /\ polling (state_after [Respond 0 (Rejected network_error); Elapse 1000]) = false.
Proof.
  intros s1.
  assert (reachable decimal_StringToNumber plain_ObjectToNumber (mount "42" plans))
    as Hr by (apply (reachable_42 []); vm_compute; reflexivity).
  assert (nth_error (pending (mount "42" plans)) 0
          = Some (ReqProcessTakeoff (VStr "p42"))) as Hn by (vm_compute; reflexivity).
  assert (step decimal_StringToNumber plain_ObjectToNumber (mount "42" plans)
            (Respond 0 (Rejected network_error)) = Some s1)
    as Hstep by (vm_compute; reflexivity).
  destruct (failed_start_reports_and_never_polls
              decimal_StringToNumber plain_ObjectToNumber
              _ s1 0%nat (VStr "p42") network_error Hr Hn Hstep) as (Herr & _ & Hnever).
  assert (mounted (mount "42" plans) = true) as Hm by (vm_compute; reflexivity).
  destruct (Herr Hm) as (He & _ & Hp).
  assert (run decimal_StringToNumber plain_ObjectToNumber s1 [Elapse 1000]
          = Some (state_after [Respond 0 (Rejected network_error); Elapse 1000]))
    as Hrun by (vm_compute; reflexivity).
  vm_compute in He.
  split; [exact He|]. split; [exact Hp|]. exact (Hnever _ _ Hrun).
Defined.

(** The user leaves while polling; or leaves before the start request is
    answered, and polling begins on the page that has been left. *)
Lemma leaving_clears_the_polling_interval_only_witness :
  let s' := state_after (first_tick ++ [Leave]) in
  let s2 := state_after [Leave; Respond 0 (Resolved VNull)] in
  (mounted s' = false /\ polling s' = false /\ pending s' = [ReqPollProject])
  /\ (mounted s2 = false /\ polling s2 = true).
Proof.
  intros s' s2.
  assert (reachable decimal_StringToNumber plain_ObjectToNumber (state_after first_tick))
    as Hr by (apply (reachable_42 first_tick); vm_compute; reflexivity).
  assert (step decimal_StringToNumber plain_ObjectToNumber (state_after first_tick) Leave
          = Some s') as Hstep by (vm_compute; reflexivity).
  destruct (leaving_clears_the_polling_interval_only
              decimal_StringToNumber plain_ObjectToNumber _ s' Hr Hstep)
    as (Hm & Hp & _ & Hpe & _).
  assert (reachable decimal_StringToNumber plain_ObjectToNumber (mount "42" plans))
    as Hr0 by (apply (reachable_42 []); vm_compute; reflexivity).
  assert (step decimal_StringToNumber plain_ObjectToNumber (mount "42" plans) Leave
          = Some (state_after [Leave])) as Hstep0 by (vm_compute; reflexivity).
  destruct (leaving_clears_the_polling_interval_only
              decimal_StringToNumber plain_ObjectToNumber _ _ Hr0 Hstep0)
    as (_ & _ & _ & _ & _ & Hleak).
  assert (nth_error (pending (mount "42" plans)) 0
          = Some (ReqProcessTakeoff (VStr "p42"))) as Hn by (vm_compute; reflexivity).
  assert (step decimal_StringToNumber plain_ObjectToNumber (state_after [Leave])
            (Respond 0 (Resolved VNull)) = Some s2) as Hstep2 by (vm_compute; reflexivity).
  vm_compute in Hpe.
  split; [split; [exact Hm|split; [exact Hp|exact Hpe]]|].
  exact (Hleak 0%nat (VStr "p42") VNull s2 Hn Hstep2).
Defined.

(** Project 42 completes: the one navigation done goes to /projects/42. *)
Lemma view_navigates_to_its_results_page_only_witness :
  navigations (state_after completed_and_gone) = ["/projects/42"]
  /\ forall p, In p (navigations (state_after completed_and_gone)) ->
               p = "/projects/42".
Proof.
  assert (run decimal_StringToNumber plain_ObjectToNumber (mount "42" plans)
            completed_and_gone = Some (state_after completed_and_gone))
    as Hrun by (vm_compute; reflexivity).
  destruct (view_navigates_to_its_results_page_only
              decimal_StringToNumber plain_ObjectToNumber "42" plans _ _ Hrun)
    as [Hnav _].
  split; [vm_compute; reflexivity|exact Hnav].
Defined.

(** The navigation scheduled on 'completed' is still counted once done. *)
Lemma scheduled_navigations_are_never_revoked_witness :
  let s := state_after (first_tick ++ [Respond 0 completed]) in
  scheduled_navigations s = 1%nat
  /\ (1 <= scheduled_navigations (state_after completed_and_gone))%nat.
Proof.
  intros s.
  assert (reachable decimal_StringToNumber plain_ObjectToNumber s)
    as Hr by (apply (reachable_42 (first_tick ++ [Respond 0 completed]));
              vm_compute; reflexivity).
  assert (run decimal_StringToNumber plain_ObjectToNumber s [Elapse 2000; TimerFires 3]
          = Some (state_after completed_and_gone)) as Hrun by (vm_compute; reflexivity).
  destruct (scheduled_navigations_are_never_revoked
              decimal_StringToNumber plain_ObjectToNumber s _ _ Hr Hrun) as [Hle _].
  assert (scheduled_navigations s = 1%nat) as Hone by (vm_compute; reflexivity).
  split; [exact Hone|]. rewrite Hone in Hle. exact Hle.
Defined.

(** The cancel dialog has been confirmed: one request, button disabled. *)
Lemma one_cancellation_in_flight_witness :
  Trace.cancels (pending (state_after cancel_confirmed)) = 1%nat
  /\ isCancelling (state_after cancel_confirmed) = true
  /\ cancel_button_enabled (state_after cancel_confirmed) = false.
Proof.
  assert (reachable decimal_StringToNumber plain_ObjectToNumber
            (state_after cancel_confirmed))
    as Hr by (apply (reachable_42 cancel_confirmed); vm_compute; reflexivity).
  destruct (one_cancellation_in_flight
              decimal_StringToNumber plain_ObjectToNumber _ Hr) as [_ Hone].
  assert (Trace.cancels (pending (state_after cancel_confirmed)) = 1%nat)
    as H1 by (vm_compute; reflexivity).
  split; [exact H1|exact (Hone H1)].
Defined.

(** Project 7 cannot be loaded; a minute later, and once the user has
    left, nothing has happened. *)
Lemma failed_load_leaves_the_page_stuck_witness :
  let s1 := loading_after [Respond 0 (Rejected network_error)] in
  let s2 := loading_after [Respond 0 (Rejected network_error); Elapse 60000; Leave] in
  error s1 = VStr "Failed to load project"
  /\ pending s2 = [] /\ timers s2 = [] /\ navigations s2 = [].
Proof.
  intros s1 s2.
  assert (reachable decimal_StringToNumber plain_ObjectToNumber loading)
    as Hr by (apply (reachable_loading []); vm_compute; reflexivity).
  assert (nth_error (pending loading) 0 = Some ReqLoadProject)
    as Hn by (vm_compute; reflexivity).
  assert (step decimal_StringToNumber plain_ObjectToNumber loading
            (Respond 0 (Rejected network_error)) = Some s1)
    as Hstep by (vm_compute; reflexivity).
  destruct (failed_load_leaves_the_page_stuck
              decimal_StringToNumber plain_ObjectToNumber
              _ s1 0%nat network_error Hr Hn Hstep) as (Herr & _ & Hstuck).
  assert (mounted loading = true) as Hm by (vm_compute; reflexivity).
  assert (run decimal_StringToNumber plain_ObjectToNumber s1 [Elapse 60000; Leave]
          = Some s2) as Hrun by (vm_compute; reflexivity).
  destruct (Hstuck _ _ Hrun) as (Hp & Ht & Hnav & _).
  vm_compute in Hnav.
  split; [exact (Herr Hm)|]. split; [exact Hp|]. split; [exact Ht|exact Hnav].
Defined.

(** Project 7 arrives: its processing is requested. *)
Lemma loaded_project_is_processed_witness :
  let s1 := loading_after [Respond 0 (Resolved plans)] in
  project s1 = plans
  /\ pending s1 = [ReqProcessTakeoff (VStr "p42")]
  /\ isProcessing s1 = true.
Proof.
  intros s1.
  assert (reachable decimal_StringToNumber plain_ObjectToNumber loading)
    as Hr by (apply (reachable_loading []); vm_compute; reflexivity).
  assert (nth_error (pending loading) 0 = Some ReqLoadProject)
    as Hn by (vm_compute; reflexivity).
  assert (step decimal_StringToNumber plain_ObjectToNumber loading
            (Respond 0 (Resolved plans)) = Some s1)
    as Hstep by (vm_compute; reflexivity).
  destruct (loaded_project_is_processed
              decimal_StringToNumber plain_ObjectToNumber
              _ s1 0%nat plans Hr Hn Hstep) as (Hok & _).
  assert (mounted loading = true) as Hm by (vm_compute; reflexivity).
  destruct (Hok eq_refl Hm) as (H1 & H2 & H3 & _).
  vm_compute in H2.
  split; [exact H1|]. split; [exact H2|exact H3].
Defined.

(** Project 42 comes with the router state. *)
Lemma handed_over_project_is_processed_once_witness :
  pending (mount "42" plans) = [ReqProcessTakeoff (VStr "p42")]
  /\ project (state_after first_tick) = plans
  /\ (starts (pending (state_after first_tick)) <= 1)%nat.
Proof.
  assert (run decimal_StringToNumber plain_ObjectToNumber (mount "42" plans)
            first_tick = Some (state_after first_tick))
    as Hrun by (vm_compute; reflexivity).
  destruct (handed_over_project_is_processed_once
              decimal_StringToNumber plain_ObjectToNumber "42" plans _ _ eq_refl Hrun)
    as (H1 & _ & H3 & _ & H5 & _).
  vm_compute in H1.
  split; [exact H1|]. split; [exact H3|exact H5].
Defined.

(** A packet at 60 % reaches the view while it polls. *)
Lemma display_changes_by_message_or_cancel_only_witness :
  let m := packet (VStr "cv") (num 60) (VStr "Detecting") in
  let s' := state_after (first_tick ++ [SocketMessage m]) in
  percentage (progress (progressState s'))
  /\ stage (progressState s') = VStr "cv".
Proof.
  intros m s'.
  assert (reachable decimal_StringToNumber plain_ObjectToNumber (state_after first_tick))
    as Hr by (apply (reachable_42 first_tick); vm_compute; reflexivity).
  assert (step decimal_StringToNumber plain_ObjectToNumber (state_after first_tick)
            (SocketMessage m) = Some s') as Hstep by (vm_compute; reflexivity).
  destruct (display_changes_by_message_or_cancel_only
              decimal_StringToNumber plain_ObjectToNumber _ s' _ Hr Hstep) as [Hp _].
  split; [exact Hp|vm_compute; reflexivity].
Defined.

End Cases.
